(** * igloc: classification of git-ignored files and the export/import archive

    A shallow embedding of the Go sources

      - [internal/scanner/scanner.go]  (package [scanner]),
      - the export command             (package [cli]: [Manifest],
        [collectSingleRepo], [createExportZip], [addFileToZip]),
      - the import command             (package [cli]: [runImport],
        [readManifest], [resolveDestPath], [importFiles], [extractFile],
        [importPatterns]),
      - the pattern file               (package [config]: [LoadPatterns],
        [SavePatterns], [GetAllDepsDirs]),
      - the [sync] command             (package [cli], [sync.go]),
      - the [scan] command             (package [cli]: [runScan],
        [scanRecursive], [printResult], [formatSize]),

    together with the parts of Go's [strings], [unicode], [unicode/utf8],
    [path/filepath], [archive/zip] and [os] packages these call.  Strings
    are byte strings, read as UTF-8 where Go does so ([strings.ToLower],
    [strings.TrimSpace]); paths have ['/'] as the only separator (the
    Unix build); Go's [int64] and [int] are [Z] with the wrap-around
    written out. *)

From Stdlib Require Import ZArith Ascii String List Bool Lia DecimalString.
From stdpp Require Import gmap strings list fin_maps.

Local Open Scope string_scope.
Local Open Scope bool_scope.
Local Open Scope list_scope.

(* ===================================================================== *)
(** ** Go's [unicode/utf8] and [unicode] packages *)
(* ===================================================================== *)

(** A rune is a [Z]; a byte of a string is the number of its character. *)
Module Utf8.
Local Open Scope Z_scope.

Definition RuneError : Z := 65533.
Definition RuneSelf : Z := 128.
Definition MaxRune : Z := 1114111.

Definition byte (c : ascii) : Z := Z.of_N (N_of_ascii c).
Definition char (b : Z) : ascii := ascii_of_N (Z.to_N b).

(** [s[i]], for [i] within the string. *)
Definition byteAt (s : string) (i : nat) : Z :=
  match String.get i s with Some c => byte c | None => 0 end.

(** [s[n:]]. *)
Fixpoint from (n : nat) (s : string) : string :=
  match n, s with
  | O, _ => s
  | S n', String _ s' => from n' s'
  | S _, EmptyString => EmptyString
  end.

(** The table [first] with [acceptRanges]: for the leading byte of a
    sequence of more than one byte, its length and the range of its
    second byte.  [None] is the entry [xx] of a byte that leads no
    sequence. *)
Definition first (s0 : Z) : option (nat * Z * Z) :=
  if s0 <? 194 then None
  else if s0 <=? 223 then Some (2%nat, 128, 191)
  else if s0 =? 224 then Some (3%nat, 160, 191)
  else if s0 <=? 236 then Some (3%nat, 128, 191)
  else if s0 =? 237 then Some (3%nat, 128, 159)
  else if s0 <=? 239 then Some (3%nat, 128, 191)
  else if s0 =? 240 then Some (4%nat, 144, 191)
  else if s0 <=? 243 then Some (4%nat, 128, 191)
  else if s0 =? 244 then Some (4%nat, 128, 143)
  else None.

(** A byte outside [locb .. hicb] is no continuation byte. *)
Definition outside (b : Z) : bool := (b <? 128) || (191 <? b).

(** [utf8.DecodeRuneInString]: the first rune of [s] and its width in
    bytes; a sequence that is invalid or cut short gives
    [(RuneError, 1)]. *)
Definition DecodeRuneInString (s : string) : Z * nat :=
  match s with
  | EmptyString => (RuneError, 0%nat)
  | String c0 t0 =>
      let s0 := byte c0 in
      if s0 <? RuneSelf then (s0, 1%nat)
      else
        match first s0 with
        | None => (RuneError, 1%nat)
        | Some (sz, lo, hi) =>
            if (String.length s <? sz)%nat then (RuneError, 1%nat)
            else
              match t0 with
              | EmptyString => (RuneError, 1%nat)
              | String c1 t1 =>
                  let s1 := byte c1 in
                  if (s1 <? lo) || (hi <? s1) then (RuneError, 1%nat)
                  else if (sz <=? 2)%nat
                  then (Z.lor (Z.shiftl (Z.land s0 31) 6) (Z.land s1 63),
                        2%nat)
                  else
                    match t1 with
                    | EmptyString => (RuneError, 1%nat)
                    | String c2 t2 =>
                        let s2 := byte c2 in
                        if outside s2 then (RuneError, 1%nat)
                        else if (sz <=? 3)%nat
                        then (Z.lor (Z.shiftl (Z.land s0 15) 12)
                                (Z.lor (Z.shiftl (Z.land s1 63) 6)
                                   (Z.land s2 63)), 3%nat)
                        else
                          match t2 with
                          | EmptyString => (RuneError, 1%nat)
                          | String c3 _ =>
                              let s3 := byte c3 in
                              if outside s3 then (RuneError, 1%nat)
                              else
                                (Z.lor (Z.shiftl (Z.land s0 7) 18)
                                   (Z.lor (Z.shiftl (Z.land s1 63) 12)
                                      (Z.lor (Z.shiftl (Z.land s2 63) 6)
                                         (Z.land s3 63))), 4%nat)
                          end
                    end
              end
        end
  end.

(** [utf8.RuneStart]. *)
Definition RuneStart (b : Z) : bool := negb (Z.land b 192 =? 128).

(** The loop of [DecodeLastRuneInString] that looks for the start of the
    last rune: [start] goes down while it is at least [lim]; [k] is the
    number of indices from [lim] to [start]. *)
Fixpoint runeStartLoop (k : nat) (s : string) (start : Z) : Z :=
  match k with
  | O => start
  | S k' =>
      if RuneStart (byteAt s (Z.to_nat start)) then start
      else runeStartLoop k' s (start - 1)
  end.

(** [utf8.DecodeLastRuneInString]: the last rune of [s] and its width. *)
Definition DecodeLastRuneInString (s : string) : Z * nat :=
  let stop := Z.of_nat (String.length s) in
  if stop =? 0 then (RuneError, 0%nat)
  else
    let r := byteAt s (Z.to_nat (stop - 1)) in
    if r <? RuneSelf then (r, 1%nat)
    else
      let lim := Z.max 0 (stop - 4) in
      let start :=
        runeStartLoop (Z.to_nat (stop - 2 - lim + 1)) s (stop - 2) in
      let start := Z.max 0 start in
      let (r, size) := DecodeRuneInString (from (Z.to_nat start) s) in
      if negb (start + Z.of_nat size =? stop) then (RuneError, 1%nat)
      else (r, size).

(** [utf8.AppendRune] to the empty string: the encoding of a rune; a
    surrogate or a rune out of range is encoded as [RuneError]. *)
Definition encode3 (r : Z) : string :=
  String (char (Z.lor 224 (Z.shiftr r 12)))
    (String (char (Z.lor 128 (Z.land (Z.shiftr r 6) 63)))
       (String (char (Z.lor 128 (Z.land r 63))) EmptyString)).

Definition EncodeRune (r : Z) : string :=
  if (0 <=? r) && (r <=? 127) then String (char r) EmptyString
  else if (0 <=? r) && (r <=? 2047)
  then String (char (Z.lor 192 (Z.shiftr r 6)))
         (String (char (Z.lor 128 (Z.land r 63))) EmptyString)
  else if (r <? 0) || (MaxRune <? r) || (55296 <=? r) && (r <=? 57343)
  then encode3 RuneError
  else if r <=? 65535 then encode3 r
  else String (char (Z.lor 240 (Z.shiftr r 18)))
         (String (char (Z.lor 128 (Z.land (Z.shiftr r 12) 63)))
            (String (char (Z.lor 128 (Z.land (Z.shiftr r 6) 63)))
               (String (char (Z.lor 128 (Z.land r 63))) EmptyString))).

End Utf8.

Module Unicode.
Local Open Scope Z_scope.

(** The runes above ASCII that [unicode.CaseRanges] moves in lower case,
    as runs [(lo, hi, stride, delta)]: every [stride]-th rune from [lo]
    to [hi] is moved by [delta].  These are the simple lower-case
    mappings of the Unicode Character Database, version 15.0.0 (the one
    of the [unicode] package since Go 1.21; version 14.0.0 has the same);
    where capitals and small letters alternate, the run has the capitals
    only. *)
Definition caseRanges : list (Z * Z * Z * Z) :=
  [(192, 214, 1, 32); (216, 222, 1, 32); (256, 302, 2, 1);
   (304, 304, 1, -199); (306, 310, 2, 1); (313, 327, 2, 1); (330, 374, 2, 1);
   (376, 376, 1, -121); (377, 381, 2, 1); (385, 385, 1, 210);
   (386, 388, 2, 1); (390, 390, 1, 206); (391, 391, 1, 1);
   (393, 394, 1, 205); (395, 395, 1, 1); (398, 398, 1, 79);
   (399, 399, 1, 202); (400, 400, 1, 203); (401, 401, 1, 1);
   (403, 403, 1, 205); (404, 404, 1, 207); (406, 406, 1, 211);
   (407, 407, 1, 209); (408, 408, 1, 1); (412, 412, 1, 211);
   (413, 413, 1, 213); (415, 415, 1, 214); (416, 420, 2, 1);
   (422, 422, 1, 218); (423, 423, 1, 1); (425, 425, 1, 218);
   (428, 428, 1, 1); (430, 430, 1, 218); (431, 431, 1, 1);
   (433, 434, 1, 217); (435, 437, 2, 1); (439, 439, 1, 219);
   (440, 440, 1, 1); (444, 444, 1, 1); (452, 452, 1, 2); (453, 453, 1, 1);
   (455, 455, 1, 2); (456, 456, 1, 1); (458, 458, 1, 2); (459, 475, 2, 1);
   (478, 494, 2, 1); (497, 497, 1, 2); (498, 500, 2, 1); (502, 502, 1, -97);
   (503, 503, 1, -56); (504, 542, 2, 1); (544, 544, 1, -130);
   (546, 562, 2, 1); (570, 570, 1, 10795); (571, 571, 1, 1);
   (573, 573, 1, -163); (574, 574, 1, 10792); (577, 577, 1, 1);
   (579, 579, 1, -195); (580, 580, 1, 69); (581, 581, 1, 71);
   (582, 590, 2, 1); (880, 882, 2, 1); (886, 886, 1, 1); (895, 895, 1, 116);
   (902, 902, 1, 38); (904, 906, 1, 37); (908, 908, 1, 64);
   (910, 911, 1, 63); (913, 929, 1, 32); (931, 939, 1, 32); (975, 975, 1, 8);
   (984, 1006, 2, 1); (1012, 1012, 1, -60); (1015, 1015, 1, 1);
   (1017, 1017, 1, -7); (1018, 1018, 1, 1); (1021, 1023, 1, -130);
   (1024, 1039, 1, 80); (1040, 1071, 1, 32); (1120, 1152, 2, 1);
   (1162, 1214, 2, 1); (1216, 1216, 1, 15); (1217, 1229, 2, 1);
   (1232, 1326, 2, 1); (1329, 1366, 1, 48); (4256, 4293, 1, 7264);
   (4295, 4295, 1, 7264); (4301, 4301, 1, 7264); (5024, 5103, 1, 38864);
   (5104, 5109, 1, 8); (7312, 7354, 1, -3008); (7357, 7359, 1, -3008);
   (7680, 7828, 2, 1); (7838, 7838, 1, -7615); (7840, 7934, 2, 1);
   (7944, 7951, 1, -8); (7960, 7965, 1, -8); (7976, 7983, 1, -8);
   (7992, 7999, 1, -8); (8008, 8013, 1, -8); (8025, 8031, 2, -8);
   (8040, 8047, 1, -8); (8072, 8079, 1, -8); (8088, 8095, 1, -8);
   (8104, 8111, 1, -8); (8120, 8121, 1, -8); (8122, 8123, 1, -74);
   (8124, 8124, 1, -9); (8136, 8139, 1, -86); (8140, 8140, 1, -9);
   (8152, 8153, 1, -8); (8154, 8155, 1, -100); (8168, 8169, 1, -8);
   (8170, 8171, 1, -112); (8172, 8172, 1, -7); (8184, 8185, 1, -128);
   (8186, 8187, 1, -126); (8188, 8188, 1, -9); (8486, 8486, 1, -7517);
   (8490, 8490, 1, -8383); (8491, 8491, 1, -8262); (8498, 8498, 1, 28);
   (8544, 8559, 1, 16); (8579, 8579, 1, 1); (9398, 9423, 1, 26);
   (11264, 11311, 1, 48); (11360, 11360, 1, 1); (11362, 11362, 1, -10743);
   (11363, 11363, 1, -3814); (11364, 11364, 1, -10727); (11367, 11371, 2, 1);
   (11373, 11373, 1, -10780); (11374, 11374, 1, -10749);
   (11375, 11375, 1, -10783); (11376, 11376, 1, -10782);
   (11378, 11378, 1, 1); (11381, 11381, 1, 1); (11390, 11391, 1, -10815);
   (11392, 11490, 2, 1); (11499, 11501, 2, 1); (11506, 11506, 1, 1);
   (42560, 42604, 2, 1); (42624, 42650, 2, 1); (42786, 42798, 2, 1);
   (42802, 42862, 2, 1); (42873, 42875, 2, 1); (42877, 42877, 1, -35332);
   (42878, 42886, 2, 1); (42891, 42891, 1, 1); (42893, 42893, 1, -42280);
   (42896, 42898, 2, 1); (42902, 42920, 2, 1); (42922, 42922, 1, -42308);
   (42923, 42923, 1, -42319); (42924, 42924, 1, -42315);
   (42925, 42925, 1, -42305); (42926, 42926, 1, -42308);
   (42928, 42928, 1, -42258); (42929, 42929, 1, -42282);
   (42930, 42930, 1, -42261); (42931, 42931, 1, 928); (42932, 42946, 2, 1);
   (42948, 42948, 1, -48); (42949, 42949, 1, -42307);
   (42950, 42950, 1, -35384); (42951, 42953, 2, 1); (42960, 42960, 1, 1);
   (42966, 42968, 2, 1); (42997, 42997, 1, 1); (65313, 65338, 1, 32);
   (66560, 66599, 1, 40); (66736, 66771, 1, 40); (66928, 66938, 1, 39);
   (66940, 66954, 1, 39); (66956, 66962, 1, 39); (66964, 66965, 1, 39);
   (68736, 68786, 1, 64); (71840, 71871, 1, 32); (93760, 93791, 1, 32);
   (125184, 125217, 1, 34)].

Fixpoint to (ranges : list (Z * Z * Z * Z)) (r : Z) : Z :=
  match ranges with
  | [] => r
  | (lo, hi, stride, delta) :: rest =>
      if (lo <=? r) && (r <=? hi) && ((r - lo) mod stride =? 0)
      then r + delta
      else to rest r
  end.

(** [unicode.ToLower]. *)
Definition ToLower (r : Z) : Z :=
  if r <=? 127 then
    if (65 <=? r) && (r <=? 90) then r + 32 else r
  else to caseRanges r.

(** [unicode.IsSpace]: the white space of Latin-1, and above it the
    table [White_Space]. *)
Definition IsSpace (r : Z) : bool :=
  if (0 <=? r) && (r <=? 255) then
    (9 <=? r) && (r <=? 13) || (r =? 32) || (r =? 133) || (r =? 160)
  else
    (r =? 5760) || (8192 <=? r) && (r <=? 8202) || (r =? 8232)
    || (r =? 8233) || (r =? 8239) || (r =? 8287) || (r =? 12288).

End Unicode.

(* ===================================================================== *)
(** ** Go's [strings] package *)
(* ===================================================================== *)

Module Strings.

(** [s[n:]] and [s[:n]] on byte strings. *)
Fixpoint sliceFrom (n : nat) (s : string) : string :=
  match n, s with
  | O, _ => s
  | S n', String _ s' => sliceFrom n' s'
  | S _, EmptyString => EmptyString
  end.

Fixpoint sliceTo (n : nat) (s : string) : string :=
  match n, s with
  | O, _ => EmptyString
  | S n', String c s' => String c (sliceTo n' s')
  | S _, EmptyString => EmptyString
  end.

Fixpoint HasPrefix (s prefix : string) {struct prefix} : bool :=
  match prefix, s with
  | EmptyString, _ => true
  | String c p', String d s' => Ascii.eqb c d && HasPrefix s' p'
  | String _ _, EmptyString => false
  end.

Definition HasSuffix (s suffix : string) : bool :=
  (String.length suffix <=? String.length s)%nat
  && String.eqb (sliceFrom (String.length s - String.length suffix) s) suffix.

Fixpoint Contains (s substr : string) : bool :=
  HasPrefix s substr
  || match s with
     | EmptyString => false
     | String _ s' => Contains s' substr
     end.

(** [strings.Index]; [None] stands for Go's [-1]. *)
Fixpoint Index (s substr : string) : option nat :=
  if HasPrefix s substr then Some O
  else match s with
       | EmptyString => None
       | String _ s' => option_map S (Index s' substr)
       end.

Definition TrimPrefix (s prefix : string) : string :=
  if HasPrefix s prefix then sliceFrom (String.length prefix) s else s.

Definition TrimSuffix (s suffix : string) : string :=
  if HasSuffix s suffix
  then sliceTo (String.length s - String.length suffix) s else s.

(** [strings.ToLower].  A string of ASCII bytes has its capitals moved
    byte by byte; any other string goes through [Map] with
    [unicode.ToLower]. *)
Definition lowerByte (c : ascii) : ascii :=
  let n := N_of_ascii c in
  if (65 <=? n)%N && (n <=? 90)%N then ascii_of_N (n + 32) else c.

Fixpoint lowerBytes (s : string) : string :=
  match s with
  | EmptyString => EmptyString
  | String c s' => String (lowerByte c) (lowerBytes s')
  end.

Fixpoint isASCII (s : string) : bool :=
  match s with
  | EmptyString => true
  | String c s' => (Utf8.byte c <? Utf8.RuneSelf)%Z && isASCII s'
  end.

(** [Builder.WriteRune] in [Map]: a negative rune is dropped. *)
Definition writeRune (r : Z) : string :=
  if (r <? 0)%Z then EmptyString else Utf8.EncodeRune r.

(** [utf8.RuneLen] (a rune that cannot be encoded has no length). *)
Definition RuneLen (r : Z) : nat :=
  if (r <? 0)%Z then 0
  else if (r <=? 127)%Z then 1
  else if (r <=? 2047)%Z then 2
  else if (55296 <=? r)%Z && (r <=? 57343)%Z then 0
  else if (r <=? 65535)%Z then 3
  else if (r <=? Utf8.MaxRune)%Z then 4
  else 0.

(** The second loop of [strings.Map]: every rune of [s], as a [range]
    loop reads it, is mapped and written.  A byte that starts no valid
    sequence is read as [RuneError], one byte wide.  [skip] counts the
    bytes still to pass of the rune read last. *)
Fixpoint mapRest (mapping : Z -> Z) (skip : nat) (s : string) : string :=
  match s with
  | EmptyString => EmptyString
  | String _ s' =>
      match skip with
      | S k => mapRest mapping k s'
      | O =>
          let (c, size) := Utf8.DecodeRuneInString s in
          String.append (writeRune (mapping c))
            (mapRest mapping (size - 1) s')
      end
  end.

(** The first loop of [strings.Map]: the bytes are kept up to the first
    rune that the mapping changes, or the first byte that is no valid
    sequence; from there on the mapped runes are written. *)
Fixpoint mapRunes (mapping : Z -> Z) (skip : nat) (s : string) : string :=
  match s with
  | EmptyString => EmptyString
  | String b s' =>
      match skip with
      | S k => String b (mapRunes mapping k s')
      | O =>
          let (c, size) := Utf8.DecodeRuneInString s in
          let r := mapping c in
          if (r =? c)%Z && negb (c =? Utf8.RuneError)%Z
          then String b (mapRunes mapping (size - 1) s')
          else if (c =? Utf8.RuneError)%Z && negb (size =? 1)%nat
                  && (r =? c)%Z
          then String b (mapRunes mapping (size - 1) s')
          else
            let width :=
              if (c =? Utf8.RuneError)%Z then size else RuneLen c in
            String.append (writeRune r) (mapRest mapping (width - 1) s')
      end
  end.

Definition Map (mapping : Z -> Z) (s : string) : string :=
  mapRunes mapping 0 s.

Definition ToLower (s : string) : string :=
  if isASCII s then lowerBytes s else Map Unicode.ToLower s.

(** The loop of [genSplit]: at most [k] further cuts at [sep], the rest
    of the string is the last piece. *)
Fixpoint genSplit (k : nat) (s sep : string) : list string :=
  match k with
  | O => [s]
  | S k' =>
      match Index s sep with
      | None => [s]
      | Some m =>
          sliceTo m s :: genSplit k' (sliceFrom (m + String.length sep) s) sep
      end
  end.

(** [strings.SplitN(s, sep, n)] for a non-empty [sep] (the program only
    splits at ["/"]): [n = 0] gives no piece, [n < 0] all of them, and
    [n > 0] at most [n], the last one being the unsplit remainder. *)
Definition SplitN (s sep : string) (n : Z) : list string :=
  if (n =? 0)%Z then []
  else if (n <? 0)%Z then genSplit (String.length s) s sep
  else genSplit (Z.to_nat n - 1) s sep.

(** [strings.TrimSpace].  The table [asciiSpace]: *)
Definition asciiSpace (c : Z) : bool :=
  (c =? 32)%Z || (9 <=? c)%Z && (c <=? 13)%Z.

(** [indexFunc]: the index of the first rune [r] with [f r = truth];
    [None] stands for [-1].  [i] is the index of the head of [s] and
    [skip] the bytes still to pass of the rune read last. *)
Fixpoint indexLoop (f : Z -> bool) (truth : bool) (skip i : nat)
    (s : string) : option nat :=
  match s with
  | EmptyString => None
  | String _ s' =>
      match skip with
      | S k => indexLoop f truth k (S i) s'
      | O =>
          let (r, size) := Utf8.DecodeRuneInString s in
          if Bool.eqb (f r) truth then Some i
          else indexLoop f truth (size - 1) (S i) s'
      end
  end.

Definition indexFunc (s : string) (f : Z -> bool) (truth : bool)
  : option nat := indexLoop f truth 0 0 s.

(** [lastIndexFunc]: the loop goes down from [i = len(s)], by the width
    of the last rune of [s[0:i]] at each turn. *)
Fixpoint lastIndexLoop (f : Z -> bool) (truth : bool) (s : string)
    (skip i : nat) : option nat :=
  match i with
  | O => None
  | S j =>
      match skip with
      | S k => lastIndexLoop f truth s k j
      | O =>
          let (r, size) := Utf8.DecodeLastRuneInString (sliceTo i s) in
          if Bool.eqb (f r) truth then Some (i - size)
          else lastIndexLoop f truth s (size - 1) j
      end
  end.

Definition lastIndexFunc (s : string) (f : Z -> bool) (truth : bool)
  : option nat := lastIndexLoop f truth s 0 (String.length s).

Definition TrimLeftFunc (s : string) (f : Z -> bool) : string :=
  match indexFunc s f false with
  | None => EmptyString
  | Some i => sliceFrom i s
  end.

Definition TrimRightFunc (s : string) (f : Z -> bool) : string :=
  match lastIndexFunc s f false with
  | Some i =>
      if (Utf8.RuneSelf <=? Utf8.byteAt s i)%Z
      then sliceTo (i + snd (Utf8.DecodeRuneInString (sliceFrom i s))) s
      else sliceTo (i + 1) s
  | None => EmptyString
  end.

Definition TrimFunc (s : string) (f : Z -> bool) : string :=
  TrimRightFunc (TrimLeftFunc s f) f.

(** The loop of [TrimSpace] from the end of [s], which is the string
    from the first byte that is no ASCII white space onwards: [stop]
    goes down over ASCII white space; a byte that is not ASCII hands
    over to [TrimRightFunc]. *)
Fixpoint trimStop (s : string) (stop : nat) : string :=
  match stop with
  | O => EmptyString
  | S j =>
      let c := Utf8.byteAt s j in
      if (Utf8.RuneSelf <=? c)%Z
      then TrimRightFunc (sliceTo stop s) Unicode.IsSpace
      else if asciiSpace c then trimStop s j
      else sliceTo stop s
  end.

(** The loop from the start, where a byte that is not ASCII hands over
    to [TrimFunc]. *)
Fixpoint TrimSpace (s : string) : string :=
  match s with
  | EmptyString => EmptyString
  | String c s' =>
      if (Utf8.RuneSelf <=? Utf8.byte c)%Z
      then TrimFunc s Unicode.IsSpace
      else if asciiSpace (Utf8.byte c) then TrimSpace s'
      else trimStop s (String.length s)
  end.

(** [strings.Join]. *)
Fixpoint Join (elems : list string) (sep : string) : string :=
  match elems with
  | [] => EmptyString
  | [e] => e
  | e :: rest => String.append e (String.append sep (Join rest sep))
  end.

End Strings.

(* ===================================================================== *)
(** ** Go's [path/filepath] package (Unix) *)
(* ===================================================================== *)

Module Filepath.
Import Strings.

Definition IsPathSeparator (c : ascii) : bool := Ascii.eqb c "/".

(** The elements between the separators of a path, empty ones included. *)
Fixpoint elements (s : string) : list string :=
  match s with
  | EmptyString => [EmptyString]
  | String c s' =>
      if IsPathSeparator c then EmptyString :: elements s'
      else match elements s' with
           | [] => [String c EmptyString]
           | e :: es => String c e :: es
           end
  end.

(** One round of the loop of [Clean], on the elements written so far
    (the last one first).  An empty element and ["."] are dropped; [".."]
    removes the last real element, is dropped at the root, and is kept at
    the front of a relative path; any other element is appended. *)
Definition cleanStep (rooted : bool) (out : list string) (e : string)
  : list string :=
  if String.eqb e "" || String.eqb e "." then out
  else if String.eqb e ".." then
    match out with
    | top :: rest => if String.eqb top ".." then e :: out else rest
    | [] => if rooted then [] else [e]
    end
  else e :: out.

(** [filepath.Clean]: the shortest path equivalent to [path] by purely
    lexical processing. *)
Definition Clean (path : string) : string :=
  match path with
  | EmptyString => "."
  | String c _ =>
      let rooted := IsPathSeparator c in
      let out := fold_left (cleanStep rooted) (elements path) [] in
      let body := Join (rev out) "/" in
      if rooted then String "/" body
      else if String.eqb body "" then "." else body
  end.

(** [filepath.Join]: leading empty elements are ignored, the rest is
    joined with the separator and cleaned; no element gives [""]. *)
Fixpoint Join (elem : list string) : string :=
  match elem with
  | [] => EmptyString
  | e :: rest =>
      if String.eqb e "" then Join rest
      else Clean (Strings.Join elem "/")
  end.

(** The path without its trailing separators. *)
Fixpoint stripTrailingSeparators (s : string) : string :=
  match s with
  | EmptyString => EmptyString
  | String c s' =>
      let r := stripTrailingSeparators s' in
      if IsPathSeparator c && String.eqb r "" then EmptyString
      else String c r
  end.

(** [filepath.Base]: the last element of the path. *)
Definition Base (path : string) : string :=
  match path with
  | EmptyString => "."
  | _ =>
      match stripTrailingSeparators path with
      | EmptyString => "/"
      | p => List.last (elements p) EmptyString
      end
  end.

(** The suffix of an element that starts at its last dot. *)
Fixpoint fromLastDot (s : string) : string :=
  match s with
  | EmptyString => EmptyString
  | String c s' =>
      match fromLastDot s' with
      | EmptyString => if Ascii.eqb c "." then s else EmptyString
      | r => r
      end
  end.

(** [filepath.Ext]: the suffix beginning at the final dot of the final
    element of the path, empty if there is no dot. *)
Definition Ext (path : string) : string :=
  fromLastDot (List.last (elements path) EmptyString).

(** The path up to and including its last separator. *)
Fixpoint uptoLastSeparator (s : string) : string :=
  match s with
  | EmptyString => EmptyString
  | String c s' =>
      match uptoLastSeparator s' with
      | EmptyString =>
          if IsPathSeparator c then String c EmptyString else EmptyString
      | r => String c r
      end
  end.

(** [filepath.Dir]: all but the last element of the path, cleaned. *)
Definition Dir (path : string) : string := Clean (uptoLastSeparator path).

Definition IsAbs (path : string) : bool := HasPrefix path "/".

(** [filepath.Abs], given the result of [os.Getwd] ([None] when it
    fails). *)
Definition Abs (wd : option string) (path : string) : option string :=
  if IsAbs path then Some (Clean path)
  else match wd with
       | Some d => Some (Join [d; path])
       | None => None
       end.

End Filepath.

(* ===================================================================== *)
(** ** The machine the program runs on *)
(* ===================================================================== *)

(** Go's [int64] and [int] (64 bits): the value of a sum is taken back
    into the signed range. *)
Definition wrap64 (z : Z) : Z := ((z + 2 ^ 63) mod 2 ^ 64 - 2 ^ 63)%Z.
Definition add64 (a b : Z) : Z := wrap64 (a + b).

(** [archive/zip]: an archive is the sequence of its entries, in the
    order they were written; an entry has a name, the mode bits of its
    header, its (uncompressed) content and what reading it comes to. *)
Module Zip.

(** What reading an entry gives: its content in full; an error of
    [File.Open] (a method of compression that is not supported, a local
    header that cannot be read); or an error of the reader that [Open]
    gave, after it delivered [Data] (a stream that is cut or damaged, or
    at its end a checksum that does not match). *)
Inductive reading :=
| Full
| OpenError
| ReadError.

Record File := {
  Name : string;
  Mode : Z;
  Data : list Byte.byte;       (* the bytes its reader delivers *)
  Read : reading;
}.

End Zip.

Module Os.
Import Strings Filepath.

(** A node of the file tree: a directory, or a regular file with its
    permission bits and content. *)
Inductive node :=
| Directory
| Regular (mode : Z) (data : list Byte.byte).

(** What the program observes of its machine.  The file tree is keyed by
    absolute clean paths (no symbolic links, no permission failures).
    The two git queries of the scanner and the archive reader are
    external collaborators and are given by their results. *)
Record World := {
  wd : option string;                       (* os.Getwd                    *)
  tree : gmap string node;                  (* the file tree               *)
  home : option string;                     (* os.UserHomeDir              *)
  hostname : string;                        (* os.Hostname                 *)
  clock : Z;                                (* time.Now                    *)
  gitRevParse : string -> bool;             (* git rev-parse --git-dir     *)
  gitStatus : string -> option (list string); (* lines of git status
                                                 --ignored --porcelain     *)
  stdin : string;                           (* the next line of os.Stdin   *)
  zipOpen : string -> option (list Zip.File); (* zip.OpenReader            *)
}.

Definition withTree (w : World) (t : gmap string node) : World :=
  {| wd := wd w; tree := t; home := home w; hostname := hostname w;
     clock := clock w; gitRevParse := gitRevParse w;
     gitStatus := gitStatus w; stdin := stdin w; zipOpen := zipOpen w |}.

(** The key of a path in the file tree; the empty path names nothing. *)
Definition resolve (w : World) (path : string) : option string :=
  if String.eqb path "" then None else Abs (wd w) path.

Record FileInfo := {
  IsDir : bool;
  Size : Z;
  Perm : Z;
}.

Definition infoOf (n : node) : FileInfo :=
  match n with
  | Directory => {| IsDir := true; Size := 0; Perm := 493 |}
  | Regular m d =>
      {| IsDir := false; Size := Z.of_nat (List.length d); Perm := m |}
  end.

(** [os.Stat]; [None] is an error. *)
Definition Stat (w : World) (path : string) : option FileInfo :=
  match resolve w path with
  | Some p => option_map infoOf (tree w !! p)
  | None => None
  end.

(** [os.ReadFile]. *)
Definition ReadFile (w : World) (path : string) : option (list Byte.byte) :=
  match resolve w path with
  | Some p =>
      match tree w !! p with
      | Some (Regular _ d) => Some d
      | _ => None
      end
  | None => None
  end.

(** The directories on the way from the root to an absolute clean path,
    the path itself included. *)
Fixpoint pathsFrom (cur : string) (es : list string) : list string :=
  match es with
  | [] => []
  | e :: es' =>
      let p := if String.eqb cur "/" then String.append cur e
               else String.append cur (String "/" e) in
      p :: pathsFrom p es'
  end.

Definition chain (p : string) : list string :=
  "/" :: pathsFrom "/"
           (List.filter (fun e => negb (String.eqb e "")) (elements p)).

(** Make each directory of a chain: an existing directory is kept, a
    regular file in the way is an error. *)
Fixpoint mkdirs (ds : list string) (t : gmap string node)
  : option (gmap string node) :=
  match ds with
  | [] => Some t
  | d :: ds' =>
      match t !! d with
      | Some Directory => mkdirs ds' t
      | Some (Regular _ _) => None
      | None => mkdirs ds' (<[d := Directory]> t)
      end
  end.

(** [os.MkdirAll]. *)
Definition MkdirAll (w : World) (path : string) : option World :=
  match resolve w path with
  | Some p => option_map (withTree w) (mkdirs (chain p) (tree w))
  | None => None
  end.

(** Creating or truncating a regular file and writing [d] to it: the
    parent must be a directory and the path itself must not be one.
    [m] is the mode of a file that is created; with [chmod] an existing
    file takes it too. *)
Definition writeRegular (chmod : bool) (w : World) (path : string)
    (m : Z) (d : list Byte.byte) : option World :=
  match resolve w path with
  | Some p =>
      match tree w !! Dir p with
      | Some Directory =>
          match tree w !! p with
          | Some Directory => None
          | Some (Regular m0 _) =>
              Some (withTree w
                      (<[p := Regular (if chmod then m else m0) d]> (tree w)))
          | None => Some (withTree w (<[p := Regular m d]> (tree w)))
          end
      | _ => None
      end
  | None => None
  end.

(** [os.WriteFile]. *)
Definition WriteFile (w : World) (path : string) (d : list Byte.byte)
    (perm : Z) : option World :=
  writeRegular false w path perm d.

End Os.

(* ===================================================================== *)
(** ** Package [scanner] *)
(* ===================================================================== *)

Module scanner.
Import Strings Filepath.

Record IgnoredFile := {
  Path : string;
  Size : Z;
  IsSecret : bool;
  Category : string;
}.

Record ScanResult := {
  RootPath : string;
  IgnoredFiles : list IgnoredFile;
  TotalSize : Z;
  SecretCount : Z;
}.

Record Scanner := {
  ShowAll : bool;
  Categories : list string;
  ExcludeDeps : bool;
}.

Definition NewScanner : Scanner :=
  {| ShowAll := false; Categories := []; ExcludeDeps := true |}.

Definition keyPatterns : list string :=
  ["key"; "secret"; "credential"; "token"; "password";
   "private"; "pem"; "p12"; "pfx"; "keystore"].

Definition buildDirs : list string :=
  ["node_modules"; "dist"; "build"; ".next"; "__pycache__"; "target";
   "bin"; "obj"].

Definition ideDirs : list string := [".idea"; ".vscode"; ".vs"].

Definition categorizeFile (path : string) : string :=
  let name := ToLower (Base path) in
  let ext := ToLower (Ext path) in
  if HasPrefix name ".env" || HasPrefix name "env." then "env"
  else if existsb (fun pattern => Contains name pattern) keyPatterns
  then "key"
  else if String.eqb ext ".pem" || String.eqb ext ".key"
          || String.eqb ext ".p12" || String.eqb ext ".pfx"
  then "key"
  else if (String.eqb ext ".json" || String.eqb ext ".yaml"
           || String.eqb ext ".yml" || String.eqb ext ".toml"
           || String.eqb ext ".ini")
          && (Contains name "config" || Contains name "setting")
  then "config"
  else if existsb
            (fun dir =>
               Contains path (String.append dir "/")
               || HasPrefix path (String.append dir "/")
               || String.eqb path dir) buildDirs
  then "build"
  else if Contains path "cache"
          || HasPrefix name "." && Contains name "cache"
  then "cache"
  else if existsb
            (fun dir =>
               HasPrefix path (String.append dir "/") || String.eqb path dir)
            ideDirs
  then "ide"
  else "other".

Definition secretPatterns : list string :=
  ["secret"; "credential"; "password"; "token";
   "auth"; "api_key"; "apikey"; ".npmrc"; ".netrc";
   "id_rsa"; "id_dsa"; "id_ecdsa"; "id_ed25519"].

Definition isSecretFile (path category : string) : bool :=
  if String.eqb category "env" || String.eqb category "key" then true
  else
    let name := ToLower (Base path) in
    existsb (fun pattern => Contains name pattern) secretPatterns.

Definition depsDirs : list string :=
  ["node_modules/"; "vendor/"; ".venv/"; "venv/"; "__pycache__/";
   ".gradle/"; "target/"; "Pods/"].

Definition isInDepsDir (path : string) : bool :=
  existsb
    (fun dir =>
       HasPrefix path dir || Contains path (String.append "/" dir))
    depsDirs.

Definition isGitRepo (w : Os.World) (path : string) : bool :=
  Os.gitRevParse w path.

(** The loop of [getGitIgnoredFiles] over the lines of git's output. *)
Definition ignoredLine (ignored : list string) (line : string)
  : list string :=
  if HasPrefix line "!! "
  then ignored ++ [TrimSuffix (TrimPrefix line "!! ") "/"]
  else ignored.

Definition getGitIgnoredFiles (w : Os.World) (repoPath : string)
  : option (list string) :=
  match Os.gitStatus w repoPath with
  | Some lines => Some (fold_left ignoredLine lines [])
  | None => None
  end.

(** The body of the loop of [Scan]. *)
Definition scanPath (s : Scanner) (w : Os.World) (absPath : string)
    (result : ScanResult) (path : string) : ScanResult :=
  if ExcludeDeps s && isInDepsDir path then result
  else
    let fullPath := Filepath.Join [absPath; path] in
    match Os.Stat w fullPath with
    | None => result
    | Some info =>
        if Os.IsDir info then result
        else
          let category := categorizeFile path in
          let file := {| Path := path; Size := Os.Size info;
                         IsSecret := isSecretFile path category;
                         Category := category |} in
          if ShowAll s || IsSecret file then
            {| RootPath := RootPath result;
               IgnoredFiles := IgnoredFiles result ++ [file];
               TotalSize := add64 (TotalSize result) (Size file);
               SecretCount :=
                 if IsSecret file then add64 (SecretCount result) 1
                 else SecretCount result |}
          else result
    end.

(** [Scan]; [None] is the error return. *)
Definition Scan (s : Scanner) (w : Os.World) (rootPath : string)
  : option ScanResult :=
  match Abs (Os.wd w) rootPath with
  | None => None
  | Some absPath =>
      let result := {| RootPath := absPath; IgnoredFiles := [];
                       TotalSize := 0; SecretCount := 0 |} in
      if negb (isGitRepo w absPath) then Some result
      else
        match getGitIgnoredFiles w absPath with
        | None => None
        | Some ignoredPaths =>
            Some (fold_left (scanPath s w absPath) ignoredPaths result)
        end
  end.

End scanner.

(* ===================================================================== *)
(** ** Package [config] *)
(* ===================================================================== *)

Module config.

Definition DefaultConfigDir (w : Os.World) : option string :=
  match Os.home w with
  | Some h => Some (Filepath.Join [h; ".config"; "igloc"])
  | None => None
  end.

Definition PatternsFilePath (w : Os.World) : option string :=
  match DefaultConfigDir w with
  | Some dir => Some (Filepath.Join [dir; "patterns.yaml"])
  | None => None
  end.

End config.

(* ===================================================================== *)
(** ** Package [cli]: the export and import commands *)
(* ===================================================================== *)

Module cli.
Import Strings Filepath.

Record RepoExport := {
  Name : string;
  Path : string;
  Files : list string;
}.

Record Manifest := {
  Version : Z;
  CreatedAt : Z;
  Machine : string;
  Repos : list RepoExport;
}.

(** The flags of the two commands (package-level variables in the
    source). *)
Record ExportFlags := {
  exportRecursive : bool;
  exportIncludeDeps : bool;
  exportPath : string;
}.

Record ImportFlags := {
  importYes : bool;
  importDryRun : bool;
  importBaseDir : string;
}.

(** What [importFiles] prints for an archive entry it handled: the
    destination of an extracted file, or the relative path of a failed
    one. *)
Inductive outcome :=
| Extracted (destPath : string)
| Failed (filePath : string).

Definition isExtracted (o : outcome) : bool :=
  match o with Extracted _ => true | Failed _ => false end.

Definition isFailed (o : outcome) : bool := negb (isExtracted o).

(** *** Export *)

Definition collectSingleRepo (s : scanner.Scanner) (w : Os.World)
    (path : string) : option (list RepoExport) :=
  match scanner.Scan s w path with
  | None => None
  | Some result =>
      if (List.length (scanner.IgnoredFiles result) =? 0)%nat then Some []
      else
        let files :=
          fold_left
            (fun files f =>
               if scanner.IsSecret f then files ++ [scanner.Path f]
               else files)
            (scanner.IgnoredFiles result) [] in
        if (List.length files =? 0)%nat then Some []
        else Some [ {| Name := Base path; Path := path; Files := files |} ]
  end.

Fixpoint insertSorted (k : string) (l : list string) : list string :=
  match l with
  | [] => [k]
  | x :: l' => if String.leb k x then k :: l else x :: insertSorted k l'
  end.

(** The entries of a directory, in the order [filepath.Walk] visits
    them. *)
Definition children (t : gmap string Os.node) (p : string) : list string :=
  fold_right insertSorted []
    (List.filter (fun k => String.eqb (Dir k) p && negb (String.eqb k p))
       (List.map fst (map_to_list t))).

Definition skipDirs : list string :=
  ["node_modules"; "vendor"; ".cache"; "__pycache__"].

(** [filepath.Walk] with the callback of [collectReposRecursive]: a
    [.git] directory adds the exports of its parent and is not entered,
    a directory of [skipDirs] is not entered, any other directory is
    walked; files and unreadable entries are passed over.  [fuel] bounds
    the depth. *)
Fixpoint walkRepos (fuel : nat) (s : scanner.Scanner) (w : Os.World)
    (path : string) (repos : list RepoExport) : list RepoExport :=
  match Os.tree w !! path with
  | Some Os.Directory =>
      if String.eqb (Base path) ".git" then
        match collectSingleRepo s w (Dir path) with
        | Some (r :: rs) => repos ++ r :: rs
        | _ => repos
        end
      else if existsb (String.eqb (Base path)) skipDirs then repos
      else
        match fuel with
        | O => repos
        | S fuel' =>
            fold_left (fun acc k => walkRepos fuel' s w k acc)
              (children (Os.tree w) path) repos
        end
  | _ => repos
  end.

Definition collectReposRecursive (s : scanner.Scanner) (w : Os.World)
    (rootPath : string) : option (list RepoExport) :=
  Some (walkRepos (size (Os.tree w)) s w rootPath []).

(** The mode of the header [zip.FileInfoHeader] makes for a directory
    ([ModeDir] with [0755]), and of an entry made by [Writer.Create]
    ([0666]). *)
Definition modeDir : Z := 2 ^ 31 + 493.
Definition modeCreate : Z := 438.

(** [addFileToZip]: the entries after the call, and whether it returned
    without error.  A source that cannot be opened adds nothing; reading a
    directory fails after its header was written. *)
Definition addFileToZip (w : Os.World) (zipWriter : list Zip.File)
    (sourcePath zipPath : string) : list Zip.File * bool :=
  match Os.resolve w sourcePath with
  | None => (zipWriter, false)
  | Some p =>
      match Os.tree w !! p with
      | None => (zipWriter, false)
      | Some (Os.Regular m d) =>
          (zipWriter ++ [ {| Zip.Name := zipPath; Zip.Mode := m;
                             Zip.Data := d; Zip.Read := Zip.Full |} ], true)
      | Some Os.Directory =>
          (zipWriter ++ [ {| Zip.Name := zipPath; Zip.Mode := modeDir;
                             Zip.Data := [];
                             Zip.Read := Zip.Full |} ], false)
      end
  end.

(** The bits [File.Chmod] takes from a mode: the permissions and the
    setuid, setgid and sticky bits. *)
Definition chmodBits (m : Z) : Z :=
  Z.land m (511 + 2 ^ 23 + 2 ^ 22 + 2 ^ 20).

Section Yaml.

(** [yaml.Marshal] and [yaml.Unmarshal] on a [Manifest]; [None] is an
    error. *)
Variable yamlMarshal : Manifest -> option (list Byte.byte).
Variable yamlUnmarshal : list Byte.byte -> option Manifest.

(** The two nested loops that write the files of the repositories. *)
Definition exportFiles (w : Os.World) (zipWriter : list Zip.File)
    (repos : list RepoExport) : list Zip.File :=
  fold_left
    (fun zw repo =>
       fold_left
         (fun zw' filePath =>
            let fullPath := Filepath.Join [Path repo; filePath] in
            let zipPath := Filepath.Join ["files"; Name repo; filePath] in
            fst (addFileToZip w zw' fullPath zipPath))
         (Files repo) zw)
    repos zipWriter.

(** [createExportZip]: the machine after the output file was created and
    the entries written to it; [None] is the error return. *)
Definition createExportZip (w : Os.World) (outputPath : string)
    (repos : list RepoExport) : option (Os.World * list Zip.File) :=
  match Os.writeRegular false w outputPath modeCreate [] with
  | None => None
  | Some w1 =>
      let manifest := {| Version := 1; CreatedAt := Os.clock w1;
                         Machine := Os.hostname w1; Repos := repos |} in
      match yamlMarshal manifest with
      | None => None
      | Some manifestData =>
          let zw0 := [ {| Zip.Name := "manifest.yaml";
                          Zip.Mode := modeCreate;
                          Zip.Data := manifestData;
                          Zip.Read := Zip.Full |} ] in
          let zw1 :=
            match config.PatternsFilePath w1 with
            | Some patternsPath =>
                match Os.ReadFile w1 patternsPath with
                | Some patternsData =>
                    zw0 ++ [ {| Zip.Name := "patterns.yaml";
                                Zip.Mode := modeCreate;
                                Zip.Data := patternsData;
                                Zip.Read := Zip.Full |} ]
                | None => zw0
                end
            | None => zw0
            end in
          Some (w1, exportFiles w1 zw1 repos)
      end
  end.

(** [runExport]: [None] is an error; otherwise the machine afterwards
    and the archive written, if any. *)
Definition runExport (flags : ExportFlags) (outputPath : string)
    (w : Os.World) : option (Os.World * option (list Zip.File)) :=
  match Abs (Os.wd w) (exportPath flags) with
  | None => None
  | Some absPath =>
      let s := {| scanner.ShowAll := scanner.ShowAll scanner.NewScanner;
                  scanner.Categories :=
                    scanner.Categories scanner.NewScanner;
                  scanner.ExcludeDeps := negb (exportIncludeDeps flags) |} in
      match (if exportRecursive flags
             then collectReposRecursive s w absPath
             else collectSingleRepo s w absPath) with
      | None => None
      | Some repos =>
          if (List.length repos =? 0)%nat then Some (w, None)
          else
            match createExportZip w outputPath repos with
            | None => None
            | Some (w1, zw) => Some (w1, Some zw)
            end
      end
  end.

(** *** Import *)

(** [readManifest]: the first entry named [manifest.yaml] decides; it
    has to open, to be read to its end and to parse. *)
Fixpoint readManifest (reader : list Zip.File) : option Manifest :=
  match reader with
  | [] => None
  | file :: rest =>
      if String.eqb (Zip.Name file) "manifest.yaml"
      then
        match Zip.Read file with
        | Zip.Full => yamlUnmarshal (Zip.Data file)
        | _ => None
        end
      else readManifest rest
  end.

Definition fileExists (w : Os.World) (path : string) : bool :=
  match Os.Stat w path with Some _ => true | None => false end.

Definition dirExists (w : Os.World) (path : string) : bool :=
  match Os.Stat w path with Some info => Os.IsDir info | None => false end.

Definition resolveDestPath (flags : ImportFlags) (w : Os.World)
    (repo : RepoExport) (filePath : string) : string :=
  if negb (String.eqb (importBaseDir flags) "")
  then Filepath.Join [importBaseDir flags; Name repo; filePath]
  else if dirExists w (Path repo)
  then Filepath.Join [Path repo; filePath]
  else Filepath.Join ["."; Name repo; filePath].

(** [extractFile]: the machine afterwards, and whether it returned
    without error.  An entry that does not open leaves the machine as it
    was, and so does a destination that cannot be created.  Otherwise the
    destination is created or truncated, takes the mode of the entry and
    receives what [io.Copy] reads of it; an error of the reader is
    returned after that, and the file stays. *)
Definition extractFile (w : Os.World) (zipFile : Zip.File)
    (destPath : string) : Os.World * bool :=
  match Zip.Read zipFile with
  | Zip.OpenError => (w, false)
  | copy =>
      match Os.writeRegular true w destPath (chmodBits (Zip.Mode zipFile))
              (Zip.Data zipFile) with
      | None => (w, false)
      | Some w' =>
          (w', match copy with Zip.Full => true | _ => false end)
      end
  end.

Definition repoMapOf (manifest : Manifest) : gmap string RepoExport :=
  fold_left (fun m repo => <[Name repo := repo]> m) (Repos manifest) ∅.

(** The body of the loop of [importFiles], on the machine and what was
    printed so far. *)
Definition importFile (flags : ImportFlags)
    (repoMap : gmap string RepoExport)
    (st : Os.World * list outcome) (file : Zip.File)
  : Os.World * list outcome :=
  let (w, out) := st in
  if negb (HasPrefix (Zip.Name file) "files/") then st
  else
    let relPath := TrimPrefix (Zip.Name file) "files/" in
    match SplitN relPath "/" 2 with
    | repoName :: filePath :: _ =>
        match repoMap !! repoName with
        | None => st
        | Some repo =>
            let destPath := resolveDestPath flags w repo filePath in
            match Os.MkdirAll w (Dir destPath) with
            | None => (w, out ++ [Failed filePath])
            | Some w1 =>
                let (w2, ok) := extractFile w1 file destPath in
                if ok then (w2, out ++ [Extracted destPath])
                else (w2, out ++ [Failed filePath])
            end
        end
    | _ => st
    end.

(** [importFiles]; it has no error return other than [nil]. *)
Definition importFiles (flags : ImportFlags) (w : Os.World)
    (zipReader : list Zip.File) (manifest : Manifest)
  : Os.World * list outcome :=
  fold_left (importFile flags (repoMapOf manifest)) zipReader (w, []).

(** [importPatterns]: the machine afterwards and whether it returned
    without error.  The first entry named [patterns.yaml] decides; it is
    opened and read to its end before anything is written. *)
Fixpoint importPatterns (w : Os.World) (zipReader : list Zip.File)
  : Os.World * bool :=
  match zipReader with
  | [] => (w, true)
  | file :: rest =>
      if String.eqb (Zip.Name file) "patterns.yaml" then
        match Zip.Read file with
        | Zip.Full =>
            match config.DefaultConfigDir w with
            | None => (w, false)
            | Some configDir =>
                match Os.MkdirAll w configDir with
                | None => (w, false)
                | Some w1 =>
                    match config.PatternsFilePath w1 with
                    | None => (w1, false)
                    | Some patternsPath =>
                        match Os.WriteFile w1 patternsPath (Zip.Data file)
                                420 with
                        | Some w2 => (w2, true)
                        | None => (w1, false)
                        end
                    end
                end
            end
        | _ => (w, false)
        end
      else importPatterns w rest
  end.

(** [runImport]: [None] is an error return; otherwise the machine
    afterwards and the per-file outcomes printed.  (The listing of the
    manifest that comes before the question only prints.) *)
Definition runImport (flags : ImportFlags) (archivePath : string)
    (w : Os.World) : option (Os.World * list outcome) :=
  match Os.zipOpen w archivePath with
  | None => None
  | Some reader =>
      match readManifest reader with
      | None => None
      | Some manifest =>
          if importDryRun flags then Some (w, [])
          else
            let response := TrimSpace (ToLower (Os.stdin w)) in
            if negb (importYes flags)
               && negb (String.eqb response "y")
               && negb (String.eqb response "yes")
            then Some (w, [])
            else
              let (w1, out) := importFiles flags w reader manifest in
              Some (fst (importPatterns w1 reader), out)
      end
  end.

End Yaml.

End cli.

(* ===================================================================== *)
(** ** A manifest codec and two machines for the examples *)
(* ===================================================================== *)

(** A line-oriented rendering of a manifest in the layout the yaml
    library gives it, and its reader.  It stands for the yaml library
    where an example needs a concrete codec. *)
Module ManifestText.
Import Strings cli.

Definition nl : string := String (ascii_of_N 10) EmptyString.

Definition showZ (z : Z) : string := NilZero.string_of_int (Z.to_int z).

Definition readZ (s : string) : option Z :=
  option_map Z.of_int (NilZero.int_of_string s).

Definition repoLines (r : RepoExport) : list string :=
  [String.append "- name: " (Name r);
   String.append "  path: " (Path r);
   "  files:"]
  ++ List.map (String.append "  - ") (Files r).

Definition manifestLines (m : Manifest) : list string :=
  [String.append "version: " (showZ (Version m));
   String.append "created_at: " (showZ (CreatedAt m))]
  ++ (if String.eqb (Machine m) "" then []
      else [String.append "machine: " (Machine m)])
  ++ ["repos:"]
  ++ flat_map repoLines (Repos m).

Definition marshal (m : Manifest) : option (list Byte.byte) :=
  Some (list_byte_of_string (Join (manifestLines m) nl)).

Definition withRepos (m : Manifest) (rs : list RepoExport) : Manifest :=
  {| Version := Version m; CreatedAt := CreatedAt m;
     Machine := Machine m; Repos := rs |}.

Definition onLastRepo (f : RepoExport -> RepoExport) (m : Manifest)
  : option Manifest :=
  match rev (Repos m) with
  | [] => None
  | r :: before => Some (withRepos m (rev before ++ [f r]))
  end.

Definition parseLine (st : option Manifest) (line : string)
  : option Manifest :=
  match st with
  | None => None
  | Some m =>
      if String.eqb line "" || String.eqb line "repos:"
         || String.eqb line "  files:" then Some m
      else if HasPrefix line "version: " then
        option_map
          (fun v => {| Version := v; CreatedAt := CreatedAt m;
                       Machine := Machine m; Repos := Repos m |})
          (readZ (TrimPrefix line "version: "))
      else if HasPrefix line "created_at: " then
        option_map
          (fun t => {| Version := Version m; CreatedAt := t;
                       Machine := Machine m; Repos := Repos m |})
          (readZ (TrimPrefix line "created_at: "))
      else if HasPrefix line "machine: " then
        Some {| Version := Version m; CreatedAt := CreatedAt m;
                Machine := TrimPrefix line "machine: "; Repos := Repos m |}
      else if HasPrefix line "- name: " then
        Some (withRepos m
                (Repos m ++ [ {| Name := TrimPrefix line "- name: ";
                                 Path := ""; Files := [] |} ]))
      else if HasPrefix line "  path: " then
        onLastRepo
          (fun r => {| Name := Name r; Path := TrimPrefix line "  path: ";
                       Files := Files r |}) m
      else if HasPrefix line "  - " then
        onLastRepo
          (fun r => {| Name := Name r; Path := Path r;
                       Files := Files r ++ [TrimPrefix line "  - "] |}) m
      else None
  end.

Definition unmarshal (d : list Byte.byte) : option Manifest :=
  let s := string_of_list_byte d in
  fold_left parseLine (genSplit (String.length s) s nl)
    (Some {| Version := 0; CreatedAt := 0; Machine := ""; Repos := [] |}).

End ManifestText.

Module Example.
Import Strings Filepath cli.

Definition bytesOf (s : string) : list Byte.byte := list_byte_of_string s.

(** The exporting machine: the repository [/home/dev/my-app] with two
    ignored secret files, one ignored build log and a tracked file. *)
Definition sourceTree (env envLocal : Os.node) : gmap string Os.node :=
  <["/home/dev/my-app/config/.env.local" := envLocal]>
  (<["/home/dev/my-app/.env" := env]>
  (<["/home/dev/my-app/build/output.log" :=
       Os.Regular 420 (bytesOf "done")]>
  (<["/home/dev/my-app/main.go" := Os.Regular 420 (bytesOf "package main")]>
  (<["/home/dev/my-app/config" := Os.Directory]>
  (<["/home/dev/my-app/build" := Os.Directory]>
  (<["/home/dev/my-app/.git" := Os.Directory]>
  (<["/home/dev/my-app" := Os.Directory]>
  (<["/home/dev" := Os.Directory]>
  (<["/home" := Os.Directory]>
  (<["/" := Os.Directory]> ∅)))))))))).

Definition sourceMachine (env envLocal : Os.node) (lines : list string)
  : Os.World :=
  {| Os.wd := Some "/home/dev/my-app";
     Os.tree := sourceTree env envLocal;
     Os.home := Some "/home/dev";
     Os.hostname := "laptop";
     Os.clock := 1700000000;
     Os.gitRevParse := fun p => String.eqb p "/home/dev/my-app";
     Os.gitStatus :=
       fun p => if String.eqb p "/home/dev/my-app" then Some lines else None;
     Os.stdin := "";
     Os.zipOpen := fun _ => None |}.

(** The importing machine: an empty file tree, and the archive to read
    at [backup.zip]. *)
Definition targetMachine (archive : list Zip.File) : Os.World :=
  {| Os.wd := Some "/";
     Os.tree := <["/" := Os.Directory]> ∅;
     Os.home := Some "/root";
     Os.hostname := "server";
     Os.clock := 1700000600;
     Os.gitRevParse := fun _ => false;
     Os.gitStatus := fun _ => None;
     Os.stdin := String.append "y" ManifestText.nl;
     Os.zipOpen :=
       fun p => if String.eqb p "backup.zip" then Some archive else None |}.

(** The repository as the manifest of an archive describes it, and an
    archive entry with the manifest. *)
Definition myApp (files : list string) : RepoExport :=
  {| Name := "my-app"; Path := "/home/dev/my-app"; Files := files |}.

Definition manifestOf (files : list string) : Manifest :=
  {| Version := 1; CreatedAt := 1700000000; Machine := "laptop";
     Repos := [myApp files] |}.

Definition manifestEntry (files : list string) : Zip.File :=
  {| Zip.Name := "manifest.yaml"; Zip.Mode := modeCreate;
     Zip.Data := match ManifestText.marshal (manifestOf files) with
                 | Some d => d
                 | None => []
                 end; Zip.Read := Zip.Full |}.

Definition fileEntry (filePath content : string) : Zip.File :=
  {| Zip.Name := "files/my-app/" +:+ filePath; Zip.Mode := 420;
     Zip.Data := bytesOf content; Zip.Read := Zip.Full |}.

(** An archive whose manifest lists [.env], for which it has no entry. *)
Definition archiveMissing : list Zip.File :=
  [manifestEntry [".env"; "config/.env.local"];
   fileEntry "config/.env.local" "B=2"].

(** An archive with an entry that leads out of the repository. *)
Definition archiveTraversal : list Zip.File :=
  [manifestEntry [".env"];
   fileEntry "../../../etc/passwd" "root::0:0:::";
   fileEntry ".env" "A=1"].

(** An archive with an entry the manifest does not list. *)
Definition archiveUnlisted : list Zip.File :=
  [manifestEntry [".env"]; fileEntry "extra.txt" "more"].

Definition restoreFlags : ImportFlags :=
  {| importYes := true; importDryRun := false;
     importBaseDir := "/tmp/restore" |}.

Definition exportHere : ExportFlags :=
  {| exportRecursive := false; exportIncludeDeps := false;
     exportPath := "." |}.

Definition gitLines : list string :=
  ["!! .env"; "!! build/"; "!! build/output.log";
   "!! config/.env.local"; "?? notes.txt"].

Definition laptop : Os.World :=
  sourceMachine (Os.Regular 384 (bytesOf "A=1"))
    (Os.Regular 420 (bytesOf "B=2")) gitLines.

(** What the scan of the repository on the laptop gives. *)
Definition laptopScan : scanner.ScanResult :=
  {| scanner.RootPath := "/home/dev/my-app";
     scanner.IgnoredFiles :=
       [ {| scanner.Path := ".env"; scanner.Size := 3;
            scanner.IsSecret := true; scanner.Category := "env" |};
         {| scanner.Path := "config/.env.local"; scanner.Size := 3;
            scanner.IsSecret := true; scanner.Category := "env" |} ];
     scanner.TotalSize := 6; scanner.SecretCount := 2 |}.

End Example.

(* ===================================================================== *)
(** ** The rules of the specification, for comparison with the code *)
(* ===================================================================== *)

Module Spec.
Import Strings Filepath scanner.

(** The category rules in the words of the specification, each a test on
    the path. *)
Definition envRule (path : string) : bool :=
  let name := ToLower (Base path) in
  HasPrefix name ".env" || HasPrefix name "env.".

Definition keyRule (path : string) : bool :=
  let name := ToLower (Base path) in
  let ext := ToLower (Ext path) in
  existsb (Contains name)
    ["key"; "secret"; "credential"; "token"; "password"; "private"; "pem";
     "p12"; "pfx"; "keystore"]
  || existsb (String.eqb ext) [".pem"; ".key"; ".p12"; ".pfx"].

Definition configRule (path : string) : bool :=
  let name := ToLower (Base path) in
  let ext := ToLower (Ext path) in
  existsb (String.eqb ext) [".json"; ".yaml"; ".yml"; ".toml"; ".ini"]
  && (Contains name "config" || Contains name "setting").

(** What the code tests for [build]: one of the directory names followed
    by a separator occurs somewhere in the path, or the path is the
    name. *)
Definition buildRule (path : string) : bool :=
  existsb
    (fun dir =>
       Contains path (String.append dir "/") || String.eqb path dir)
    ["node_modules"; "dist"; "build"; ".next"; "__pycache__"; "target";
     "bin"; "obj"].

(** What the specification says of [build]: one of the directory names
    is a whole element of the path. *)
Definition hasBuildSegment (path : string) : bool :=
  existsb
    (fun e =>
       existsb (String.eqb e)
         ["node_modules"; "dist"; "build"; ".next"; "__pycache__";
          "target"; "bin"; "obj"])
    (elements path).

Definition cacheRule (path : string) : bool :=
  let name := ToLower (Base path) in
  Contains path "cache" || HasPrefix name "." && Contains name "cache".

Definition ideRule (path : string) : bool :=
  existsb
    (fun dir =>
       HasPrefix path (String.append dir "/") || String.eqb path dir)
    [".idea"; ".vscode"; ".vs"].

(** Rules tried in order, the first that matches gives the category. *)
Fixpoint firstMatch (rules : list (string * (string -> bool)))
    (otherwise path : string) : string :=
  match rules with
  | [] => otherwise
  | (category, rule) :: rest =>
      if rule path then category else firstMatch rest otherwise path
  end.

Definition categoryRules : list (string * (string -> bool)) :=
  [("env", envRule); ("key", keyRule); ("config", configRule);
   ("build", buildRule); ("cache", cacheRule); ("ide", ideRule)].

(** The entry [Scan] makes for an ignored path, before the show-all
    filter: none for a path in a dependency directory (when these are
    excluded), for a path that is gone and for a directory. *)
Definition scanned (s : Scanner) (w : Os.World) (absPath path : string)
  : option IgnoredFile :=
  if ExcludeDeps s && isInDepsDir path then None
  else
    match Os.Stat w (Filepath.Join [absPath; path]) with
    | None => None
    | Some info =>
        if Os.IsDir info then None
        else Some {| Path := path; Size := Os.Size info;
                     IsSecret := isSecretFile path (categorizeFile path);
                     Category := categorizeFile path |}
    end.

Definition scannedFiles (s : Scanner) (w : Os.World) (absPath : string)
    (ignoredPaths : list string) : list IgnoredFile :=
  omap (scanned s w absPath) ignoredPaths.

Definition included (s : Scanner) (f : IgnoredFile) : bool :=
  ShowAll s || IsSecret f.

Definition sumZ (l : list Z) : Z := fold_right Z.add 0%Z l.

(** A repository export lists the secret ones among the ignored files a
    scan of its repository looks at, in their order. *)
Definition exportsSecrets (s : Scanner) (w : Os.World)
    (r : cli.RepoExport) : Prop :=
  exists absPath ignoredPaths,
    Abs (Os.wd w) (cli.Path r) = Some absPath
    /\ isGitRepo w absPath = true
    /\ getGitIgnoredFiles w absPath = Some ignoredPaths
    /\ cli.Files r
       = List.map Path
           (List.filter IsSecret (scannedFiles s w absPath ignoredPaths)).

Definition secrets (files : list IgnoredFile) : list IgnoredFile :=
  List.filter IsSecret files.

(** What one round of the loop of [Scan] does to the result. *)
Definition addFile (result : ScanResult) (f : IgnoredFile) : ScanResult :=
  {| RootPath := RootPath result;
     IgnoredFiles := IgnoredFiles result ++ [f];
     TotalSize := add64 (TotalSize result) (Size f);
     SecretCount := if IsSecret f then add64 (SecretCount result) 1
                    else SecretCount result |}.

(** The invariant of the loop: the aggregates are those of the entries
    collected so far. *)
Definition consistent (result : ScanResult) : Prop :=
  TotalSize result = wrap64 (sumZ (List.map Size (IgnoredFiles result)))
  /\ SecretCount result
     = wrap64 (Z.of_nat (List.length (secrets (IgnoredFiles result)))).

(** Of a repository only the name and the path are used. *)
Definition sameRepo (o1 o2 : option cli.RepoExport) : Prop :=
  match o1, o2 with
  | Some r1, Some r2 => cli.Name r1 = cli.Name r2 /\ cli.Path r1 = cli.Path r2
  | None, None => True
  | _, _ => False
  end.

(** The name of the archive entry of a file of a repository. *)
Definition entryName (repoName filePath : string) : string :=
  "files/" +:+ repoName +:+ "/" +:+ filePath.

(** The archive entries [importFiles] handles: those under [files/]
    whose name has a second element and starts with the name of a
    repository of the manifest. *)
Definition handled (manifest : cli.Manifest) (file : Zip.File) : bool :=
  HasPrefix (Zip.Name file) "files/"
  && match SplitN (TrimPrefix (Zip.Name file) "files/") "/" 2 with
     | repoName :: _ :: _ =>
         existsb (String.eqb repoName)
           (List.map cli.Name (cli.Repos manifest))
     | _ => false
     end.

(** The manifest that does not list [filePath] for the repositories
    named [repoName]. *)
Definition unlist (repoName filePath : string) (manifest : cli.Manifest)
  : cli.Manifest :=
  {| cli.Version := cli.Version manifest;
     cli.CreatedAt := cli.CreatedAt manifest;
     cli.Machine := cli.Machine manifest;
     cli.Repos :=
       List.map
         (fun r =>
            if String.eqb (cli.Name r) repoName
            then {| cli.Name := cli.Name r; cli.Path := cli.Path r;
                    cli.Files :=
                      List.filter
                        (fun f => negb (String.eqb f filePath))
                        (cli.Files r) |}
            else r)
         (cli.Repos manifest) |}.

(** The directory the files of a repository are restored under, and
    whether the destination of a file lies outside of it. *)
Definition repoRoot (flags : cli.ImportFlags) (w : Os.World)
    (repo : cli.RepoExport) : string :=
  cli.resolveDestPath flags w repo "".

Definition escapes (flags : cli.ImportFlags) (w : Os.World)
    (repo : cli.RepoExport) (filePath : string) : bool :=
  negb (HasPrefix (cli.resolveDestPath flags w repo filePath)
          (repoRoot flags w repo +:+ "/")).

(** The restore goes past the dry run and the question. *)
Definition confirmed (flags : cli.ImportFlags) (w : Os.World) : bool :=
  let response := TrimSpace (ToLower (Os.stdin w)) in
  negb (cli.importDryRun flags)
  && (cli.importYes flags || String.eqb response "y"
      || String.eqb response "yes").

Definition failures (out : list cli.outcome) : list cli.outcome :=
  List.filter cli.isFailed out.

Definition successes (out : list cli.outcome) : list cli.outcome :=
  List.filter cli.isExtracted out.

(** The last element of a path, and the elements [Clean] keeps as they
    are. *)
Definition lastElement (path : string) : string :=
  List.last (elements path) "".

Definition plain (e : string) : bool :=
  negb (String.eqb e "" || String.eqb e "." || String.eqb e "..")
  && negb (Contains e "/").

(** An empty destination: the directories down to [baseDir] can be
    made (none of them is a regular file) and nothing exists below. *)
Definition emptyDestination (w : Os.World) (baseDir : string) : Prop :=
  (forall k, In k (Os.chain baseDir) ->
             Os.tree w !! k = None \/ Os.tree w !! k = Some Os.Directory)
  /\ (forall k, HasPrefix k (baseDir +:+ "/") = true ->
                Os.tree w !! k = None).

(** The scanner [runExport] makes. *)
Definition exportScanner (flags : cli.ExportFlags) : Scanner :=
  {| ShowAll := false; Categories := [];
     ExcludeDeps := negb (cli.exportIncludeDeps flags) |}.

(** The manifest of the archive of [my-app] with its two secret files. *)
Definition myAppManifest (w : Os.World) (repoPath : string)
  : cli.Manifest :=
  {| cli.Version := 1; cli.CreatedAt := Os.clock w;
     cli.Machine := Os.hostname w;
     cli.Repos := [ {| cli.Name := "my-app"; cli.Path := repoPath;
                       cli.Files := [".env"; "config/.env.local"] |} ] |}.

(** Containment whatever the case of the letters, for a name of ASCII
    bytes and a pattern without capitals: a byte of the name agrees with
    a byte of the pattern when it is that byte or, the latter being a
    small letter, its capital. *)
Definition agrees (c p : ascii) : bool :=
  let n := N_of_ascii p in
  Ascii.eqb c p
  || (97 <=? n)%N && (n <=? 122)%N && (N_of_ascii c =? n - 32)%N.

Fixpoint startsWithAnyCase (s pattern : string) {struct pattern} : bool :=
  match pattern, s with
  | EmptyString, _ => true
  | String p ps, String c cs => agrees c p && startsWithAnyCase cs ps
  | String _ _, EmptyString => false
  end.

Fixpoint containsAnyCase (s pattern : string) : bool :=
  startsWithAnyCase s pattern
  || match s with
     | EmptyString => false
     | String _ s' => containsAnyCase s' pattern
     end.

(** The directories the recursive walk goes into: those named neither
    [.git] nor as one of [skipDirs]. *)
Definition enters (w : Os.World) (p : string) : bool :=
  match Os.tree w !! p with
  | Some Os.Directory =>
      negb (String.eqb (Base p) ".git")
      && negb (existsb (String.eqb (Base p)) cli.skipDirs)
  | _ => false
  end.

(** [finds w p g]: the walk that starts at [p] comes to [g], which is
    [p] or is found from an entry of [p], a directory the walk goes
    into. *)
Inductive finds (w : Os.World) : string -> string -> Prop :=
| finds_here p : finds w p p
| finds_below p k g :
    enters w p = true ->
    In k (cli.children (Os.tree w) p) ->
    finds w k g ->
    finds w p g.

End Spec.

(* ===================================================================== *)
(** ** Notions for the further properties *)
(* ===================================================================== *)

Module Notions.
Import Strings Filepath scanner Spec cli.

(** The names of the dependency directories: the [depsDirs] of
    [isInDepsDir] without their final separator. *)
Definition depsNames : list string :=
  ["node_modules"; "vendor"; ".venv"; "venv"; "__pycache__"; ".gradle";
   "target"; "Pods"].

(** The elements of a path but the last: the directories it lies in. *)
Definition directories (path : string) : list string :=
  removelast (elements path).

(** The scanner with its show-all flag set as given. *)
Definition withShowAll (s : Scanner) (b : bool) : Scanner :=
  {| ShowAll := b; Categories := Categories s;
     ExcludeDeps := ExcludeDeps s |}.

(** The categories [categorizeFile] knows. *)
Definition categories : list string :=
  ["env"; "key"; "config"; "build"; "cache"; "ide"; "other"].

(** The archive entry [createExportZip] writes for a file of a
    repository: none when the source cannot be opened, an empty one with
    the mode of a directory when the source is a directory. *)
Definition entryOf (w : Os.World) (repo : RepoExport) (filePath : string)
  : option Zip.File :=
  let zipPath := Filepath.Join ["files"; Name repo; filePath] in
  match Os.resolve w (Filepath.Join [Path repo; filePath]) with
  | None => None
  | Some p =>
      match Os.tree w !! p with
      | None => None
      | Some (Os.Regular m d) =>
          Some {| Zip.Name := zipPath; Zip.Mode := m; Zip.Data := d;
                  Zip.Read := Zip.Full |}
      | Some Os.Directory =>
          Some {| Zip.Name := zipPath; Zip.Mode := modeDir;
                  Zip.Data := []; Zip.Read := Zip.Full |}
      end
  end.

(** The entry with the pattern file, when the machine has one. *)
Definition patternsEntry (w : Os.World) : list Zip.File :=
  match config.PatternsFilePath w with
  | Some patternsPath =>
      match Os.ReadFile w patternsPath with
      | Some patternsData =>
          [ {| Zip.Name := "patterns.yaml"; Zip.Mode := modeCreate;
               Zip.Data := patternsData; Zip.Read := Zip.Full |} ]
      | None => []
      end
  | None => []
  end.

(** The manifest [createExportZip] writes. *)
Definition manifestFor (w : Os.World) (repos : list RepoExport)
  : Manifest :=
  {| Version := 1; CreatedAt := Os.clock w; Machine := Os.hostname w;
     Repos := repos |}.

(** The node at [k] is a regular file. *)
Definition isRegular (t : gmap string Os.node) (k : string) : Prop :=
  exists m d, t !! k = Some (Os.Regular m d).

(** A file tree grows into another when its directories stay directories
    and its regular files stay regular files. *)
Definition grows (t t' : gmap string Os.node) : Prop :=
  forall k,
    (t !! k = Some Os.Directory -> t' !! k = Some Os.Directory)
    /\ (isRegular t k -> isRegular t' k).

(** A relative path as git prints it: every element is a real name. *)
Definition plainPath (p : string) : bool := forallb plain (elements p).

(** A measure that grows from a directory to its entries, and the number
    of nodes of a tree that are at least as far as [p] by it; the walk
    from [p] is no deeper than that. *)
Definition rank (p : string) : nat :=
  if String.eqb p "." then 0 else S (String.length p).

Definition atLeast (t : gmap string Os.node) (p : string) : nat :=
  List.length
    (List.filter (fun k => (rank p <=? rank k)%nat)
       (List.map fst (map_to_list t))).

(** The length of the elements of a path with a separator after each. *)
Fixpoint weight (l : list string) : nat :=
  match l with
  | [] => 0
  | e :: l' => String.length e + 1 + weight l'
  end.

(** The weight of the elements that are not empty, which bounds what
    [Clean] keeps. *)
Definition solid (l : list string) : nat :=
  weight (List.filter (fun e => negb (String.eqb e "")) l).

End Notions.

(* ===================================================================== *)
(** ** Package [config]: the pattern file *)
(* ===================================================================== *)

Module patterns.
Import Strings Filepath.

Record Language := { Deps : list string }.

(** [Languages] is a [map[string]*Language]: a value of [None] is a nil
    pointer.  [UpdatedAt] is a time in seconds. *)
Record PatternsConfig := {
  Version : Z;
  UpdatedAt : Z;
  Languages : gmap string (option Language);
}.

(** What [LoadPatterns] returns: an error, [nil, nil] when there is no
    pattern file yet, or the configuration. *)
Inductive loaded :=
| LoadError
| NoConfig
| Loaded (c : PatternsConfig).

(** Whether opening [p] fails with [ENOENT]: the directories above are
    looked up from the root; a missing one gives [ENOENT], a regular file
    in the way gives [ENOTDIR] instead. *)
Fixpoint missingAlong (t : gmap string Os.node) (ds : list string)
    (p : string) : bool :=
  match ds with
  | [] => match t !! p with None => true | Some _ => false end
  | d :: ds' =>
      match t !! d with
      | None => true
      | Some Os.Directory => missingAlong t ds' p
      | Some (Os.Regular _ _) => false
      end
  end.

(** [os.IsNotExist] of the error of [os.ReadFile]. *)
Definition IsNotExist (w : Os.World) (path : string) : bool :=
  match Os.resolve w path with
  | Some p => missingAlong (Os.tree w) (Os.chain (Dir p)) p
  | None => false
  end.

(** The loop of [GetAllDepsDirs] and of [parseGitignoreForDeps]: a
    string not seen before is marked and appended. *)
Definition appendUnseen (st : gmap string bool * list string) (x : string)
  : gmap string bool * list string :=
  let (seen, result) := st in
  if negb (default false (seen !! x))
  then (<[x := true]> seen, result ++ [x])
  else st.

(** The state of a loop that appends unseen strings: the list has no
    duplicates and the marks are its elements. *)
Definition tracks (st : gmap string bool * list string) : Prop :=
  NoDup (snd st)
  /\ forall x, default false (fst st !! x) = true <-> In x (snd st).

(** One round of the loop of [GetAllDepsDirs], for the language under
    the key [name]; a nil language panics. *)
Definition addLanguage (languages : gmap string (option Language))
    (st : option (gmap string bool * list string)) (name : string)
  : option (gmap string bool * list string) :=
  match st, languages !! name with
  | Some st', Some (Some lang) => Some (fold_left appendUnseen (Deps lang) st')
  | Some st', Some None => None
  | Some st', None => Some st'
  | None, _ => None
  end.

(** [GetAllDepsDirs] on a configuration that may be nil; [order] is the
    order in which the keys of the map are visited, which Go leaves
    open.  [None] is a panic. *)
Definition GetAllDepsDirs (c : option PatternsConfig)
    (order : list string) : option (list string) :=
  match c with
  | None => Some []
  | Some config =>
      option_map snd
        (fold_left (addLanguage (Languages config)) order (Some (∅, [])))
  end.

Section Codec.

Variable yamlMarshal : PatternsConfig -> option (list Byte.byte).
Variable yamlUnmarshal : list Byte.byte -> option PatternsConfig.

Definition LoadPatterns (w : Os.World) : loaded :=
  match config.PatternsFilePath w with
  | None => LoadError
  | Some path =>
      match Os.ReadFile w path with
      | Some data =>
          match yamlUnmarshal data with
          | Some c => Loaded c
          | None => LoadError
          end
      | None => if IsNotExist w path then NoConfig else LoadError
      end
  end.

(** [SavePatterns], as it is called with a configuration that is not
    nil: the machine afterwards and whether it returned without error. *)
Definition SavePatterns (w : Os.World) (c : PatternsConfig)
  : Os.World * bool :=
  match config.DefaultConfigDir w with
  | None => (w, false)
  | Some dir =>
      match Os.MkdirAll w dir with
      | None => (w, false)
      | Some w1 =>
          match config.PatternsFilePath w1 with
          | None => (w1, false)
          | Some path =>
              match yamlMarshal c with
              | None => (w1, false)
              | Some data =>
                  match Os.WriteFile w1 path data 420 with
                  | Some w2 => (w2, true)
                  | None => (w1, false)
                  end
              end
          end
      end
  end.

End Codec.

End patterns.

(* ===================================================================== *)
(** ** The [sync] command (package [cli], [sync.go]) *)
(* ===================================================================== *)

Module sync.
Import Strings Filepath patterns.

Definition defaultLanguages : list string :=
  ["Python"; "Node"; "Go"; "Ruby"; "Java"; "Rust"; "Scala"; "Haskell";
   "Elixir"; "Dart"; "Swift"; "Objective-C"; "Kotlin"; "C++"; "C"].

(** What a [bufio.Scanner] gives on a reader: its lines, and whether it
    ends with an error. *)
Record Reader := {
  Lines : list string;
  Err : bool;
}.

(** The response of [http.Get]. *)
Record Response := {
  StatusCode : Z;
  Body : Reader;
}.

Definition depsKeywords : list string :=
  ["node_modules"; "vendor"; "venv"; ".venv"; "env"; "__pycache__";
   "site-packages"; "packages"; ".eggs"; "eggs"; "dist"; "build"; "target";
   "deps"; "_build"; ".gradle"; ".m2"; "Pods"; "Carthage"; ".dart_tool";
   ".pub"; ".stack-work"; "dist-newstyle"; ".cabal"; "elm-stuff";
   "bower_components"; ".bundle"; ".cargo"; "pkg"; "bin"; "obj"; "out";
   "lib"; "libs"; ".nuget"; ".paket"; "jspm_packages"; ".pnp"; ".yarn";
   "__pypackages__"; ".tox"; ".nox"; ".mypy_cache"; ".pytest_cache";
   ".hypothesis"; ".ruff_cache"; ".pixi"].

(** The loop over the keywords in [extractDepsPattern]: [Some] is a
    return from inside the loop, [None] is falling out of it. *)
Fixpoint keywordLoop (line lineLower : string) (keywords : list string)
  : option string :=
  match keywords with
  | [] => None
  | keyword :: rest =>
      if Contains lineLower (ToLower keyword) then
        if negb (HasSuffix line "/") then
          if negb (Contains line "*") && negb (Contains line ".")
          then Some (line +:+ "/")
          else if HasSuffix line "/" then Some line
          else keywordLoop line lineLower rest
        else Some line
      else keywordLoop line lineLower rest
  end.

Definition extractDepsPattern (line0 : string) : string :=
  if HasPrefix line0 "!" then ""
  else
    let line := TrimPrefix line0 "/" in
    let lineLower := ToLower line in
    match keywordLoop line lineLower depsKeywords with
    | Some pattern => pattern
    | None =>
        if HasSuffix line "/" then
          let name := TrimPrefix (TrimSuffix line "/") "**/" in
          if Contains name "*" then "" else line
        else ""
    end.

(** The body of the loop of [parseGitignoreForDeps]. *)
Definition parseLine (st : gmap string bool * list string) (text : string)
  : gmap string bool * list string :=
  let line := TrimSpace text in
  if String.eqb line "" || HasPrefix line "#" then st
  else
    let pattern := extractDepsPattern line in
    if negb (String.eqb pattern "") then appendUnseen st pattern else st.

(** [parseGitignoreForDeps]: the patterns and the error of the
    scanner. *)
Definition parseGitignoreForDeps (r : Reader) : list string * bool :=
  (snd (fold_left parseLine (Lines r) (∅, [])), Err r).

Definition gitignoreURL (lang : string) : string :=
  "https://raw.githubusercontent.com/github/gitignore/main/"
  +:+ lang +:+ ".gitignore".

(** [fetchGitignorePatterns]: the patterns and whether there was an
    error. *)
Definition fetchGitignorePatterns
    (httpGet : string -> option Response) (lang : string)
  : list string * bool :=
  match httpGet (gitignoreURL lang) with
  | None => ([], true)
  | Some resp =>
      if negb (StatusCode resp =? 200)%Z then ([], true)
      else parseGitignoreForDeps (Body resp)
  end.

Definition commonDeps : list string :=
  [".cache/"; ".tmp/"; "tmp/"; "temp/"; ".circleci/"; ".github/";
   ".gitlab/"; ".idea/"; ".vscode/"; ".vs/"].

Definition withLanguages (cfg : PatternsConfig)
    (languages : gmap string (option Language)) : PatternsConfig :=
  {| Version := Version cfg; UpdatedAt := UpdatedAt cfg;
     Languages := languages |}.

Definition addCommonPatterns (cfg : PatternsConfig) : PatternsConfig :=
  withLanguages cfg
    (<["common" := Some {| Deps := commonDeps |}]> (Languages cfg)).

(** The body of the loop of [runSync] over the languages. *)
Definition fetchLanguage (httpGet : string -> option Response)
    (cfg : PatternsConfig) (lang : string) : PatternsConfig :=
  let (pats, err) := fetchGitignorePatterns httpGet lang in
  if err then cfg
  else if (List.length pats =? 0)%nat then cfg
  else withLanguages cfg
         (<[ToLower lang := Some {| Deps := pats |}]> (Languages cfg)).

(** The configuration [runSync] builds before it saves it. *)
Definition fetched (httpGet : string -> option Response) (w : Os.World)
  : PatternsConfig :=
  addCommonPatterns
    (fold_left (fetchLanguage httpGet) defaultLanguages
       {| Version := 1; UpdatedAt := Os.clock w; Languages := ∅ |}).

Section Saving.

Variable yamlMarshal : PatternsConfig -> option (list Byte.byte).

(** [runSync]: the machine afterwards and whether it returned without
    error.  With [--list] the languages are only printed. *)
Definition runSync (listOnly : bool)
    (httpGet : string -> option Response) (w : Os.World)
  : Os.World * bool :=
  if listOnly then (w, true)
  else SavePatterns yamlMarshal w (fetched httpGet w).

End Saving.

End sync.

(* ===================================================================== *)
(** ** The [scan] command (package [cli]) *)
(* ===================================================================== *)

Module scan.
Import Strings Filepath scanner.

(** What [formatSize] prints: the bytes as they are, or the bytes over a
    power of 1024 with the letter of the unit. *)
Inductive sizeText :=
| Plain (bytes : Z)
| Scaled (bytes div : Z) (unit : ascii).

(** The loop of [formatSize], [for n := bytes / unit; n >= unit;
    n /= unit] with [unit = 1024], on [int64] and [int]; [None] when
    [fuel] rounds were not enough. *)
Fixpoint unitLoop (fuel : nat) (n div : Z) (exp : nat)
  : option (Z * nat) :=
  if (n >=? 1024)%Z then
    match fuel with
    | O => None
    | S fuel' =>
        unitLoop fuel' (Z.quot n 1024) (wrap64 (div * 1024)) (S exp)
    end
  else Some (div, exp).

(** [formatSize]; [None] is a panic (an index out of the range of
    ["KMGTPE"]) or a loop that does not end. *)
Definition formatSize (bytes : Z) : option sizeText :=
  if (bytes <? 1024)%Z then Some (Plain bytes)
  else
    match unitLoop 64 (Z.quot bytes 1024) 1024 0 with
    | None => None
    | Some (div, exp) =>
        match nth_error (list_ascii_of_string "KMGTPE") exp with
        | Some u => Some (Scaled bytes div u)
        | None => None
        end
    end.

Record ScanFlags := {
  flagAll : bool;
  flagRecursive : bool;
  flagCategory : string;
  flagIncludeDeps : bool;
}.

(** What [printResult] prints for a result: that there is no ignored
    file, that there is none in the category asked for, or the files by
    category with the two numbers of the last line. *)
Inductive report :=
| NoIgnored (root : string)
| NoneInCategory (root category : string)
| Listing (root : string) (groups : list (string * list IgnoredFile))
    (total : nat) (secrets : Z).

(** The map [byCategory] of [printResult]. *)
Definition group (byCategory : gmap string (list IgnoredFile))
    (f : IgnoredFile) : gmap string (list IgnoredFile) :=
  <[Category f := default [] (byCategory !! Category f) ++ [f]]> byCategory.

(** [sort.Strings]. *)
Definition sortStrings (l : list string) : list string :=
  fold_right cli.insertSorted [] l.

(** [printResult].  The keys of the map are collected in the order Go
    visits them and sorted. *)
Definition printResult (category : string) (result : ScanResult) : report :=
  if (List.length (IgnoredFiles result) =? 0)%nat
  then NoIgnored (RootPath result)
  else
    let files :=
      if negb (String.eqb category "")
      then List.filter (fun f => String.eqb (Category f) category)
             (IgnoredFiles result)
      else IgnoredFiles result in
    if (List.length files =? 0)%nat
    then NoneInCategory (RootPath result) category
    else
      let byCategory := fold_left group files ∅ in
      let categories := sortStrings (List.map fst (map_to_list byCategory)) in
      Listing (RootPath result)
        (List.map (fun cat => (cat, default [] (byCategory !! cat)))
           categories)
        (List.length files) (SecretCount result).

(** [scanSingle]: [None] is the error return. *)
Definition scanSingle (flags : ScanFlags) (s : Scanner) (w : Os.World)
    (path : string) : option report :=
  match Scan s w path with
  | None => None
  | Some result => Some (printResult (flagCategory flags) result)
  end.

(** What the walk of [scanRecursive] keeps: the results, the number of
    secrets and the number of files. *)
Record totals := {
  allResults : list ScanResult;
  totalSecrets : Z;
  totalFiles : Z;
}.

(** A result is appended and counted. *)
Definition extend (acc : totals) (result : ScanResult) : totals :=
  {| allResults := allResults acc ++ [result];
     totalSecrets := add64 (totalSecrets acc) (SecretCount result);
     totalFiles :=
       add64 (totalFiles acc)
         (Z.of_nat (List.length (IgnoredFiles result))) |}.

(** [filepath.Walk] with the callback of [scanRecursive]: a [.git]
    directory has its parent scanned and is not entered, a directory of
    [skipDirs] is not entered, any other directory is walked.  [fuel]
    bounds the depth. *)
Fixpoint walkScans (fuel : nat) (s : Scanner) (w : Os.World)
    (path : string) (acc : totals) : totals :=
  match Os.tree w !! path with
  | Some Os.Directory =>
      if String.eqb (Base path) ".git" then
        match Scan s w (Dir path) with
        | Some result =>
            if (0 <? List.length (IgnoredFiles result))%nat
            then extend acc result else acc
        | None => acc
        end
      else if existsb (String.eqb (Base path)) cli.skipDirs then acc
      else
        match fuel with
        | O => acc
        | S fuel' =>
            fold_left (fun acc k => walkScans fuel' s w k acc)
              (cli.children (Os.tree w) path) acc
        end
  | _ => acc
  end.

(** What [scanRecursive] prints: that nothing was found, or the reports
    of the repositories and the summary line. *)
Inductive recursiveOutput :=
| NothingFound
| Found (reports : list report) (repositories : nat)
    (files secrets : Z).

Definition scanRecursive (flags : ScanFlags) (s : Scanner) (w : Os.World)
    (rootPath : string) : recursiveOutput :=
  let t := walkScans (size (Os.tree w)) s w rootPath
             {| allResults := []; totalSecrets := 0; totalFiles := 0 |} in
  if (List.length (allResults t) =? 0)%nat then NothingFound
  else Found (List.map (printResult (flagCategory flags)) (allResults t))
         (List.length (allResults t)) (totalFiles t) (totalSecrets t).

Inductive scanOutput :=
| OneRepo (r : report)
| ManyRepos (o : recursiveOutput).

(** [runScan]: [None] is an error. *)
Definition runScan (flags : ScanFlags) (args : list string) (w : Os.World)
  : option scanOutput :=
  let path := match args with a :: _ => a | [] => "." end in
  match Abs (Os.wd w) path with
  | None => None
  | Some absPath =>
      if patterns.IsNotExist w absPath then None
      else
        let s := {| ShowAll := flagAll flags;
                    Categories := Categories NewScanner;
                    ExcludeDeps := negb (flagIncludeDeps flags) |} in
        if flagRecursive flags
        then Some (ManyRepos (scanRecursive flags s w absPath))
        else option_map OneRepo (scanSingle flags s w absPath)
      end.

(** A list of strings in ascending order (of their bytes). *)
Fixpoint ascending (l : list string) : bool :=
  match l with
  | a :: (b :: _) as rest => String.leb a b && ascending rest
  | _ => true
  end.

(** The export of a scan result: the repository export
    [collectSingleRepo] makes of it. *)
Definition exports (w : Os.World) (repo : cli.RepoExport)
    (result : scanner.ScanResult) : Prop :=
  cli.Files repo = List.map scanner.Path (List.filter scanner.IsSecret (scanner.IgnoredFiles result))
  /\ cli.Name repo = Filepath.Base (cli.Path repo)
  /\ Filepath.Abs (Os.wd w) (cli.Path repo) = Some (scanner.RootPath result).

Definition hasSecret (result : scanner.ScanResult) : bool :=
  existsb scanner.IsSecret (scanner.IgnoredFiles result).

End scan.

(* ===================================================================== *)
(** ** More example machines *)
(* ===================================================================== *)

Module Cases.
Import Strings Filepath.

Definition bytesOf (s : string) : list Byte.byte := list_byte_of_string s.

(** A workstation with three repositories below [/home/dev], two of them
    in directories named [api]. *)
Definition workstationTree : gmap string Os.node :=
  <["/home/dev/old/api/id_rsa" := Os.Regular 384 (bytesOf "key")]>
  (<["/home/dev/old/api/.git" := Os.Directory]>
  (<["/home/dev/old/api" := Os.Directory]>
  (<["/home/dev/old" := Os.Directory]>
  (<["/home/dev/src/web/out.log" := Os.Regular 420 (bytesOf "built")]>
  (<["/home/dev/src/web/.git" := Os.Directory]>
  (<["/home/dev/src/web" := Os.Directory]>
  (<["/home/dev/src/api/debug.log" := Os.Regular 420 (bytesOf "ok")]>
  (<["/home/dev/src/api/.env" := Os.Regular 384 (bytesOf "KEY=1")]>
  (<["/home/dev/src/api/.git" := Os.Directory]>
  (<["/home/dev/src/api" := Os.Directory]>
  (<["/home/dev/src" := Os.Directory]>
  (<["/home/dev" := Os.Directory]>
  (<["/home" := Os.Directory]>
  (<["/" := Os.Directory]> ∅)))))))))))))).

Definition workstationStatus (p : string) : option (list string) :=
  if String.eqb p "/home/dev/src/api"
  then Some ["!! .env"; "!! debug.log"]
  else if String.eqb p "/home/dev/src/web" then Some ["!! out.log"]
  else if String.eqb p "/home/dev/old/api" then Some ["!! id_rsa"]
  else None.

Definition workstation : Os.World :=
  {| Os.wd := Some "/home/dev/src/api";
     Os.tree := workstationTree;
     Os.home := Some "/home/dev";
     Os.hostname := "workstation";
     Os.clock := 1700000000;
     Os.gitRevParse :=
       fun p => match workstationStatus p with
                | Some _ => true
                | None => false
                end;
     Os.gitStatus := workstationStatus;
     Os.stdin := "";
     Os.zipOpen := fun _ => None |}.

(** A machine with a pattern file and nothing else. *)
Definition office : Os.World :=
  {| Os.wd := Some "/home/dev";
     Os.tree :=
       <["/home/dev/.config/igloc/patterns.yaml" :=
           Os.Regular 420 (bytesOf "version: 1")]>
       (<["/home/dev/.config/igloc" := Os.Directory]>
       (<["/home/dev/.config" := Os.Directory]>
       (<["/home/dev" := Os.Directory]>
       (<["/home" := Os.Directory]>
       (<["/" := Os.Directory]> ∅)))));
     Os.home := Some "/home/dev";
     Os.hostname := "office";
     Os.clock := 1700000000;
     Os.gitRevParse := fun _ => false;
     Os.gitStatus := fun _ => None;
     Os.stdin := "";
     Os.zipOpen := fun _ => None |}.

(** A manifest with two repositories of one name. *)
Definition oldApi : cli.RepoExport :=
  {| cli.Name := "api"; cli.Path := "/home/dev/old/api";
     cli.Files := ["id_rsa"] |}.

Definition newApi : cli.RepoExport :=
  {| cli.Name := "api"; cli.Path := "/home/dev/src/api";
     cli.Files := [".env"] |}.

Definition twoApis : cli.Manifest :=
  {| cli.Version := 1; cli.CreatedAt := 1700000000;
     cli.Machine := "workstation"; cli.Repos := [oldApi; newApi] |}.

Definition keyEntry : Zip.File :=
  {| Zip.Name := "files/api/id_rsa"; Zip.Mode := 384;
     Zip.Data := bytesOf "key"; Zip.Read := Zip.Full |}.

Definition noBase : cli.ImportFlags :=
  {| cli.importYes := true; cli.importDryRun := false;
     cli.importBaseDir := "" |}.

Definition dryRun : cli.ImportFlags :=
  {| cli.importYes := true; cli.importDryRun := true;
     cli.importBaseDir := "/tmp/restore" |}.

(** A restore that asks, and the importing machine with an answer typed
    in. *)
Definition asking : cli.ImportFlags :=
  {| cli.importYes := false; cli.importDryRun := false;
     cli.importBaseDir := "/tmp/restore" |}.

Definition answering (answer : string) (archive : list Zip.File)
  : Os.World :=
  let w := Example.targetMachine archive in
  {| Os.wd := Os.wd w; Os.tree := Os.tree w; Os.home := Os.home w;
     Os.hostname := Os.hostname w; Os.clock := Os.clock w;
     Os.gitRevParse := Os.gitRevParse w; Os.gitStatus := Os.gitStatus w;
     Os.stdin := answer; Os.zipOpen := Os.zipOpen w |}.

(** The no-break space U+00A0 and the Kelvin sign U+212A, in UTF-8. *)
Definition nbsp : string :=
  String (ascii_of_N 194) (String (ascii_of_N 160) EmptyString).

Definition kelvin : string :=
  String (ascii_of_N 226)
    (String (ascii_of_N 132) (String (ascii_of_N 170) EmptyString)).

(** The capital I with a dot above, U+0130, in UTF-8. *)
Definition dottedI : string :=
  String (ascii_of_N 196) (String (ascii_of_N 176) EmptyString).

(** An entry that leads out of the repository and whose stream is cut
    after four bytes, and an archive with it. *)
Definition cutEntry : Zip.File :=
  {| Zip.Name := "files/my-app/../../../etc/passwd"; Zip.Mode := 420;
     Zip.Data := bytesOf "root"; Zip.Read := Zip.ReadError |}.

Definition archiveCut : list Zip.File :=
  [Example.manifestEntry [".env"]; cutEntry;
   Example.fileEntry ".env" "A=1"].

(** A pattern file with two languages that share a directory, and a
    marshaller that writes the version only. *)
Definition twoLanguages : patterns.PatternsConfig :=
  {| patterns.Version := 1; patterns.UpdatedAt := 1700000000;
     patterns.Languages :=
       <["go" := Some {| patterns.Deps := ["vendor/"; "bin/"] |}]>
       (<["node" :=
            Some {| patterns.Deps := ["node_modules/"; "bin/"] |}]> ∅) |}.

Definition noLanguages : patterns.PatternsConfig :=
  {| patterns.Version := 1; patterns.UpdatedAt := 0;
     patterns.Languages := ∅ |}.

Definition marshalVersion (c : patterns.PatternsConfig)
  : option (list Byte.byte) :=
  Some (bytesOf "version: 1").

Definition unmarshalVersion (d : list Byte.byte)
  : option patterns.PatternsConfig :=
  Some noLanguages.

(** A network where only the template of Go is served. *)
Definition onlyGo (url : string) : option sync.Response :=
  if String.eqb url (sync.gitignoreURL "Go")
  then Some {| sync.StatusCode := 200;
               sync.Body := {| sync.Lines := ["# Go"; "vendor/"; "*.exe"];
                               sync.Err := false |} |}
  else Some {| sync.StatusCode := 404;
               sync.Body := {| sync.Lines := []; sync.Err := false |} |}.

Definition offline (url : string) : option sync.Response := None.

Definition scanHere : scan.ScanFlags :=
  {| scan.flagAll := false; scan.flagRecursive := false;
     scan.flagCategory := ""; scan.flagIncludeDeps := false |}.

End Cases.

(* ===================================================================== *)
(** ** Strings and paths *)
(* ===================================================================== *)

Section StringFacts.
Import Strings.

Lemma append_cons (c : ascii) (p s : string) :
  String.append (String c p) s = String c (String.append p s).
Proof. reflexivity. Qed.

Lemma HasPrefix_app (p s : string) : HasPrefix (String.append p s) p = true.
Proof.
  induction p as [|c p IH].
  - reflexivity.
  - rewrite append_cons. simpl. now rewrite Ascii.eqb_refl, IH.
Qed.

Lemma sliceFrom_app (p s : string) :
  sliceFrom (String.length p) (String.append p s) = s.
Proof.
  induction p as [|c p IH]; [reflexivity|].
  rewrite append_cons. simpl. exact IH.
Qed.

Lemma TrimPrefix_app (p s : string) : TrimPrefix (String.append p s) p = s.
Proof. unfold TrimPrefix. now rewrite HasPrefix_app, sliceFrom_app. Qed.

Lemma Contains_Index (s sub : string) :
  Contains s sub = match Index s sub with Some _ => true | None => false end.
Proof.
  induction s as [|c s IH]; simpl.
  - now destruct (HasPrefix "" sub).
  - destruct (HasPrefix (String c s) sub); simpl; [reflexivity|].
    rewrite IH. now destruct (Index s sub).
Qed.

Lemma existsb_pointwise {A} (f g : A -> bool) (l : list A) :
  (forall x, f x = g x) -> existsb f l = existsb g l.
Proof.
  intros H. induction l as [|x l IH]; simpl; [reflexivity|].
  now rewrite H, IH.
Qed.

End StringFacts.

(* ===================================================================== *)
(** ** The last element of a cleaned path *)
(* ===================================================================== *)

Section PathFacts.
Import Strings Filepath Spec.

Lemma elements_nonempty s : elements s <> [].
Proof.
  destruct s as [|c s]; cbn [elements]; [discriminate|].
  destruct (IsPathSeparator c); [discriminate|].
  destruct (elements s); discriminate.
Qed.

Lemma elements_app (a b : string) :
  elements (a +:+ "/" +:+ b) = elements a ++ elements b.
Proof.
  induction a as [|c a IH].
  - reflexivity.
  - rewrite append_cons. cbn [elements]. rewrite IH.
    destruct (IsPathSeparator c); [reflexivity|].
    pose proof (elements_nonempty a) as Hne.
    destruct (elements a) as [|h t]; [contradiction|reflexivity].
Qed.

Lemma elements_plain e : Contains e "/" = false -> elements e = [e].
Proof.
  induction e as [|c e IH]; intros H; [reflexivity|].
  cbn [Contains] in H. apply orb_false_iff in H as [Hp Hc].
  cbn [elements]. unfold IsPathSeparator.
  cbn [HasPrefix] in Hp. rewrite andb_true_r in Hp.
  rewrite Ascii.eqb_sym, Hp. now rewrite (IH Hc).
Qed.

Lemma last_app_nonempty {A} (l1 l2 : list A) d :
  l2 <> [] -> List.last (l1 ++ l2) d = List.last l2 d.
Proof.
  intros H. induction l1 as [|x l1 IH]; [reflexivity|].
  cbn [List.app]. rewrite <- IH.
  destruct (l1 ++ l2) eqn:E; [|reflexivity].
  apply List.app_eq_nil in E as [_ ->]. contradiction.
Qed.

Lemma lastElement_app a b :
  lastElement (a +:+ "/" +:+ b) = lastElement b.
Proof.
  unfold lastElement. rewrite elements_app.
  apply last_app_nonempty, elements_nonempty.
Qed.

Lemma lastElement_Join l e :
  Contains e "/" = false ->
  lastElement (Strings.Join (l ++ [e]) "/") = e.
Proof.
  intros He. induction l as [|x l IH].
  - cbn. unfold lastElement. now rewrite (elements_plain _ He).
  - cbn [List.app Strings.Join].
    destruct (l ++ [e]) as [|y r] eqn:E.
    { destruct l; discriminate. }
    rewrite lastElement_app. exact IH.
Qed.

Lemma elements_last s :
  exists init, elements s = init ++ [lastElement s].
Proof.
  unfold lastElement. pose proof (elements_nonempty s) as H.
  destruct (@List.exists_last _ (elements s) H) as (init & e & ->).
  exists init. now rewrite List.last_last.
Qed.

Lemma lastElement_Clean s :
  plain (lastElement s) = true -> lastElement (Clean s) = lastElement s.
Proof.
  intros Hp. unfold plain in Hp. apply andb_true_iff in Hp as [Hr Hs].
  apply negb_true_iff in Hr, Hs.
  destruct (elements_last s) as (init & Hel).
  set (e := lastElement s) in *.
  unfold Clean. destruct s as [|c s'] eqn:Es.
  { cbn in e. subst e. discriminate. }
  rewrite <- Es in *. clearbody e. rewrite Hel, List.fold_left_app. cbn [fold_left].
  set (out := fold_left (cleanStep (IsPathSeparator c)) init []).
  apply orb_false_iff in Hr as [Hr Hdd].
  assert (Hstep : cleanStep (IsPathSeparator c) out e = e :: out)
    by (unfold cleanStep; now rewrite Hr, Hdd).
  rewrite Hstep. cbn [rev].
  pose proof (lastElement_Join (rev out) e Hs) as Hj.
  destruct (IsPathSeparator c).
  - etransitivity; [|exact Hj].
    unfold lastElement. cbn [elements].
    change (IsPathSeparator "/") with true. cbn iota.
    change ("" :: ?l) with ([""] ++ l).
    apply last_app_nonempty, elements_nonempty.
  - destruct (String.eqb (Strings.Join (rev out ++ [e]) "/") "") eqn:Eb;
      [|exact Hj].
    apply String.eqb_eq in Eb. rewrite Eb in Hj. cbn in Hj.
    subst e. discriminate.
Qed.

Lemma lastElement_Join2 a b :
  plain (lastElement b) = true ->
  lastElement (Filepath.Join [a; b]) = lastElement b.
Proof.
  intros Hp.
  assert (Hb : b <> "").
  { intros ->. discriminate. }
  cbn [Filepath.Join].
  destruct (String.eqb a "") eqn:Ea.
  - apply String.eqb_neq in Hb. rewrite Hb.
    cbn [Strings.Join]. now apply lastElement_Clean.
  - cbn [Strings.Join]. rewrite lastElement_Clean;
      rewrite lastElement_app; [reflexivity|assumption].
Qed.

Lemma lastElement_resolve w p k :
  plain (lastElement p) = true ->
  Os.resolve w p = Some k -> lastElement k = lastElement p.
Proof.
  intros Hp. unfold Os.resolve, Abs.
  destruct (String.eqb p ""); [discriminate|].
  destruct (IsAbs p).
  - intros [= <-]. now apply lastElement_Clean.
  - destruct (Os.wd w) as [d|]; [|discriminate].
    intros [= <-]. now apply lastElement_Join2.
Qed.

Lemma PatternsFilePath_last w pp k :
  config.PatternsFilePath w = Some pp ->
  Os.resolve w pp = Some k -> lastElement k = "patterns.yaml".
Proof.
  unfold config.PatternsFilePath. intros H Hk.
  destruct (config.DefaultConfigDir w) as [dir|]; [|discriminate].
  assert (Hl : lastElement (Filepath.Join [dir; "patterns.yaml"])
               = "patterns.yaml")
    by (now rewrite lastElement_Join2).
  assert (Hpp : pp = Filepath.Join [dir; "patterns.yaml"])
    by (now injection H).
  rewrite <- Hpp in Hl.
  rewrite (lastElement_resolve w pp k); [exact Hl| |exact Hk].
  now rewrite Hl.
Qed.

End PathFacts.

(* ===================================================================== *)
(** ** The classifier *)
(* ===================================================================== *)

Section Classifier.
Import Strings Filepath scanner Spec.

(** A prefix of the path is also found by the search for a substring, so
    the second test of the [build] loop adds nothing to the first. *)
Lemma HasPrefix_Contains (s p : string) :
  HasPrefix s p = true -> Contains s p = true.
Proof. intros H. destruct s; simpl in *; now rewrite H. Qed.

Lemma buildLoop_buildRule (path : string) :
  existsb
    (fun dir =>
       Contains path (String.append dir "/")
       || HasPrefix path (String.append dir "/")
       || String.eqb path dir) buildDirs
  = buildRule path.
Proof.
  unfold buildRule, buildDirs. apply existsb_pointwise. intros dir.
  destruct (Contains path (String.append dir "/")) eqn:Hc; simpl;
    [reflexivity|].
  destruct (HasPrefix path (String.append dir "/")) eqn:Hp; simpl;
    [|reflexivity].
  apply HasPrefix_Contains in Hp. congruence.
Qed.

(** C7.  Category precedence: [categorizeFile] tries the rules env, key,
    config, build, cache, ide in this order, the first that matches gives
    the category and [other] is left when none does.  [.env.production]
    is [env] although its extension [.production] is no recognised one;
    [config/app.secret.yaml] is [key] and secret, and a name that both the
    key rule and the config rule match is [key]. *)
Theorem categorizeFile_precedence :
  (forall path : string,
      categorizeFile path = firstMatch categoryRules "other" path)
  /\ List.map fst categoryRules
     = ["env"; "key"; "config"; "build"; "cache"; "ide"]
  /\ categorizeFile ".env.production" = "env"
  /\ Ext ".env.production" = ".production"
  /\ categorizeFile "config/app.secret.yaml" = "key"
  /\ isSecretFile "config/app.secret.yaml"
       (categorizeFile "config/app.secret.yaml") = true
  /\ keyRule "secret.config.yaml" = true
  /\ configRule "secret.config.yaml" = true
  /\ categorizeFile "secret.config.yaml" = "key".
Proof.
  split; [|repeat split; reflexivity].
  intros path. unfold categorizeFile.
  rewrite buildLoop_buildRule.
  cbn [firstMatch categoryRules].
  unfold envRule, keyRule, configRule, cacheRule, ideRule, keyPatterns,
    ideDirs.
  cbn [existsb].
  repeat rewrite orb_false_r. repeat rewrite orb_assoc.
  set (name := ToLower (Base path)). set (ext := ToLower (Ext path)).
  destruct (HasPrefix name ".env" || HasPrefix name "env."); [reflexivity|].
  match goal with
  | |- (if ?k then _ else _) = (if ?k' then _ else _) =>
      destruct k eqn:Hk
  end.
  { now destruct (String.eqb ext ".pem"), (String.eqb ext ".key"),
      (String.eqb ext ".p12"), (String.eqb ext ".pfx"). }
  destruct (String.eqb ext ".pem"), (String.eqb ext ".key"),
    (String.eqb ext ".p12"), (String.eqb ext ".pfx"); reflexivity.
Qed.

(** C6 (the code departs from the claim).  On [my_dist/x] none of the
    env, key and config rules match and no element of the path is a build
    directory name, yet [categorizeFile] answers [build]: its search for
    ["dist/"] is not anchored at the start of an element.  In the other
    direction [a/dist] has the element [dist] and is not [build]. *)
Theorem categorizeFile_build_not_by_segment :
  envRule "my_dist/x" = false
  /\ keyRule "my_dist/x" = false
  /\ configRule "my_dist/x" = false
  /\ hasBuildSegment "my_dist/x" = false
  /\ categorizeFile "my_dist/x" = "build"
  /\ envRule "a/dist" = false
  /\ keyRule "a/dist" = false
  /\ configRule "a/dist" = false
  /\ hasBuildSegment "a/dist" = true
  /\ categorizeFile "a/dist" = "other".
Proof. repeat split; reflexivity. Qed.

Lemma isSecretFile_spec (path category : string) :
  isSecretFile path category = true <->
  category = "env" \/ category = "key"
  \/ exists pattern,
       In pattern
         ["secret"; "credential"; "password"; "token"; "auth"; "api_key";
          "apikey"; ".npmrc"; ".netrc"; "id_rsa"; "id_dsa"; "id_ecdsa";
          "id_ed25519"]
       /\ Contains (ToLower (Base path)) pattern = true.
Proof.
  unfold isSecretFile.
  destruct (String.eqb category "env") eqn:He.
  { apply String.eqb_eq in He. simpl. tauto. }
  destruct (String.eqb category "key") eqn:Hk.
  { apply String.eqb_eq in Hk. simpl. tauto. }
  apply String.eqb_neq in He, Hk. cbn [orb].
  rewrite existsb_exists. unfold secretPatterns. tauto.
Qed.

End Classifier.

(* ===================================================================== *)
(** ** The scanner *)
(* ===================================================================== *)

Section Scanner.
Import Strings Filepath scanner Spec.

Lemma wrap64_add_l (a b : Z) : wrap64 (wrap64 a + b) = wrap64 (a + b).
Proof.
  unfold wrap64.
  replace ((a + 2 ^ 63) mod 2 ^ 64 - 2 ^ 63 + b + 2 ^ 63)%Z
    with ((a + 2 ^ 63) mod 2 ^ 64 + b)%Z by lia.
  rewrite Zplus_mod_idemp_l. f_equal. f_equal. lia.
Qed.

Lemma wrap64_small (z : Z) :
  (- 2 ^ 63 <= z < 2 ^ 63)%Z -> wrap64 z = z.
Proof. intros H. unfold wrap64. rewrite Z.mod_small; lia. Qed.

Lemma sumZ_app (l1 l2 : list Z) : sumZ (l1 ++ l2) = (sumZ l1 + sumZ l2)%Z.
Proof. induction l1 as [|x l1 IH]; simpl; [reflexivity|]. rewrite IH. lia. Qed.


Lemma scanPath_scanned s w absPath result path :
  scanPath s w absPath result path
  = match scanned s w absPath path with
    | Some f => if included s f then addFile result f else result
    | None => result
    end.
Proof.
  unfold scanPath, scanned.
  destruct (ExcludeDeps s && isInDepsDir path); [reflexivity|].
  destruct (Os.Stat w (Filepath.Join [absPath; path])) as [info|];
    [|reflexivity].
  destruct (Os.IsDir info); reflexivity.
Qed.


Lemma addFile_consistent result f :
  consistent result -> consistent (addFile result f).
Proof.
  intros [Ht Hc]. unfold consistent, addFile, secrets, add64 in *.
  cbn [IgnoredFiles TotalSize SecretCount].
  rewrite List.map_app, sumZ_app, List.filter_app, List.length_app.
  cbn [List.map sumZ fold_right List.filter].
  split.
  - rewrite Ht, wrap64_add_l. f_equal. lia.
  - destruct (IsSecret f); cbn [List.length].
    + rewrite Hc, wrap64_add_l. f_equal. lia.
    + rewrite Hc. f_equal. lia.
Qed.

Lemma scanLoop_consistent s w absPath ignoredPaths result :
  consistent result ->
  consistent (fold_left (scanPath s w absPath) ignoredPaths result).
Proof.
  revert result.
  induction ignoredPaths as [|path rest IH]; intros result H;
    [exact H|].
  cbn [fold_left]. apply IH. rewrite scanPath_scanned.
  destruct (scanned s w absPath path) as [f|]; [|exact H].
  destruct (included s f); [|exact H].
  now apply addFile_consistent.
Qed.

Lemma scanLoop_files s w absPath ignoredPaths result :
  IgnoredFiles (fold_left (scanPath s w absPath) ignoredPaths result)
  = IgnoredFiles result
    ++ List.filter (included s) (scannedFiles s w absPath ignoredPaths).
Proof.
  revert result.
  induction ignoredPaths as [|path rest IH]; intros result.
  - cbn. now rewrite List.app_nil_r.
  - cbn [fold_left]. rewrite IH, scanPath_scanned.
    unfold scannedFiles. cbn [omap list_omap].
    destruct (scanned s w absPath path) as [f|]; [|reflexivity].
    cbn [List.filter].
    destruct (included s f); [|reflexivity].
    cbn [addFile IgnoredFiles]. now rewrite <- List.app_assoc.
Qed.

(** What [Scan] returns: the empty result outside a repository, the
    result of the loop over the ignored paths inside one. *)
Lemma Scan_Some s w rootPath result :
  Scan s w rootPath = Some result ->
  exists absPath,
    Abs (Os.wd w) rootPath = Some absPath
    /\ ((isGitRepo w absPath = false
         /\ result = {| RootPath := absPath; IgnoredFiles := [];
                        TotalSize := 0; SecretCount := 0 |})
        \/ (isGitRepo w absPath = true
            /\ exists ignoredPaths,
                getGitIgnoredFiles w absPath = Some ignoredPaths
                /\ result
                   = fold_left (scanPath s w absPath) ignoredPaths
                       {| RootPath := absPath; IgnoredFiles := [];
                          TotalSize := 0; SecretCount := 0 |})).
Proof.
  unfold Scan. intros H.
  destruct (Abs (Os.wd w) rootPath) as [absPath|]; [|discriminate].
  exists absPath. split; [reflexivity|].
  destruct (isGitRepo w absPath) eqn:Hg; cbn [negb] in H.
  - destruct (getGitIgnoredFiles w absPath) as [ignoredPaths|];
      [|discriminate].
    injection H as <-. right. split; [reflexivity|]. now exists ignoredPaths.
  - injection H as <-. left. split; reflexivity.
Qed.

Lemma empty_consistent absPath :
  consistent {| RootPath := absPath; IgnoredFiles := [];
                TotalSize := 0; SecretCount := 0 |}.
Proof. split; reflexivity. Qed.

Lemma Scan_consistent s w rootPath result :
  Scan s w rootPath = Some result -> consistent result.
Proof.
  intros H. apply Scan_Some in H as (absPath & _ & [[_ ->] | [_ H]]).
  - apply empty_consistent.
  - destruct H as (ignoredPaths & _ & ->).
    apply scanLoop_consistent, empty_consistent.
Qed.

(** The entries of a result are entries the scan made and included. *)
Lemma Scan_files s w rootPath result f :
  Scan s w rootPath = Some result ->
  In f (IgnoredFiles result) ->
  exists absPath path,
    scanned s w absPath path = Some f /\ included s f = true.
Proof.
  intros H Hin. apply Scan_Some in H as (absPath & _ & [[_ ->] | [_ H]]).
  - destruct Hin.
  - destruct H as (ignoredPaths & _ & ->).
    rewrite scanLoop_files in Hin. cbn [IgnoredFiles List.app] in Hin.
    apply List.filter_In in Hin as [Hin Hinc].
    unfold scannedFiles in Hin.
    apply list_elem_of_In, list_elem_of_omap in Hin as (path & _ & Hs).
    now exists absPath, path.
Qed.

Lemma scanned_classified s w absPath path f :
  scanned s w absPath path = Some f ->
  Path f = path
  /\ Category f = categorizeFile path
  /\ IsSecret f = isSecretFile path (categorizeFile path).
Proof.
  unfold scanned. intros H.
  destruct (ExcludeDeps s && isInDepsDir path); [discriminate|].
  destruct (Os.Stat w (Filepath.Join [absPath; path])) as [info|];
    [|discriminate].
  destruct (Os.IsDir info); [discriminate|].
  injection H as <-. repeat split.
Qed.

(** C9.  Aggregate consistency: in every result of [Scan], [TotalSize] is
    the sum of the sizes of the entries of [IgnoredFiles] and
    [SecretCount] the number of its secret entries, as values of Go's
    [int64] and [int]; these are the exact sum and the exact number
    whenever those fit the type.  The entries are the ones that passed
    the filter (all of them with show-all, the secret ones without), so
    the aggregates are taken over what the result holds. *)
Theorem Scan_aggregates s w rootPath result :
  Scan s w rootPath = Some result ->
  let sizes := List.map Size (IgnoredFiles result) in
  let secretFiles := List.filter IsSecret (IgnoredFiles result) in
  TotalSize result = wrap64 (sumZ sizes)
  /\ SecretCount result = wrap64 (Z.of_nat (List.length secretFiles))
  /\ ((- 2 ^ 63 <= sumZ sizes < 2 ^ 63)%Z -> TotalSize result = sumZ sizes)
  /\ ((Z.of_nat (List.length secretFiles) < 2 ^ 63)%Z ->
      SecretCount result = Z.of_nat (List.length secretFiles))
  /\ (forall f, In f (IgnoredFiles result) ->
                ShowAll s || IsSecret f = true).
Proof.
  intros H sizes secretFiles.
  destruct (Scan_consistent _ _ _ _ H) as [Ht Hc].
  fold sizes in Ht. unfold secrets in Hc. fold secretFiles in Hc.
  repeat split; try assumption.
  - intros Hr. rewrite Ht. now apply wrap64_small.
  - intros Hr. rewrite Hc. apply wrap64_small. lia.
  - intros f Hf.
    destruct (Scan_files _ _ _ _ _ H Hf) as (absPath & path & _ & Hi).
    exact Hi.
Qed.

Lemma lowerByte_agrees c p :
  lowerByte p = p -> Ascii.eqb p (lowerByte c) = agrees c p.
Proof.
  unfold lowerByte, agrees. cbv zeta.
  pose proof (N_ascii_bounded c) as Hc.
  pose proof (N_ascii_bounded p) as Hp.
  intros Hlow.
  assert (Hnp : (65 <=? N_of_ascii p)%N && (N_of_ascii p <=? 90)%N = false).
  { destruct ((65 <=? N_of_ascii p)%N && (N_of_ascii p <=? 90)%N) eqn:E;
      [|reflexivity].
    apply (f_equal N_of_ascii) in Hlow.
    rewrite N_ascii_embedding in Hlow; [lia|].
    apply andb_true_iff in E as [_ E]. apply N.leb_le in E. lia. }
  clear Hlow.
  assert (Heq : forall a b, Ascii.eqb a b = (N_of_ascii a =? N_of_ascii b)%N).
  { intros a b. destruct (Ascii.eqb a b) eqn:E.
    - apply Ascii.eqb_eq in E. subst. now rewrite N.eqb_refl.
    - symmetry. apply N.eqb_neq. intros H. apply Ascii.eqb_neq in E.
      apply E. rewrite <- (ascii_N_embedding a), <- (ascii_N_embedding b).
      now rewrite H. }
  rewrite !Heq.
  destruct ((65 <=? N_of_ascii c)%N && (N_of_ascii c <=? 90)%N) eqn:Ec.
  - apply andb_true_iff in Ec as [E1 E2].
    apply N.leb_le in E1, E2.
    rewrite N_ascii_embedding by lia.
    apply andb_false_iff in Hnp.
    destruct (N_of_ascii p =? N_of_ascii c + 32)%N eqn:E.
    + apply N.eqb_eq in E. symmetry. apply orb_true_iff. right.
      rewrite !andb_true_iff. repeat split.
      * apply N.leb_le. lia.
      * apply N.leb_le. lia.
      * apply N.eqb_eq. lia.
    + apply N.eqb_neq in E. symmetry. apply orb_false_iff. split.
      * apply N.eqb_neq. intros H.
        destruct Hnp as [H' | H']; apply N.leb_gt in H'; lia.
      * destruct (97 <=? N_of_ascii p)%N eqn:F; [|reflexivity].
        apply N.leb_le in F. cbn [andb].
        apply andb_false_iff. right. apply N.eqb_neq. lia.
  - apply andb_false_iff in Ec.
    rewrite (N.eqb_sym (N_of_ascii p)).
    destruct (N_of_ascii c =? N_of_ascii p)%N; [reflexivity|]. cbn [orb].
    symmetry.
    destruct (97 <=? N_of_ascii p)%N eqn:F; [|reflexivity].
    destruct (N_of_ascii p <=? 122)%N eqn:G; [|reflexivity].
    apply N.leb_le in F, G. cbn [andb]. apply N.eqb_neq.
    destruct Ec as [H' | H']; apply N.leb_gt in H'; lia.
Qed.

Lemma lowerBytes_cons c p :
  lowerBytes (String c p) = String c p -> lowerByte c = c /\ lowerBytes p = p.
Proof. cbn [lowerBytes]. intros [= H1 H2]. now split. Qed.

Lemma HasPrefix_lowerBytes pattern s :
  lowerBytes pattern = pattern ->
  HasPrefix (lowerBytes s) pattern = startsWithAnyCase s pattern.
Proof.
  revert s. induction pattern as [|p ps IH]; intros s H; [reflexivity|].
  apply lowerBytes_cons in H as [Hp Hps].
  destruct s as [|c cs]; [reflexivity|].
  cbn [lowerBytes HasPrefix startsWithAnyCase].
  now rewrite (lowerByte_agrees _ _ Hp), (IH _ Hps).
Qed.

Lemma Contains_lowerBytes pattern s :
  lowerBytes pattern = pattern ->
  Contains (lowerBytes s) pattern = containsAnyCase s pattern.
Proof.
  intros H. induction s as [|c cs IH].
  - cbn [lowerBytes Contains containsAnyCase].
    now rewrite <- (HasPrefix_lowerBytes pattern "" H).
  - cbn [Contains containsAnyCase]. rewrite <- IH.
    rewrite <- (HasPrefix_lowerBytes pattern (String c cs) H). reflexivity.
Qed.

Lemma ToLower_ASCII s : isASCII s = true -> ToLower s = lowerBytes s.
Proof. unfold ToLower. now intros ->. Qed.

Lemma secretPatterns_small pattern :
  In pattern secretPatterns -> lowerBytes pattern = pattern.
Proof.
  unfold secretPatterns. cbn [In].
  intros H. repeat (destruct H as [<- | H]; [reflexivity|]). destruct H.
Qed.

(** C8.  Derivation of the secret flag: for every path the classifier
    answers secret exactly when the category is [env] or [key] or the
    base name, lowered as [strings.ToLower] does, contains one of the
    listed patterns.  For a base name of ASCII bytes that is: a part of
    the name is the pattern, up to small letters of the pattern standing
    as capitals in the name.  So [ID_RSA.bak] and [Author.MD] are secret
    by their names, [Writer.MD] is not; of the letters outside ASCII,
    the dotted capital I counts as [i] and the Kelvin sign as [k].  Hence
    an entry of a scan result whose category is [env] or [key] is
    secret. *)
Theorem isSecret_derivation :
  (forall path : string,
      isSecretFile path (categorizeFile path) = true <->
      categorizeFile path = "env" \/ categorizeFile path = "key"
      \/ exists pattern,
           In pattern
             ["secret"; "credential"; "password"; "token"; "auth";
              "api_key"; "apikey"; ".npmrc"; ".netrc"; "id_rsa"; "id_dsa";
              "id_ecdsa"; "id_ed25519"]
           /\ Contains (ToLower (Base path)) pattern = true)
  /\ (forall path : string,
         isASCII (Base path) = true ->
         (isSecretFile path (categorizeFile path) = true <->
          categorizeFile path = "env" \/ categorizeFile path = "key"
          \/ exists pattern,
               In pattern
                 ["secret"; "credential"; "password"; "token"; "auth";
                  "api_key"; "apikey"; ".npmrc"; ".netrc"; "id_rsa";
                  "id_dsa"; "id_ecdsa"; "id_ed25519"]
               /\ containsAnyCase (Base path) pattern = true))
  /\ (categorizeFile "keys/ID_RSA.bak" = "other"
      /\ isSecretFile "keys/ID_RSA.bak" "other" = true)
  /\ (categorizeFile (Cases.dottedI +:+ "D_RSA") = "other"
      /\ isSecretFile (Cases.dottedI +:+ "D_RSA") "other" = true)
  /\ (categorizeFile ("TO" +:+ Cases.kelvin +:+ "EN") = "key"
      /\ ToLower ("TO" +:+ Cases.kelvin +:+ "EN") = "token")
  /\ (categorizeFile "doc/Author.MD" = "other"
      /\ isSecretFile "doc/Author.MD" "other" = true
      /\ isSecretFile "doc/Writer.MD" (categorizeFile "doc/Writer.MD")
         = false)
  /\ (forall s w rootPath result f,
         Scan s w rootPath = Some result ->
         In f (IgnoredFiles result) ->
         Category f = "env" \/ Category f = "key" ->
         IsSecret f = true).
Proof.
  split; [|split; [|split; [|split; [|split; [|split]]]]].
  - intros path. apply isSecretFile_spec.
  - intros path Hascii. rewrite isSecretFile_spec.
    rewrite (ToLower_ASCII _ Hascii).
    split; (intros [H | [H | (pattern & Hin & H)]];
            [now left | right; now left | right; right]);
      exists pattern; (split; [exact Hin|]).
    + now rewrite <- (Contains_lowerBytes _ _ (secretPatterns_small _ Hin)).
    + now rewrite (Contains_lowerBytes _ _ (secretPatterns_small _ Hin)).
  - split; vm_compute; reflexivity.
  - split; vm_compute; reflexivity.
  - split; vm_compute; reflexivity.
  - repeat split; vm_compute; reflexivity.
  - intros s w rootPath result f H Hin Hcat.
    destruct (Scan_files _ _ _ _ _ H Hin) as (absPath & path & Hs & _).
    apply scanned_classified in Hs as (_ & Hc & ->).
    rewrite <- Hc. apply isSecretFile_spec. tauto.
Qed.

End Scanner.

(* ===================================================================== *)
(** ** Export: which files a repository contributes *)
(* ===================================================================== *)

Section Collect.
Import Strings Filepath scanner Spec cli.

Lemma collectLoop_filter (l : list IgnoredFile) (acc : list string) :
  fold_left
    (fun files f => if IsSecret f then files ++ [scanner.Path f] else files)
    l acc
  = acc ++ List.map scanner.Path (List.filter IsSecret l).
Proof.
  revert acc. induction l as [|f l IH]; intros acc; cbn [fold_left].
  - cbn. now rewrite List.app_nil_r.
  - rewrite IH. cbn [List.filter]. destruct (IsSecret f); [|reflexivity].
    cbn [List.map]. now rewrite <- List.app_assoc.
Qed.

Lemma filter_secret_included s (l : list IgnoredFile) :
  List.filter IsSecret (List.filter (included s) l) = List.filter IsSecret l.
Proof.
  induction l as [|f l IH]; [reflexivity|].
  cbn [List.filter]. unfold included at 1.
  destruct (IsSecret f) eqn:Hf.
  - rewrite orb_true_r. cbn [List.filter]. now rewrite Hf, IH.
  - rewrite orb_false_r. destruct (ShowAll s); [|exact IH].
    cbn [List.filter]. now rewrite Hf.
Qed.

Lemma collectSingleRepo_exports s w path repos r :
  collectSingleRepo s w path = Some repos ->
  In r repos ->
  repos = [r] /\ Name r = Base path /\ cli.Path r = path
  /\ exportsSecrets s w r.
Proof.
  unfold collectSingleRepo. intros H Hin.
  destruct (Scan s w path) as [result|] eqn:Hscan; [|discriminate].
  destruct (List.length (IgnoredFiles result) =? 0)%nat eqn:Hlen.
  { injection H as <-. destruct Hin. }
  rewrite collectLoop_filter in H. cbn [List.app] in H.
  match type of H with
  | context [if ?c then _ else _] => destruct c
  end.
  { injection H as <-. destruct Hin. }
  injection H as <-. destruct Hin as [<- | []].
  repeat split. unfold exportsSecrets. cbn [cli.Path Files].
  apply Scan_Some in Hscan as (absPath & Habs & [[_ ->] | [Hrepo Hscan]]).
  - discriminate Hlen.
  - destruct Hscan as (ignoredPaths & Hgit & ->).
    exists absPath, ignoredPaths. repeat split; try assumption.
    rewrite scanLoop_files. cbn [IgnoredFiles List.app].
    now rewrite filter_secret_included.
Qed.

Lemma walkRepos_Forall (P : RepoExport -> Prop) s w :
  (forall path repos r,
      collectSingleRepo s w path = Some repos -> In r repos -> P r) ->
  forall fuel path acc,
    List.Forall P acc -> List.Forall P (walkRepos fuel s w path acc).
Proof.
  intros HP.
  assert (Hgit : forall path acc,
             List.Forall P acc ->
             List.Forall P
               match collectSingleRepo s w (Dir path) with
               | Some (r :: rs) => acc ++ r :: rs
               | _ => acc
               end).
  { intros path acc Hacc.
    destruct (collectSingleRepo s w (Dir path)) as [[|r rs]|] eqn:Hc;
      try assumption.
    apply List.Forall_app. split; [assumption|].
    apply List.Forall_forall. intros r' Hr'. eapply HP; eassumption. }
  induction fuel as [|fuel IH]; intros path acc Hacc; cbn [walkRepos];
    destruct (Os.tree w !! path) as [[|m d]|]; try assumption;
    destruct (String.eqb (Base path) ".git"); try (now apply Hgit);
    destruct (existsb (String.eqb (Base path)) skipDirs); try assumption.
  generalize (children (Os.tree w) path). intros ks. revert acc Hacc.
  induction ks as [|k ks IHks]; intros acc Hacc; cbn [fold_left];
    [assumption|].
  apply IHks, IH, Hacc.
Qed.

End Collect.

(* ===================================================================== *)
(** ** Import: destinations and the loop over the archive *)
(* ===================================================================== *)

Section Importing.
Import Strings Filepath Spec cli.

Lemma Index_separator (r rest : string) :
  Contains r "/" = false ->
  Index (r +:+ "/" +:+ rest) "/" = Some (String.length r).
Proof.
  induction r as [|c r IH]; intros H.
  - reflexivity.
  - rewrite append_cons. cbn [Contains] in H.
    apply orb_false_iff in H as [Hp Hc].
    cbn [Index]. cbn [HasPrefix] in Hp |- *. rewrite Hp.
    rewrite (IH Hc). reflexivity.
Qed.

Lemma sliceTo_app (r rest : string) :
  sliceTo (String.length r) (r +:+ rest) = r.
Proof.
  induction r as [|c r IH]; [reflexivity|].
  rewrite append_cons. cbn. now rewrite IH.
Qed.

Lemma sliceFrom_separator (r rest : string) :
  sliceFrom (String.length r + 1) (r +:+ "/" +:+ rest) = rest.
Proof.
  induction r as [|c r IH]; [reflexivity|].
  rewrite append_cons. cbn. exact IH.
Qed.

(** [files/<repoName>/<filePath>] splits into its two parts. *)
Lemma SplitN_entry (repoName filePath : string) :
  Contains repoName "/" = false ->
  SplitN (TrimPrefix (entryName repoName filePath) "files/") "/" 2
  = [repoName; filePath].
Proof.
  intros H. unfold entryName. rewrite TrimPrefix_app.
  change (SplitN ?s "/" 2) with (genSplit 1 s "/").
  cbn [genSplit].
  rewrite (Index_separator _ _ H), sliceTo_app.
  cbn [String.length]. now rewrite sliceFrom_separator.
Qed.

(** A name under [files/] without a further separator has one part. *)
Lemma SplitN_single (s : string) :
  Contains s "/" = false ->
  SplitN (TrimPrefix ("files/" +:+ s) "files/") "/" 2 = [s].
Proof.
  intros H. rewrite TrimPrefix_app.
  change (SplitN ?s "/" 2) with (genSplit 1 s "/").
  cbn [genSplit].
  rewrite Contains_Index in H. now destruct (Index s "/").
Qed.

Lemma find_app {A} (f : A -> bool) (l1 l2 : list A) :
  List.find f (l1 ++ l2)
  = match List.find f l1 with
    | Some x => Some x
    | None => List.find f l2
    end.
Proof.
  induction l1 as [|x l1 IH]; [reflexivity|].
  cbn [List.app List.find]. now destruct (f x).
Qed.

(** The map of [importFiles] holds, for a name, the last repository of
    the manifest that has it. *)
Lemma repoMap_lookup (repos : list RepoExport)
    (m0 : gmap string RepoExport) (n : string) :
  fold_left (fun m repo => <[Name repo := repo]> m) repos m0 !! n
  = match List.find (fun r => String.eqb (Name r) n) (rev repos) with
    | Some r => Some r
    | None => m0 !! n
    end.
Proof.
  revert m0. induction repos as [|r repos IH]; intros m0; [reflexivity|].
  cbn [fold_left rev]. rewrite IH.
  rewrite find_app.
  destruct (List.find _ (rev repos)) as [r'|]; [reflexivity|].
  cbn [List.find].
  destruct (String.eqb (Name r) n) eqn:Hn.
  - apply String.eqb_eq in Hn. subst n. apply lookup_insert_eq.
  - apply String.eqb_neq in Hn. now apply lookup_insert_ne.
Qed.

Lemma repoMapOf_Some manifest n :
  In n (List.map Name (Repos manifest)) ->
  exists repo,
    repoMapOf manifest !! n = Some repo
    /\ In repo (Repos manifest) /\ Name repo = n.
Proof.
  intros H. unfold repoMapOf. rewrite repoMap_lookup.
  destruct (List.find _ (rev (Repos manifest))) as [r|] eqn:Hf.
  - apply List.find_some in Hf as [Hin Hn].
    apply String.eqb_eq in Hn. exists r. repeat split; try assumption.
    now apply List.in_rev.
  - apply List.in_map_iff in H as (r & Hn & Hin).
    apply List.in_rev in Hin.
    apply (List.find_none _ _ Hf) in Hin.
    apply String.eqb_neq in Hin. contradiction.
Qed.

Lemma repoMapOf_None manifest n :
  ~ In n (List.map Name (Repos manifest)) ->
  repoMapOf manifest !! n = None.
Proof.
  intros H. unfold repoMapOf. rewrite repoMap_lookup.
  destruct (List.find _ (rev (Repos manifest))) as [r|] eqn:Hf;
    [|apply lookup_empty].
  apply List.find_some in Hf as [Hin Hn].
  apply String.eqb_eq in Hn. exfalso. apply H.
  apply List.in_map_iff. exists r. split; [assumption|].
  now apply List.in_rev.
Qed.

(** The body of the loop on an entry of a repository of the manifest. *)
Lemma importFile_entry flags manifest w out file repoName filePath repo :
  Zip.Name file = entryName repoName filePath ->
  Contains repoName "/" = false ->
  repoMapOf manifest !! repoName = Some repo ->
  importFile flags (repoMapOf manifest) (w, out) file
  = let destPath := resolveDestPath flags w repo filePath in
    match Os.MkdirAll w (Dir destPath) with
    | None => (w, out ++ [Failed filePath])
    | Some w1 =>
        let (w2, ok) := extractFile w1 file destPath in
        if ok then (w2, out ++ [Extracted destPath])
        else (w2, out ++ [Failed filePath])
    end.
Proof.
  intros Hname Hsep Hrepo. unfold importFile.
  rewrite Hname. rewrite (SplitN_entry _ _ Hsep).
  unfold entryName at 1. rewrite HasPrefix_app. cbn [negb].
  now rewrite Hrepo.
Qed.

(** The entries the loop passes over. *)
Lemma importFile_skip flags manifest st file :
  HasPrefix (Zip.Name file) "files/" = false
  \/ (exists s, Zip.Name file = "files/" +:+ s /\ Contains s "/" = false)
  \/ (exists repoName filePath,
        Zip.Name file = entryName repoName filePath
        /\ Contains repoName "/" = false
        /\ ~ In repoName (List.map Name (Repos manifest))) ->
  importFile flags (repoMapOf manifest) st file = st.
Proof.
  destruct st as [w out]. unfold importFile.
  intros [H | [(s & Hn & Hs) | (repoName & filePath & Hn & Hs & Hno)]].
  - now rewrite H.
  - rewrite Hn, HasPrefix_app, (SplitN_single _ Hs). reflexivity.
  - rewrite Hn, (SplitN_entry _ _ Hs). unfold entryName at 1.
    rewrite HasPrefix_app. cbn [negb].
    now rewrite (repoMapOf_None _ _ Hno).
Qed.

(** The loop goes on after every entry: the entries after a prefix of
    the archive are handled from where the prefix left off. *)
Lemma importFiles_app flags w before after manifest :
  importFiles flags w (before ++ after) manifest
  = fold_left (importFile flags (repoMapOf manifest)) after
      (importFiles flags w before manifest).
Proof. unfold importFiles. apply List.fold_left_app. Qed.

(** The outcomes of [extractFile]: nothing was written, or the
    destination was written with what the reader of the entry gave; it
    returns without error when the entry was read in full and the
    destination could be written, and only then. *)
Lemma extractFile_inv w file destPath w' ok :
  extractFile w file destPath = (w', ok) ->
  (w' = w /\ ok = false
   /\ (Zip.Read file = Zip.OpenError
       \/ Os.writeRegular true w destPath (chmodBits (Zip.Mode file))
            (Zip.Data file) = None))
  \/ (Os.writeRegular true w destPath (chmodBits (Zip.Mode file))
        (Zip.Data file) = Some w'
      /\ (Zip.Read file = Zip.Full /\ ok = true
          \/ Zip.Read file = Zip.ReadError /\ ok = false)).
Proof.
  unfold extractFile. intros H.
  destruct (Zip.Read file);
    [| injection H as <- <-; left; auto | ];
    (destruct (Os.writeRegular _ _ _ _ _) as [w1|];
       injection H as <- <-; [right | left]; auto).
Qed.

Lemma extractFile_full w file destPath :
  Zip.Read file = Zip.Full ->
  extractFile w file destPath
  = match Os.writeRegular true w destPath (chmodBits (Zip.Mode file))
            (Zip.Data file) with
    | Some w' => (w', true)
    | None => (w, false)
    end.
Proof. unfold extractFile. now intros ->. Qed.

(** What [writeRegular] wrote can be read back. *)
Lemma writeRegular_read b w destPath m d w' :
  Os.writeRegular b w destPath m d = Some w' ->
  Os.ReadFile w' destPath = Some d.
Proof.
  unfold Os.writeRegular, Os.ReadFile. intros H.
  destruct (Os.resolve w destPath) as [p|] eqn:Hp; [|discriminate].
  assert (Hres : forall t, Os.resolve (Os.withTree w t) destPath = Some p)
    by (intros t; exact Hp).
  destruct (Os.tree w !! Dir p) as [[|? ?]|]; try discriminate.
  destruct (Os.tree w !! p) as [[|m0 d0]|]; try discriminate;
    injection H as <-; rewrite Hres; cbn [Os.tree Os.withTree];
    now rewrite lookup_insert_eq.
Qed.

(** A file that was extracted can be read back. *)
Lemma extractFile_read w file destPath w' :
  extractFile w file destPath = (w', true) ->
  Os.ReadFile w' destPath = Some (Zip.Data file).
Proof.
  intros H. apply extractFile_inv in H as [(_ & H & _) | (H & _)];
    [discriminate|]. now apply writeRegular_read in H.
Qed.

Lemma importFiles_cons flags w before file after manifest :
  importFiles flags w (before ++ file :: after) manifest
  = fold_left (importFile flags (repoMapOf manifest)) after
      (importFile flags (repoMapOf manifest)
         (importFiles flags w before manifest) file).
Proof. now rewrite importFiles_app. Qed.

(** A restore that is neither a dry run nor declined runs [importFiles]
    and then [importPatterns]; the failure of a file is no error. *)
Lemma runImport_confirmed yamlUnmarshal flags archivePath w reader manifest :
  Os.zipOpen w archivePath = Some reader ->
  readManifest yamlUnmarshal reader = Some manifest ->
  confirmed flags w = true ->
  runImport yamlUnmarshal flags archivePath w
  = Some (fst (importPatterns
                 (fst (importFiles flags w reader manifest)) reader),
          snd (importFiles flags w reader manifest)).
Proof.
  intros Hzip Hman Hc. unfold runImport. rewrite Hzip, Hman.
  unfold confirmed in Hc. apply andb_true_iff in Hc as [Hdry Hyes].
  destruct (importDryRun flags); [discriminate|].
  destruct (importYes flags); cbn [negb andb].
  - now destruct (importFiles flags w reader manifest).
  - cbn [orb] in Hyes.
    destruct (String.eqb _ "y"); cbn [negb andb orb] in *.
    + now destruct (importFiles flags w reader manifest).
    + rewrite Hyes. cbn [negb].
      now destruct (importFiles flags w reader manifest).
Qed.

(** C5.  Destination fallback order: with a base directory given the
    destination is [baseDir/repo.Name/file]; otherwise, if [repo.Path]
    is a directory of this machine, [repo.Path/file]; otherwise
    [./repo.Name/file], each joined as [filepath.Join] does.  A path is a
    directory of the machine when its node in the file tree is one. *)
Theorem resolveDestPath_order flags w repo filePath :
  (importBaseDir flags <> "" ->
   resolveDestPath flags w repo filePath
   = Filepath.Join [importBaseDir flags; Name repo; filePath])
  /\ (importBaseDir flags = "" -> dirExists w (Path repo) = true ->
      resolveDestPath flags w repo filePath
      = Filepath.Join [Path repo; filePath])
  /\ (importBaseDir flags = "" -> dirExists w (Path repo) = false ->
      resolveDestPath flags w repo filePath
      = Filepath.Join ["."; Name repo; filePath])
  /\ (dirExists w (Path repo) = true <->
      exists key, Os.resolve w (Path repo) = Some key
                  /\ Os.tree w !! key = Some Os.Directory).
Proof.
  unfold resolveDestPath. repeat split.
  - intros H. apply String.eqb_neq in H. now rewrite H.
  - intros -> ->. reflexivity.
  - intros -> ->. reflexivity.
  - unfold dirExists, Os.Stat. intros H.
    destruct (Os.resolve w (Path repo)) as [key|]; [|discriminate].
    exists key. split; [reflexivity|].
    destruct (Os.tree w !! key) as [[|m d]|]; try discriminate.
    reflexivity.
  - intros (key & Hk & Ht). unfold dirExists, Os.Stat.
    now rewrite Hk, Ht.
Qed.

(** *** What the loop prints, and what of the manifest it reads *)

Lemma repoMapOf_names manifest n :
  existsb (String.eqb n) (List.map Name (Repos manifest))
  = match repoMapOf manifest !! n with Some _ => true | None => false end.
Proof.
  destruct (existsb _ _) eqn:He.
  - apply existsb_exists in He as (x & Hin & Hx).
    apply String.eqb_eq in Hx. subst x.
    destruct (repoMapOf_Some _ _ Hin) as (repo & -> & _). reflexivity.
  - rewrite repoMapOf_None; [reflexivity|]. intros Hin.
    assert (Ht : existsb (String.eqb n) (List.map Name (Repos manifest))
                 = true).
    { apply existsb_exists. exists n. split; [assumption|].
      apply String.eqb_refl. }
    congruence.
Qed.

(** One outcome is printed for a handled entry, none for another. *)
Lemma importFile_outcome flags manifest w out file :
  if handled manifest file
  then exists w' o,
      importFile flags (repoMapOf manifest) (w, out) file = (w', out ++ [o])
  else importFile flags (repoMapOf manifest) (w, out) file = (w, out).
Proof.
  unfold handled, importFile.
  destruct (HasPrefix (Zip.Name file) "files/"); cbn [negb andb];
    [|reflexivity].
  destruct (SplitN _ "/" 2) as [|repoName [|filePath rest]];
    try reflexivity.
  rewrite repoMapOf_names.
  destruct (repoMapOf manifest !! repoName) as [repo|]; [|reflexivity].
  destruct (Os.MkdirAll w _) as [w1|]; [|now eexists _, _].
  destruct (extractFile w1 file _) as [w2 [|]]; now eexists _, _.
Qed.

Lemma importLoop_length flags manifest reader st :
  List.length (snd (fold_left (importFile flags (repoMapOf manifest))
                      reader st))
  = (List.length (snd st)
     + List.length (List.filter (handled manifest) reader))%nat.
Proof.
  revert st. induction reader as [|file reader IH]; intros [w out].
  - cbn. lia.
  - cbn [fold_left List.filter]. rewrite IH.
    pose proof (importFile_outcome flags manifest w out file) as H.
    destruct (handled manifest file).
    + destruct H as (w' & o & ->). cbn [snd List.length].
      rewrite List.length_app. cbn. lia.
    + rewrite H. reflexivity.
Qed.


Lemma importFile_sameRepo flags (m1 m2 : gmap string RepoExport) st file :
  (forall n, sameRepo (m1 !! n) (m2 !! n)) ->
  importFile flags m1 st file = importFile flags m2 st file.
Proof.
  intros H. destruct st as [w out]. unfold importFile.
  destruct (HasPrefix (Zip.Name file) "files/"); cbn [negb];
    [|reflexivity].
  destruct (SplitN _ "/" 2) as [|repoName [|filePath rest]];
    try reflexivity.
  specialize (H repoName). unfold sameRepo in H.
  destruct (m1 !! repoName) as [r1|], (m2 !! repoName) as [r2|];
    try contradiction; [|reflexivity].
  destruct H as [Hn Hp].
  assert (Hd : forall w', resolveDestPath flags w' r1 filePath
                          = resolveDestPath flags w' r2 filePath).
  { intros w'. unfold resolveDestPath. now rewrite Hn, Hp. }
  now rewrite Hd.
Qed.

Lemma find_map_name (g : RepoExport -> RepoExport) n l :
  (forall r, Name (g r) = Name r) ->
  List.find (fun r => String.eqb (Name r) n) (List.map g l)
  = option_map g (List.find (fun r => String.eqb (Name r) n) l).
Proof.
  intros Hg. induction l as [|r l IH]; [reflexivity|].
  cbn [List.map List.find]. rewrite Hg.
  destruct (String.eqb (Name r) n); [reflexivity|exact IH].
Qed.

Lemma repoMapOf_unlist repoName filePath manifest n :
  sameRepo (repoMapOf (unlist repoName filePath manifest) !! n)
    (repoMapOf manifest !! n).
Proof.
  unfold repoMapOf, unlist. cbn [Repos].
  rewrite !repoMap_lookup, <- List.map_rev.
  rewrite find_map_name
    by (intros r; now destruct (String.eqb (Name r) repoName)).
  destruct (List.find _ (rev (Repos manifest))) as [r|]; cbn.
  - now destruct (String.eqb (Name r) repoName).
  - now rewrite lookup_empty.
Qed.

Lemma importFiles_unlist flags w reader manifest repoName filePath :
  importFiles flags w reader (unlist repoName filePath manifest)
  = importFiles flags w reader manifest.
Proof.
  unfold importFiles. generalize (w, @nil outcome).
  induction reader as [|file reader IH]; intros st; [reflexivity|].
  cbn [fold_left]. rewrite IH. f_equal.
  apply importFile_sameRepo. apply repoMapOf_unlist.
Qed.

(** C2 (as the code has it).  An archive whose manifest lists a file
    that has no [files/<repo>/<path>] entry is restored without error and
    exactly as if the manifest did not list the file: nothing is printed
    for it, neither a failure nor a success.  The outcomes are one for
    each archive entry under [files/] of a repository of the manifest,
    all of which are handled. *)
Theorem missing_entry_is_passed_over
    yamlUnmarshal flags archivePath w reader manifest repo filePath :
  Os.zipOpen w archivePath = Some reader ->
  readManifest yamlUnmarshal reader = Some manifest ->
  confirmed flags w = true ->
  In repo (Repos manifest) ->
  In filePath (Files repo) ->
  (forall file, In file reader ->
                Zip.Name file <> entryName (Name repo) filePath) ->
  let result := importFiles flags w reader manifest in
  (exists w',
      runImport yamlUnmarshal flags archivePath w
      = Some (w', snd result))
  /\ List.length (snd result)
     = List.length (List.filter (handled manifest) reader)
  /\ importFiles flags w reader (unlist (Name repo) filePath manifest)
     = result.
Proof.
  intros Hzip Hman Hc _ _ _ result. split; [|split].
  - rewrite (runImport_confirmed _ _ _ _ _ _ Hzip Hman Hc).
    now eexists.
  - subst result. unfold importFiles. now rewrite importLoop_length.
  - apply importFiles_unlist.
Qed.

End Importing.

(* ===================================================================== *)
(** ** Export, then import *)
(* ===================================================================== *)

Section RoundTrip.
Import Strings Filepath Spec cli.

Lemma collectSingleRepo_value s w path absPath ignoredPaths :
  Abs (Os.wd w) path = Some absPath ->
  scanner.isGitRepo w absPath = true ->
  scanner.getGitIgnoredFiles w absPath = Some ignoredPaths ->
  let files :=
    List.map scanner.Path
      (List.filter scanner.IsSecret
         (scannedFiles s w absPath ignoredPaths)) in
  files <> [] ->
  collectSingleRepo s w path
  = Some [ {| Name := Base path; Path := path; Files := files |} ].
Proof.
  intros Habs Hrepo Hgit files Hne. unfold collectSingleRepo, scanner.Scan.
  rewrite Habs, Hrepo, Hgit. cbn [negb].
  rewrite collectLoop_filter, scanLoop_files.
  cbn [scanner.IgnoredFiles List.app]. rewrite filter_secret_included.
  fold files.
  destruct files as [|f fs] eqn:Hf; [contradiction|].
  destruct (List.filter (included s) _) as [|x xs] eqn:Hx.
  { apply (f_equal (List.filter scanner.IsSecret)) in Hx.
    rewrite filter_secret_included in Hx. unfold files in Hf. rewrite Hx in Hf. discriminate. }
  reflexivity.
Qed.

Lemma writeRegular_inv c w p m d w' :
  Os.writeRegular c w p m d = Some w' ->
  exists k n,
    Os.resolve w p = Some k /\ w' = Os.withTree w (<[k := n]> (Os.tree w)).
Proof.
  unfold Os.writeRegular. intros H.
  destruct (Os.resolve w p) as [k|]; [|discriminate].
  destruct (Os.tree w !! Dir k) as [[|? ?]|]; try discriminate.
  destruct (Os.tree w !! k) as [[|m0 d0]|]; try discriminate;
    injection H as <-; eauto.
Qed.

Lemma mkdirs_preserves ds (t t' : gmap string Os.node) k n :
  Os.mkdirs ds t = Some t' -> t !! k = Some n -> t' !! k = Some n.
Proof.
  revert t. induction ds as [|d ds IH]; intros t H Hk; cbn [Os.mkdirs] in H.
  - now injection H as <-.
  - destruct (t !! d) as [[|? ?]|] eqn:Hd; try discriminate.
    + now apply (IH t).
    + apply (IH _ H). rewrite lookup_insert_ne; [assumption|].
      intros ->. congruence.
Qed.

Lemma MkdirAll_preserves w path w' k n :
  Os.MkdirAll w path = Some w' ->
  Os.tree w !! k = Some n -> Os.tree w' !! k = Some n.
Proof.
  unfold Os.MkdirAll. intros H Hk.
  destruct (Os.resolve w path) as [p|]; [|discriminate].
  destruct (Os.mkdirs (Os.chain p) (Os.tree w)) as [t'|] eqn:Hm;
    [|discriminate].
  injection H as <-. cbn. now apply (mkdirs_preserves _ _ _ _ _ Hm).
Qed.

Lemma MkdirAll_frame w path w' :
  Os.MkdirAll w path = Some w' -> exists t, w' = Os.withTree w t.
Proof.
  unfold Os.MkdirAll. intros H.
  destruct (Os.resolve w path) as [p|]; [|discriminate].
  destruct (Os.mkdirs (Os.chain p) (Os.tree w)) as [t'|]; [|discriminate].
  injection H as <-. now exists t'.
Qed.

Lemma importPatterns_preserves w reader k n :
  Os.tree w !! k = Some n ->
  (forall pp, config.PatternsFilePath w = Some pp ->
              Os.resolve w pp <> Some k) ->
  Os.tree (fst (importPatterns w reader)) !! k = Some n.
Proof.
  intros Hk Hpp. induction reader as [|file reader IH]; [exact Hk|].
  cbn [importPatterns].
  destruct (String.eqb (Zip.Name file) "patterns.yaml"); [|exact IH].
  destruct (Zip.Read file); [|exact Hk|exact Hk].
  destruct (config.DefaultConfigDir w) as [configDir|]; [|exact Hk].
  destruct (Os.MkdirAll w configDir) as [w1|] eqn:Hmk; [|exact Hk].
  pose proof (MkdirAll_preserves _ _ _ _ _ Hmk Hk) as Hk1.
  destruct (MkdirAll_frame _ _ _ Hmk) as (t & ->).
  change (config.PatternsFilePath (Os.withTree w t))
    with (config.PatternsFilePath w).
  destruct (config.PatternsFilePath w) as [pp|] eqn:Hp; [|exact Hk1].
  specialize (Hpp pp eq_refl).
  destruct (Os.WriteFile _ pp _ 420) as [w2|] eqn:Hw; [|exact Hk1].
  apply writeRegular_inv in Hw as (k' & n' & Hres & ->).
  cbn [fst Os.tree Os.withTree]. rewrite lookup_insert_ne; [exact Hk1|].
  intros ->. apply Hpp. exact Hres.
Qed.

Lemma resolve_withTree w t p : Os.resolve (Os.withTree w t) p = Os.resolve w p.
Proof. reflexivity. Qed.


Lemma resolve_abs w p :
  IsAbs p = true -> Os.resolve w p = Some (Clean p).
Proof.
  intros H. unfold Os.resolve, Abs. rewrite H.
  destruct p; [discriminate|reflexivity].
Qed.

Lemma withTree_withTree w t1 t2 :
  Os.withTree (Os.withTree w t1) t2 = Os.withTree w t2.
Proof. reflexivity. Qed.

(** Directories can be made along a chain that no regular file is in
    the way of; the chain is then made of directories and nothing else
    has changed. *)
Lemma mkdirs_ok ds (t : gmap string Os.node) :
  (forall d, In d ds -> t !! d = None \/ t !! d = Some Os.Directory) ->
  exists t',
    Os.mkdirs ds t = Some t'
    /\ (forall d, In d ds -> t' !! d = Some Os.Directory)
    /\ (forall k, ~ In k ds -> t' !! k = t !! k).
Proof.
  revert t. induction ds as [|d ds IH]; intros t H.
  - exists t. repeat split. intros d [].
  - cbn [Os.mkdirs].
    destruct (H d (or_introl eq_refl)) as [Hd | Hd]; rewrite Hd.
    + destruct (IH (<[d := Os.Directory]> t)) as (t' & Hm & Hin & Hout).
      { intros d' Hd'. destruct (decide (d = d')) as [<- | Hne].
        - right. apply lookup_insert_eq.
        - rewrite lookup_insert_ne by assumption. apply H. now right. }
      exists t'. split; [exact Hm|]. split.
      * intros d' [<- | Hd']; [|now apply Hin].
        destruct (in_dec string_dec d ds) as [Hi | Hni]; [now apply Hin|].
        rewrite (Hout _ Hni). apply lookup_insert_eq.
      * intros k Hk. rewrite Hout by (intros Hi; apply Hk; now right).
        apply lookup_insert_ne. intros ->. apply Hk. now left.
    + destruct (IH t) as (t' & Hm & Hin & Hout).
      { intros d' Hd'. apply H. now right. }
      exists t'. split; [exact Hm|]. split.
      * intros d' [<- | Hd']; [|now apply Hin].
        destruct (in_dec string_dec d ds) as [Hi | Hni]; [now apply Hin|].
        now rewrite (Hout _ Hni).
      * intros k Hk. apply Hout. intros Hi. apply Hk. now right.
Qed.

(** Extracting an entry below a base directory into a tree where the
    directories down to the parent can be made and the file is absent. *)
Lemma extract_fresh flags manifest w out file repoName filePath repo
    destPath :
  Zip.Name file = entryName repoName filePath ->
  Zip.Read file = Zip.Full ->
  Contains repoName "/" = false ->
  repoMapOf manifest !! repoName = Some repo ->
  resolveDestPath flags w repo filePath = destPath ->
  IsAbs destPath = true -> Clean destPath = destPath ->
  Clean (Dir destPath) = Dir destPath ->
  IsAbs (Dir destPath) = true ->
  Dir destPath <> destPath ->
  ~ In destPath (Os.chain (Dir destPath)) ->
  In (Dir destPath) (Os.chain (Dir destPath)) ->
  (forall k, In k (Os.chain (Dir destPath)) ->
             Os.tree w !! k = None \/ Os.tree w !! k = Some Os.Directory) ->
  Os.tree w !! destPath = None ->
  exists t',
    importFile flags (repoMapOf manifest) (w, out) file
    = (Os.withTree w t', out ++ [Extracted destPath])
    /\ t' !! destPath
       = Some (Os.Regular (chmodBits (Zip.Mode file)) (Zip.Data file))
    /\ (forall k, In k (Os.chain (Dir destPath)) ->
                  t' !! k = Some Os.Directory)
    /\ (forall k, ~ In k (Os.chain (Dir destPath)) -> k <> destPath ->
                  t' !! k = Os.tree w !! k).
Proof.
  intros Hname Hfull Hsep Hrepo Hdest Habs Hclean Hcleand Habsd Hne Hnotin
    Hin Hchain Hfresh.
  rewrite (importFile_entry _ _ _ _ _ _ _ _ Hname Hsep Hrepo).
  rewrite Hdest. cbv zeta.
  destruct (mkdirs_ok _ _ Hchain) as (t1 & Hmk & Hdirs & Hrest).
  unfold Os.MkdirAll. rewrite (resolve_abs _ _ Habsd), Hcleand, Hmk.
  cbn [option_map].
  rewrite (extractFile_full _ _ _ Hfull). unfold Os.writeRegular.
  rewrite resolve_withTree, (resolve_abs _ _ Habs), Hclean.
  cbn [Os.tree Os.withTree].
  rewrite (Hdirs _ Hin), (Hrest _ Hnotin), Hfresh.
  eexists. split; [reflexivity|]. split; [apply lookup_insert_eq|]. split.
  - intros k Hk. rewrite lookup_insert_ne; [now apply Hdirs|].
    intros <-. contradiction.
  - intros k Hk Hkd. rewrite lookup_insert_ne by congruence.
    now apply Hrest.
Qed.

Ltac notin := vm_compute; intuition discriminate.

(** C1.  Round trip: for a repository whose directory is named [my-app]
    and whose secret ignored files are [.env] and [config/.env.local],
    the export writes an archive, and the import of this archive with
    the base directory [/tmp/restore] into an empty destination prints
    two successes and no failure and leaves both files under
    [/tmp/restore/my-app] with the content they had in the repository.
    The yaml library is assumed to give back the repositories of this
    manifest, and the output file is none of the two files. *)
Theorem export_import_round_trip
    yamlMarshal yamlUnmarshal src eflags outputPath repoPath ignoredPaths
    key1 mode1 data1 key2 mode2 data2 :
  exportRecursive eflags = false ->
  Abs (Os.wd src) (exportPath eflags) = Some repoPath ->
  Abs (Os.wd src) repoPath = Some repoPath ->
  Base repoPath = "my-app" ->
  scanner.isGitRepo src repoPath = true ->
  scanner.getGitIgnoredFiles src repoPath = Some ignoredPaths ->
  List.map scanner.Path
    (List.filter scanner.IsSecret
       (scannedFiles (exportScanner eflags) src repoPath ignoredPaths))
  = [".env"; "config/.env.local"] ->
  Os.resolve src (Filepath.Join [repoPath; ".env"]) = Some key1 ->
  Os.tree src !! key1 = Some (Os.Regular mode1 data1) ->
  Os.resolve src (Filepath.Join [repoPath; "config/.env.local"])
  = Some key2 ->
  Os.tree src !! key2 = Some (Os.Regular mode2 data2) ->
  is_Some (Os.writeRegular false src outputPath modeCreate []) ->
  Os.resolve src outputPath <> Some key1 ->
  Os.resolve src outputPath <> Some key2 ->
  (exists d m,
      yamlMarshal (myAppManifest src repoPath) = Some d
      /\ yamlUnmarshal d = Some m
      /\ Repos m = Repos (myAppManifest src repoPath)) ->
  exists src' archive,
    runExport yamlMarshal eflags outputPath src = Some (src', Some archive)
    /\ forall tgt iflags archivePath,
        Os.zipOpen tgt archivePath = Some archive ->
        emptyDestination tgt "/tmp/restore" ->
        importBaseDir iflags = "/tmp/restore" ->
        confirmed iflags tgt = true ->
        exists tgt' out,
          runImport yamlUnmarshal iflags archivePath tgt = Some (tgt', out)
          /\ Os.ReadFile tgt' "/tmp/restore/my-app/.env" = Some data1
          /\ Os.ReadFile tgt' "/tmp/restore/my-app/config/.env.local"
             = Some data2
          /\ out = [Extracted "/tmp/restore/my-app/.env";
                    Extracted "/tmp/restore/my-app/config/.env.local"]
          /\ List.length (successes out) = 2%nat
          /\ List.length (failures out) = 0%nat.
Proof.
  intros Hrec Habs Habs' Hbase Hrepo Hgit Hfiles Hk1 Ht1 Hk2 Ht2
    [src1 Hout] Ho1 Ho2 (d & m & Hmar & Hunm & Hrepos).
  (* export *)
  unfold runExport. rewrite Habs, Hrec.
  change {| scanner.ShowAll := _; scanner.Categories := _;
            scanner.ExcludeDeps := _ |} with (exportScanner eflags).
  rewrite (collectSingleRepo_value _ _ _ _ _ Habs' Hrepo Hgit)
    by (rewrite Hfiles; discriminate).
  rewrite Hfiles, Hbase. cbn [List.length Nat.eqb].
  unfold createExportZip. rewrite Hout.
  destruct (writeRegular_inv _ _ _ _ _ _ Hout) as (ko & no & Hko & ->).
  change (yamlMarshal _) with (yamlMarshal (myAppManifest src repoPath)).
  rewrite Hmar.
  set (w1 := Os.withTree src (<[ko:=no]> (Os.tree src))).
  set (entry := {| Zip.Name := "manifest.yaml"; Zip.Mode := modeCreate;
                   Zip.Data := d; Zip.Read := Zip.Full |}).
  set (e1 := {| Zip.Name := "files/my-app/.env"; Zip.Mode := mode1;
                Zip.Data := data1; Zip.Read := Zip.Full |}).
  set (e2 := {| Zip.Name := "files/my-app/config/.env.local";
                Zip.Mode := mode2; Zip.Data := data2; Zip.Read := Zip.Full |}).
  match goal with
  | |- context [exportFiles w1 ?z _] => set (zw := z)
  end.
  assert (Hzw : zw = [entry]
                \/ exists pd, zw = [entry; {| Zip.Name := "patterns.yaml";
                                              Zip.Mode := modeCreate;
                                              Zip.Data := pd;
                                              Zip.Read := Zip.Full |}]).
  { subst zw. destruct (config.PatternsFilePath w1) as [pp|]; [|now left].
    destruct (Os.ReadFile w1 pp) as [pd|]; [right; now exists pd|now left]. }
  clearbody zw.
  assert (Hne1 : ko <> key1) by congruence.
  assert (Hne2 : ko <> key2) by congruence.
  assert (Hexp : exportFiles w1 zw
                   [ {| Name := "my-app"; Path := repoPath;
                        Files := [".env"; "config/.env.local"] |} ]
                 = zw ++ [e1; e2]).
  { unfold exportFiles. cbn [fold_left Files Path Name].
    unfold addFileToZip. subst w1.
    rewrite !resolve_withTree, Hk1. cbn [Os.tree Os.withTree].
    rewrite (lookup_insert_ne _ _ _ _ Hne1), Ht1. cbn [fst].
    rewrite Hk2, (lookup_insert_ne _ _ _ _ Hne2), Ht2. cbn [fst].
    rewrite <- List.app_assoc. reflexivity. }
  rewrite Hexp. eexists _, _. split; [reflexivity|].
  (* import *)
  intros tgt iflags archivePath Hzip [Hroot Hempty] Hdir Hconf.
  assert (Hman : readManifest yamlUnmarshal (zw ++ [e1; e2]) = Some m).
  { destruct Hzw as [-> | (pd & ->)]; exact Hunm. }
  rewrite (runImport_confirmed _ _ _ _ _ _ Hzip Hman Hconf).
  eexists _, _. split; [reflexivity|].
  set (repo := {| Name := "my-app"; Path := repoPath;
                  Files := [".env"; "config/.env.local"] |}).
  assert (Hmap : repoMapOf m !! "my-app" = Some repo).
  { unfold repoMapOf. rewrite Hrepos. apply lookup_insert_eq. }
  assert (Hdest : forall w f,
             resolveDestPath iflags w repo f
             = Filepath.Join ["/tmp/restore"; "my-app"; f]).
  { intros w f. unfold resolveDestPath. now rewrite Hdir. }
  (* the entries before the files are passed over *)
  assert (Hskip : importFiles iflags tgt zw m = (tgt, [])).
  { unfold importFiles.
    destruct Hzw as [-> | (pd & ->)]; cbn [fold_left];
      repeat rewrite importFile_skip by (left; reflexivity); reflexivity. }
  rewrite importFiles_app, Hskip. cbn [fold_left].
  (* the first file *)
  assert (Hc1 : forall k,
             In k (Os.chain (Dir "/tmp/restore/my-app/.env")) ->
             Os.tree tgt !! k = None \/ Os.tree tgt !! k = Some Os.Directory).
  { intros k [<- | [<- | [<- | [<- | []]]]];
      try (apply Hroot; notin).
    left. now apply Hempty. }
  destruct (extract_fresh iflags m tgt [] e1 "my-app" ".env" repo
              "/tmp/restore/my-app/.env" eq_refl eq_refl eq_refl Hmap
              (Hdest _ _)
              eq_refl eq_refl eq_refl eq_refl ltac:(vm_compute; discriminate)
              ltac:(notin) ltac:(notin) Hc1
              (Hempty "/tmp/restore/my-app/.env" eq_refl))
    as (t1 & -> & Hf1 & Hd1 & Hr1).
  (* the second file *)
  assert (Hc2 : forall k,
             In k (Os.chain (Dir "/tmp/restore/my-app/config/.env.local")) ->
             t1 !! k = None \/ t1 !! k = Some Os.Directory).
  { intros k [<- | [<- | [<- | [<- | [<- | []]]]]];
      try (right; apply Hd1; notin).
    left. rewrite Hr1 by notin. now apply Hempty. }
  assert (Hn2 : t1 !! "/tmp/restore/my-app/config/.env.local" = None).
  { rewrite Hr1 by notin. now apply Hempty. }
  destruct (extract_fresh iflags m (Os.withTree tgt t1)
              ([] ++ [Extracted "/tmp/restore/my-app/.env"])
              e2 "my-app" "config/.env.local" repo
              "/tmp/restore/my-app/config/.env.local"
              eq_refl eq_refl eq_refl Hmap (Hdest _ _)
              eq_refl eq_refl eq_refl eq_refl ltac:(vm_compute; discriminate)
              ltac:(notin) ltac:(notin) Hc2 Hn2)
    as (t2 & -> & Hf2 & Hd2 & Hr2).
  cbn [fst snd List.app]. rewrite withTree_withTree.
  assert (Hf1' : t2 !! "/tmp/restore/my-app/.env"
                 = Some (Os.Regular (chmodBits mode1) data1)).
  { rewrite Hr2 by notin. exact Hf1. }
  assert (Hread : forall k md bytes,
             IsAbs k = true -> Clean k = k ->
             lastElement k <> "patterns.yaml" ->
             t2 !! k = Some (Os.Regular md bytes) ->
             Os.ReadFile
               (fst (importPatterns (Os.withTree tgt t2) (zw ++ [e1; e2])))
               k = Some bytes).
  { intros k md bytes Habsk Hclean Hlast Hk.
    unfold Os.ReadFile. rewrite (resolve_abs _ _ Habsk), Hclean.
    rewrite (importPatterns_preserves _ _ k (Os.Regular md bytes));
      [reflexivity|exact Hk|].
    intros pp Hp Hres. apply Hlast.
    now apply (PatternsFilePath_last _ _ _ Hp Hres). }
  repeat split.
  - apply (Hread "/tmp/restore/my-app/.env" (chmodBits mode1) data1
             eq_refl eq_refl); [discriminate|exact Hf1'].
  - apply (Hread "/tmp/restore/my-app/config/.env.local"
             (chmodBits mode2) data2 eq_refl eq_refl);
      [discriminate|exact Hf2].
Qed.

End RoundTrip.

(* ===================================================================== *)
(** ** The theorems at work on the example machines *)
(* ===================================================================== *)

Section Examples.
Import Strings Filepath scanner Spec cli Example.

(** The importing machine is an empty destination. *)
Lemma targetMachine_empty archive :
  emptyDestination (targetMachine archive) "/tmp/restore".
Proof.
  split.
  - intros k [<- | [<- | [<- | []]]]; vm_compute; auto.
  - intros k Hk. cbn [Os.tree targetMachine].
    rewrite lookup_insert_ne
      by (intros <-; vm_compute in Hk; discriminate Hk).
    apply lookup_empty.
Qed.

(** The scan of the repository on the laptop: the build log, 4 bytes
    long and not secret, is neither listed nor counted. *)
Lemma Scan_aggregates_witness :
  Scan NewScanner laptop "." = Some laptopScan
  /\ TotalSize laptopScan = 6%Z
  /\ SecretCount laptopScan = 2%Z
  /\ sumZ (List.map Size (IgnoredFiles laptopScan)) = 6%Z.
Proof.
  assert (H : Scan NewScanner laptop "." = Some laptopScan)
    by (vm_compute; reflexivity).
  destruct (Scan_aggregates NewScanner laptop "." laptopScan H)
    as (Ht & Hc & Hte & Hce & _).
  split; [exact H|]. split; [|split; [|reflexivity]].
  - rewrite Hte; [reflexivity|]. vm_compute.
    split; [discriminate|reflexivity].
  - rewrite Hce; [reflexivity|]. reflexivity.
Defined.

Lemma isSecret_derivation_witness :
  isASCII (Base "home/.NPMRC") = true
  /\ categorizeFile "home/.NPMRC" = "other"
  /\ isSecretFile "home/.NPMRC" (categorizeFile "home/.NPMRC") = true
  /\ Scan NewScanner laptop "." = Some laptopScan
  /\ In {| scanner.Path := ".env"; Size := 3; IsSecret := true;
           Category := "env" |} (IgnoredFiles laptopScan)
  /\ IsSecret {| scanner.Path := ".env"; Size := 3; IsSecret := true;
                 Category := "env" |} = true.
Proof.
  assert (H : Scan NewScanner laptop "." = Some laptopScan)
    by (vm_compute; reflexivity).
  assert (Hin : In {| scanner.Path := ".env"; Size := 3; IsSecret := true;
                      Category := "env" |} (IgnoredFiles laptopScan))
    by (left; reflexivity).
  destruct isSecret_derivation as (_ & Hname & _ & _ & _ & _ & Hscan).
  split; [reflexivity|]. split; [reflexivity|]. split.
  - apply (proj2 (Hname "home/.NPMRC" eq_refl)). right. right.
    exists ".npmrc". split; [cbn; tauto | reflexivity].
  - split; [exact H|]. split; [exact Hin|].
    exact (Hscan NewScanner laptop "." laptopScan _ H Hin
             (or_introl eq_refl)).
Defined.

(** Without a base directory and with a repository path that is no
    directory of the machine, the destination is under the current
    directory. *)
Lemma resolveDestPath_order_witness :
  let flags := {| importYes := true; importDryRun := false;
                  importBaseDir := "" |} in
  let w := targetMachine [] in
  importBaseDir flags = ""
  /\ dirExists w (cli.Path (myApp [".env"])) = false
  /\ resolveDestPath flags w (myApp [".env"]) ".env" = "my-app/.env"
  /\ resolveDestPath restoreFlags w (myApp [".env"]) ".env"
     = "/tmp/restore/my-app/.env"
  /\ resolveDestPath flags laptop (myApp [".env"]) ".env"
     = "/home/dev/my-app/.env".
Proof.
  intros flags w.
  destruct (resolveDestPath_order flags w (myApp [".env"]) ".env")
    as (_ & _ & H3 & _).
  destruct (resolveDestPath_order restoreFlags w (myApp [".env"]) ".env")
    as (H1 & _).
  destruct (resolveDestPath_order flags laptop (myApp [".env"]) ".env")
    as (_ & H2 & _).
  split; [reflexivity|]. split; [reflexivity|]. split; [|split].
  - rewrite (H3 eq_refl eq_refl). reflexivity.
  - rewrite H1 by discriminate. reflexivity.
  - rewrite (H2 eq_refl eq_refl). reflexivity.
Defined.

(** The repository of the laptop exported to [/home/dev/backup.zip] and
    restored on the empty machine. *)
Lemma export_import_round_trip_witness :
  exists src' archive,
    runExport ManifestText.marshal exportHere "/home/dev/backup.zip" laptop
    = Some (src', Some archive)
    /\ exists tgt' out,
        runImport ManifestText.unmarshal restoreFlags "backup.zip"
          (targetMachine archive) = Some (tgt', out)
        /\ Os.ReadFile tgt' "/tmp/restore/my-app/.env"
           = Some (bytesOf "A=1")
        /\ Os.ReadFile tgt' "/tmp/restore/my-app/config/.env.local"
           = Some (bytesOf "B=2")
        /\ List.length (successes out) = 2%nat
        /\ List.length (failures out) = 0%nat.
Proof.
  assert (Hout : is_Some (Os.writeRegular false laptop
                            "/home/dev/backup.zip" modeCreate []))
    by (vm_compute; eauto).
  assert (Hyaml : exists d m,
             ManifestText.marshal (myAppManifest laptop "/home/dev/my-app")
             = Some d
             /\ ManifestText.unmarshal d = Some m
             /\ Repos m = Repos (myAppManifest laptop "/home/dev/my-app"))
    by (eexists _, _; vm_compute; repeat split).
  destruct (export_import_round_trip
              ManifestText.marshal ManifestText.unmarshal laptop exportHere
              "/home/dev/backup.zip" "/home/dev/my-app"
              [".env"; "build"; "build/output.log"; "config/.env.local"]
              "/home/dev/my-app/.env" 384 (bytesOf "A=1")
              "/home/dev/my-app/config/.env.local" 420 (bytesOf "B=2")
              eq_refl eq_refl eq_refl eq_refl eq_refl eq_refl eq_refl
              eq_refl eq_refl eq_refl eq_refl Hout
              ltac:(vm_compute; discriminate)
              ltac:(vm_compute; discriminate) Hyaml)
    as (src' & archive & Hexp & Himp).
  exists src', archive. split; [exact Hexp|].
  destruct (Himp (targetMachine archive) restoreFlags "backup.zip"
              eq_refl (targetMachine_empty archive) eq_refl eq_refl)
    as (tgt' & out & Hrun & Hr1 & Hr2 & _ & Hs & Hf).
  exists tgt', out. repeat split; assumption.
Defined.

(** The archive that lacks the entry of [.env]: one outcome, for the
    one entry it has. *)
Lemma missing_entry_is_passed_over_witness :
  let w := targetMachine archiveMissing in
  let result :=
    importFiles restoreFlags w archiveMissing
      (manifestOf [".env"; "config/.env.local"]) in
  In ".env" (Files (myApp [".env"; "config/.env.local"]))
  /\ (forall file, In file archiveMissing ->
                   Zip.Name file <> entryName "my-app" ".env")
  /\ (exists w',
         runImport ManifestText.unmarshal restoreFlags "backup.zip" w
         = Some (w', snd result))
  /\ List.length (snd result) = 1%nat.
Proof.
  intros w result.
  assert (Hin : In ".env" (Files (myApp [".env"; "config/.env.local"])))
    by (left; reflexivity).
  assert (Hno : forall file, In file archiveMissing ->
                  Zip.Name file <> entryName "my-app" ".env")
    by (intros file [<- | [<- | []]]; vm_compute; discriminate).
  destruct (missing_entry_is_passed_over ManifestText.unmarshal
              restoreFlags "backup.zip" w archiveMissing
              (manifestOf [".env"; "config/.env.local"])
              (myApp [".env"; "config/.env.local"]) ".env"
              eq_refl eq_refl eq_refl (or_introl eq_refl) Hin Hno)
    as (Hrun & Hlen & _).
  split; [exact Hin|]. split; [exact Hno|]. split; [exact Hrun|].
  fold result in Hlen. rewrite Hlen. reflexivity.
Defined.

(** C2, the claim: on the archive whose manifest lists [.env] and which
    has no entry [files/my-app/.env], the restore prints no failure at
    all, not the one failure the claim asks for; the entry that is there
    is extracted. *)
Lemma missing_entry_counterexample :
  In ".env" (Files (myApp [".env"; "config/.env.local"]))
  /\ ~ In (entryName "my-app" ".env") (List.map Zip.Name archiveMissing)
  /\ ManifestText.unmarshal
       (Zip.Data (manifestEntry [".env"; "config/.env.local"]))
     = Some (manifestOf [".env"; "config/.env.local"])
  /\ option_map snd
       (runImport ManifestText.unmarshal restoreFlags "backup.zip"
          (targetMachine archiveMissing))
     = Some [Extracted "/tmp/restore/my-app/config/.env.local"]
  /\ List.length
       (failures
          (snd (importFiles restoreFlags (targetMachine archiveMissing)
                  archiveMissing
                  (manifestOf [".env"; "config/.env.local"]))))
     <> 1%nat.
Proof.
  split; [left; reflexivity|].
  split; [vm_compute; intuition discriminate|].
  split; [vm_compute; reflexivity|].
  split; [vm_compute; reflexivity|].
  vm_compute. discriminate.
Qed.

End Examples.

(* ===================================================================== *)
(** ** Further properties of the scanner *)
(* ===================================================================== *)

Section MoreStrings.
Import Strings Filepath scanner Spec Notions.

Lemma append_assoc (a b c : string) : (a +:+ b) +:+ c = a +:+ b +:+ c.
Proof.
  induction a as [|x a IH]; [reflexivity|].
  rewrite !append_cons. now rewrite IH.
Qed.

Lemma append_empty_r (a : string) : a +:+ "" = a.
Proof.
  induction a as [|x a IH]; [reflexivity|]. rewrite append_cons. now rewrite IH.
Qed.

Lemma length_append (a b : string) :
  String.length (a +:+ b) = (String.length a + String.length b)%nat.
Proof.
  induction a as [|x a IH]; [reflexivity|].
  rewrite append_cons. cbn. now rewrite IH.
Qed.

(** A string that has a prefix is the prefix followed by the rest. *)
Lemma HasPrefix_split (s p : string) :
  HasPrefix s p = true -> s = p +:+ sliceFrom (String.length p) s.
Proof.
  revert s. induction p as [|c p IH]; intros s H; [reflexivity|].
  destruct s as [|d s]; [discriminate|].
  cbn [HasPrefix] in H. apply andb_true_iff in H as [Hc Hp].
  apply Ascii.eqb_eq in Hc. subst d.
  rewrite append_cons. cbn [String.length sliceFrom]. now rewrite <- IH.
Qed.

Lemma Contains_split (s x : string) :
  Contains s x = true -> exists pre rest, s = pre +:+ x +:+ rest.
Proof.
  induction s as [|c s IH]; cbn [Contains]; intros H.
  - rewrite orb_false_r in H. exists "", (sliceFrom (String.length x) "").
    now apply HasPrefix_split.
  - apply orb_true_iff in H as [H | H].
    + exists "", (sliceFrom (String.length x) (String c s)).
      now apply HasPrefix_split.
    + destruct (IH H) as (pre & rest & ->).
      exists (String c pre), rest. now rewrite append_cons.
Qed.

Lemma Contains_app (pre x rest : string) :
  Contains (pre +:+ x +:+ rest) x = true.
Proof.
  induction pre as [|c pre IH].
  - change ("" +:+ x +:+ rest) with (x +:+ rest).
    destruct (x +:+ rest) eqn:E; cbn [Contains];
      rewrite <- E, HasPrefix_app; reflexivity.
  - rewrite append_cons. cbn [Contains]. rewrite IH. apply orb_true_r.
Qed.

Lemma Join_cons (e : string) (l : list string) (sep : string) :
  l <> [] -> Strings.Join (e :: l) sep = e +:+ sep +:+ Strings.Join l sep.
Proof. destruct l; [contradiction|reflexivity]. Qed.

Lemma Join_app (l1 l2 : list string) (sep : string) :
  l1 <> [] -> l2 <> [] ->
  Strings.Join (l1 ++ l2) sep
  = Strings.Join l1 sep +:+ sep +:+ Strings.Join l2 sep.
Proof.
  intros H1 H2. induction l1 as [|e l1 IH]; [contradiction|].
  destruct l1 as [|e' l1].
  - cbn [List.app]. now rewrite Join_cons.
  - change ((e :: e' :: l1) ++ l2) with (e :: ((e' :: l1) ++ l2)).
    rewrite Join_cons by discriminate.
    rewrite IH by discriminate.
    rewrite (Join_cons e (e' :: l1)) by discriminate.
    now rewrite !append_assoc.
Qed.

(** A path is its elements joined by the separator. *)
Lemma Join_elements (s : string) : Strings.Join (elements s) "/" = s.
Proof.
  induction s as [|c s IH]; [reflexivity|].
  cbn [elements]. pose proof (elements_nonempty s) as Hne.
  destruct (IsPathSeparator c) eqn:Hc.
  - rewrite Join_cons by assumption. rewrite IH.
    apply Ascii.eqb_eq in Hc. now subst c.
  - destruct (elements s) as [|e es]; [contradiction|].
    destruct es as [|e' es].
    + cbn in IH |- *. now rewrite IH.
    + rewrite Join_cons in IH |- * by discriminate.
      rewrite append_cons. now rewrite IH.
Qed.

Lemma elements_sep_free (s e : string) :
  In e (elements s) -> Contains e "/" = false.
Proof.
  revert e. induction s as [|c s IH]; intros e; cbn [elements].
  - intros [<- | []]. reflexivity.
  - destruct (IsPathSeparator c) eqn:Hc.
    + intros [<- | H]; [reflexivity|now apply IH].
    + pose proof (elements_nonempty s) as Hne.
      destruct (elements s) as [|h t]; [contradiction|].
      intros [<- | H]; [|apply IH; now right].
      cbn [Contains HasPrefix]. unfold IsPathSeparator in Hc.
      rewrite Ascii.eqb_sym, Hc. cbn [andb orb]. apply IH. now left.
Qed.

End MoreStrings.

Section LowerCase.
Local Open Scope Z_scope.

(** Of the runes above ASCII, [unicode.ToLower] takes the dotted capital
    I (U+0130) and the Kelvin sign (U+212A) into ASCII, to [i] and [k],
    and no other: the names and lines the program looks at match its
    ASCII patterns by their ASCII letters and these two. *)
Lemma to_ASCII ranges r :
  forallb (fun '(lo, hi, stride, delta) =>
             (128 <=? lo + delta)
             || (lo =? hi) && ((lo =? 304) || (lo =? 8490))) ranges = true ->
  128 <= r -> Unicode.to ranges r < 128 -> r = 304 \/ r = 8490.
Proof.
  intros Hall Hr. induction ranges as [|[[[lo hi] stride] delta] rest IH];
    cbn [Unicode.to]; [lia|].
  cbn [forallb] in Hall. apply andb_true_iff in Hall as [Hhd Hrest].
  destruct ((lo <=? r) && (r <=? hi) && ((r - lo) mod stride =? 0)) eqn:E;
    [|now apply IH].
  apply andb_true_iff in E as [E _]. apply andb_true_iff in E as [E1 E2].
  apply Z.leb_le in E1, E2. intros Hlow.
  apply orb_true_iff in Hhd as [Hhd | Hhd].
  - apply Z.leb_le in Hhd. lia.
  - apply andb_true_iff in Hhd as [Heq Hsp]. apply Z.eqb_eq in Heq.
    apply orb_true_iff in Hsp as [Hsp | Hsp]; apply Z.eqb_eq in Hsp; lia.
Qed.

Lemma ToLower_ASCII_runes r :
  0 <= r ->
  (Unicode.ToLower r < 128 <-> r < 128 \/ r = 304 \/ r = 8490)
  /\ Unicode.ToLower 304 = 105 /\ Unicode.ToLower 8490 = 107.
Proof.
  intros Hr. split; [|split; reflexivity]. split.
  - intros H. destruct (Z.ltb_spec r 128) as [Hlt | Hge]; [now left|].
    right. unfold Unicode.ToLower in H.
    destruct (Z.leb_spec r 127) as [Hle | _]; [lia|].
    apply (to_ASCII Unicode.caseRanges r); [vm_compute; reflexivity | lia |].
    exact H.
  - intros [H | [-> | ->]]; [|reflexivity | reflexivity].
    unfold Unicode.ToLower.
    destruct (Z.leb_spec r 127) as [_ | Hgt]; [|lia].
    destruct ((65 <=? r) && (r <=? 90)) eqn:E; [|lia].
    apply andb_true_iff in E as [_ E]. apply Z.leb_le in E. lia.
Qed.

End LowerCase.

Section DepsDirs.
Import Strings Filepath scanner Spec Notions.

Lemma removelast_cons_In (name : string) (l : list string) :
  l <> [] -> In name (removelast (name :: l)).
Proof. destruct l; [contradiction|]. intros _. now left. Qed.

(** A path that starts with [name/] or contains [/name/] lies in a
    directory [name], and the other way round. *)
Lemma in_directory (path name : string) :
  Contains name "/" = false ->
  HasPrefix path (name +:+ "/") || Contains path ("/" +:+ name +:+ "/") = true
  <-> In name (directories path).
Proof.
  intros Hn. unfold directories. split.
  - intros H. apply orb_true_iff in H as [H | H].
    + apply HasPrefix_split in H. rewrite append_assoc in H.
      rewrite H, elements_app, (elements_plain _ Hn).
      apply removelast_cons_In, elements_nonempty.
    + apply Contains_split in H as (pre & rest & H).
      rewrite H.
      change (pre +:+ ("/" +:+ name +:+ "/") +:+ rest)
        with (pre +:+ "/" +:+ (name +:+ "/") +:+ rest).
      rewrite append_assoc, !elements_app, (elements_plain _ Hn).
      rewrite List.removelast_app
        by (cbn; discriminate).
      apply List.in_or_app. right.
      apply removelast_cons_In, elements_nonempty.
  - intros H.
    pose proof (elements_nonempty path) as Hne.
    pose proof (Join_elements path) as Hj.
    rewrite (List.app_removelast_last "" Hne) in Hj.
    apply List.in_split in H as (l1 & l2 & Hsplit).
    rewrite Hsplit in Hj. rewrite <- List.app_assoc in Hj.
    cbn [List.app] in Hj.
    set (tail := l2 ++ [List.last (elements path) ""]) in *.
    assert (Ht : tail <> []) by (subst tail; destruct l2; discriminate).
    clearbody tail.
    apply orb_true_iff. rewrite <- Hj.
    destruct l1 as [|e l1].
    + left. cbn [List.app]. rewrite Join_cons by assumption.
      rewrite <- append_assoc. apply HasPrefix_app.
    + right. rewrite Join_app by discriminate.
      rewrite (Join_cons name tail) by assumption.
      rewrite <- (append_assoc name "/").
      change ("/" +:+ (name +:+ "/") +:+ Strings.Join tail "/")
        with (("/" +:+ name +:+ "/") +:+ Strings.Join tail "/").
      apply Contains_app.
Qed.

Lemma depsNames_sep_free (name : string) :
  In name depsNames -> Contains name "/" = false.
Proof.
  unfold depsNames.
  intros [<- | [<- | [<- | [<- | [<- | [<- | [<- | [<- | []]]]]]]]];
    reflexivity.
Qed.

(** A path with a directory of one of the names is in a dependency
    directory. *)
Lemma isInDepsDir_elements (path name : string) :
  In name depsNames -> In name (directories path) ->
  isInDepsDir path = true.
Proof.
  intros Hin H. unfold isInDepsDir.
  change depsDirs with (List.map (fun n => n +:+ "/") depsNames).
  apply existsb_exists. exists (name +:+ "/").
  split; [now apply (List.in_map (fun n => n +:+ "/"))|].
  apply in_directory; [now apply depsNames_sep_free | exact H].
Qed.

(** X1.  [isInDepsDir] goes by whole elements: a path is in a dependency
    directory exactly when one of the directories it lies in has one of
    the eight names. *)
Theorem isInDepsDir_directories (path : string) :
  isInDepsDir path = true
  <-> exists name, In name depsNames /\ In name (directories path).
Proof.
  split.
  - unfold isInDepsDir.
    change depsDirs with (List.map (fun n => n +:+ "/") depsNames).
    rewrite existsb_exists.
    intros (dir & Hin & H). apply List.in_map_iff in Hin as (name & <- & Hin).
    exists name. split; [exact Hin|].
    apply in_directory; [now apply depsNames_sep_free | exact H].
  - intros (name & Hin & H). now apply (isInDepsDir_elements path name).
Qed.

End DepsDirs.

Section MoreScanner.
Import Strings Filepath scanner Spec Notions.

Lemma scanLoop_root s w absPath ignoredPaths result :
  RootPath (fold_left (scanPath s w absPath) ignoredPaths result)
  = RootPath result.
Proof.
  revert result. induction ignoredPaths as [|p ps IH]; intros r;
    [reflexivity|].
  cbn [fold_left]. rewrite IH, scanPath_scanned.
  destruct (scanned s w absPath p) as [f|]; [|reflexivity].
  now destruct (included s f).
Qed.

Lemma scanned_regular s w absPath path f :
  scanned s w absPath path = Some f ->
  (ExcludeDeps s = true -> isInDepsDir path = false)
  /\ exists key m d,
      Os.resolve w (Filepath.Join [absPath; path]) = Some key
      /\ Os.tree w !! key = Some (Os.Regular m d)
      /\ Size f = Z.of_nat (List.length d).
Proof.
  unfold scanned. intros H.
  destruct (ExcludeDeps s && isInDepsDir path) eqn:Hx; [discriminate|].
  split.
  { intros He. rewrite He in Hx. exact Hx. }
  unfold Os.Stat in H.
  destruct (Os.resolve w (Filepath.Join [absPath; path])) as [key|];
    [|discriminate].
  destruct (Os.tree w !! key) as [[|m d]|] eqn:Ht; cbn in H;
    try discriminate.
  injection H as <-. exists key, m, d.
  split; [reflexivity|]. split; [exact Ht|reflexivity].
Qed.

Lemma scannedFiles_sublist s w absPath (P : IgnoredFile -> bool) ps :
  sublist (List.map Path (List.filter P (scannedFiles s w absPath ps))) ps.
Proof.
  unfold scannedFiles. induction ps as [|p ps IH]; [constructor|].
  cbn [omap list_omap].
  destruct (scanned s w absPath p) as [f|] eqn:Hs.
  - apply scanned_classified in Hs as (Hp & _).
    cbn [List.filter]. destruct (P f).
    + cbn [List.map]. rewrite Hp. now apply sublist_skip.
    + now apply sublist_cons.
  - now apply sublist_cons.
Qed.

(** The result of a scan inside a repository, from git's list. *)
Lemma Scan_repo s w rootPath absPath ignoredPaths :
  Abs (Os.wd w) rootPath = Some absPath ->
  isGitRepo w absPath = true ->
  getGitIgnoredFiles w absPath = Some ignoredPaths ->
  exists result,
    Scan s w rootPath = Some result
    /\ RootPath result = absPath
    /\ IgnoredFiles result
       = List.filter (included s) (scannedFiles s w absPath ignoredPaths)
    /\ consistent result.
Proof.
  intros Habs Hrepo Hgit. unfold Scan. rewrite Habs, Hrepo, Hgit.
  cbn [negb]. eexists. split; [reflexivity|].
  rewrite scanLoop_root, scanLoop_files. repeat split.
  - apply scanLoop_consistent, empty_consistent.
  - apply scanLoop_consistent, empty_consistent.
Qed.

(** X2.  Dependency directories are left out: with [ExcludeDeps] no entry
    of a scan result lies in a directory with one of the eight names. *)
Theorem Scan_excludes_deps s w rootPath result f name :
  Scan s w rootPath = Some result ->
  ExcludeDeps s = true ->
  In f (IgnoredFiles result) ->
  In name depsNames ->
  ~ In name (directories (Path f)).
Proof.
  intros H He Hf Hn Hd.
  destruct (Scan_files _ _ _ _ _ H Hf) as (absPath & path & Hs & _).
  destruct (scanned_classified _ _ _ _ _ Hs) as (Hp & _).
  destruct (scanned_regular _ _ _ _ _ Hs) as (Hx & _).
  specialize (Hx He). rewrite <- Hp in Hx.
  assert (Ht : isInDepsDir (Path f) = true).
  { now apply (isInDepsDir_elements _ name). }
  congruence.
Qed.

Lemma filter_idem {A} (P : A -> bool) (l : list A) :
  List.filter P (List.filter P l) = List.filter P l.
Proof.
  induction l as [|x l IH]; [reflexivity|].
  cbn [List.filter]. destruct (P x) eqn:Hx; [|exact IH].
  cbn [List.filter]. now rewrite Hx, IH.
Qed.

(** X3.  The entries of a scan result are regular files of the machine,
    with their length as size, and come in the order of git's list:
    directories and paths that are gone are never listed. *)
Theorem Scan_lists_regular_files s w rootPath result :
  Scan s w rootPath = Some result ->
  (forall f, In f (IgnoredFiles result) ->
     exists key m d,
       Os.resolve w (Filepath.Join [RootPath result; Path f]) = Some key
       /\ Os.tree w !! key = Some (Os.Regular m d)
       /\ Size f = Z.of_nat (List.length d))
  /\ (forall ignoredPaths,
        getGitIgnoredFiles w (RootPath result) = Some ignoredPaths ->
        sublist (List.map Path (IgnoredFiles result)) ignoredPaths).
Proof.
  intros H.
  apply Scan_Some in H as (absPath & Habs & [[Hno ->] | [Hrepo H]]).
  - split; [intros f []|]. intros ps _. apply sublist_nil_l.
  - destruct H as (ignoredPaths & Hgit & ->).
    rewrite scanLoop_root, scanLoop_files. cbn [RootPath IgnoredFiles List.app].
    split.
    + intros f Hf. apply List.filter_In in Hf as [Hf _].
      unfold scannedFiles in Hf.
      apply list_elem_of_In, list_elem_of_omap in Hf as (p & _ & Hs).
      destruct (scanned_classified _ _ _ _ _ Hs) as (-> & _).
      now destruct (scanned_regular _ _ _ _ _ Hs) as (_ & Hr).
    + intros ps Hps. rewrite Hgit in Hps. injection Hps as <-.
      apply scannedFiles_sublist.
Qed.

(** X4.  Show-all only adds entries: the default scan lists exactly the
    secret entries of the show-all scan, and both count the same
    secrets. *)
Theorem Scan_showAll_secrets s w rootPath resultAll :
  Scan (withShowAll s true) w rootPath = Some resultAll ->
  exists result,
    Scan (withShowAll s false) w rootPath = Some result
    /\ IgnoredFiles result = List.filter IsSecret (IgnoredFiles resultAll)
    /\ SecretCount result = SecretCount resultAll.
Proof.
  intros H.
  apply Scan_Some in H as (absPath & Habs & [[Hno ->] | [Hrepo H]]).
  - exists {| RootPath := absPath; IgnoredFiles := [];
              TotalSize := 0; SecretCount := 0 |}.
    unfold Scan. rewrite Habs, Hno. repeat split.
  - destruct H as (ignoredPaths & Hgit & ->).
    destruct (Scan_repo (withShowAll s false) w rootPath absPath
                ignoredPaths Habs Hrepo Hgit)
      as (result & Hscan & _ & Hfiles & _ & Hcount).
    exists result. split; [exact Hscan|].
    assert (Hall : consistent
                     (fold_left (scanPath (withShowAll s true) w absPath)
                        ignoredPaths
                        {| RootPath := absPath; IgnoredFiles := [];
                           TotalSize := 0; SecretCount := 0 |}))
      by apply scanLoop_consistent, empty_consistent.
    destruct Hall as [_ Hcount'].
    rewrite scanLoop_files in Hcount' |- *.
    cbn [IgnoredFiles List.app] in Hcount' |- *.
    change (scannedFiles (withShowAll s true))
      with (scannedFiles (withShowAll s false)) in *.
    assert (Hsec : List.filter IsSecret
                     (List.filter (included (withShowAll s true))
                        (scannedFiles (withShowAll s false) w absPath
                           ignoredPaths))
                   = IgnoredFiles result).
    { rewrite Hfiles, filter_secret_included.
      apply List.filter_ext. intros f. unfold included. reflexivity. }
    split; [now rewrite Hsec|].
    rewrite Hcount, Hcount'. unfold secrets. rewrite Hsec.
    now rewrite <- Hsec, filter_idem.
Qed.

(** X5.  The errors of [Scan]: it fails only when the root cannot be made
    absolute or when the root is in a repository and git's status query
    fails; outside a repository it returns the empty result. *)
Theorem Scan_errors s w rootPath :
  (Scan s w rootPath = None <->
   Abs (Os.wd w) rootPath = None
   \/ exists absPath,
       Abs (Os.wd w) rootPath = Some absPath
       /\ isGitRepo w absPath = true
       /\ Os.gitStatus w absPath = None)
  /\ (forall absPath,
         Abs (Os.wd w) rootPath = Some absPath ->
         isGitRepo w absPath = false ->
         Scan s w rootPath
         = Some {| RootPath := absPath; IgnoredFiles := [];
                   TotalSize := 0; SecretCount := 0 |}).
Proof.
  unfold Scan, getGitIgnoredFiles. split.
  - destruct (Abs (Os.wd w) rootPath) as [absPath|]; [|tauto].
    destruct (isGitRepo w absPath) eqn:Hr; cbn [negb].
    + destruct (Os.gitStatus w absPath) eqn:Hg.
      * split; [discriminate|].
        intros [H | (a & Ha & _ & Hn)]; [discriminate|].
        injection Ha as <-. congruence.
      * split; [|reflexivity]. intros _. right. now exists absPath.
    + split; [discriminate|].
      intros [H | (a & Ha & Hr' & _)]; [discriminate|].
      injection Ha as <-. congruence.
  - intros absPath -> ->. reflexivity.
Qed.

Lemma slice_split (n : nat) (s : string) :
  s = sliceTo n s +:+ sliceFrom n s.
Proof.
  revert s. induction n as [|n IH]; intros s; [reflexivity|].
  destruct s as [|c s]; [reflexivity|].
  cbn [sliceTo sliceFrom]. rewrite append_cons. now rewrite <- IH.
Qed.

Lemma TrimSuffix_cases (s suffix : string) :
  TrimSuffix s suffix = s \/ s = TrimSuffix s suffix +:+ suffix.
Proof.
  unfold TrimSuffix. destruct (HasSuffix s suffix) eqn:H; [|now left].
  right. unfold HasSuffix in H. apply andb_true_iff in H as [_ He].
  apply String.eqb_eq in He.
  pose proof (slice_split (String.length s - String.length suffix) s) as Hs.
  rewrite He in Hs. exact Hs.
Qed.

Lemma ignoredLines_map lines acc :
  fold_left ignoredLine lines acc
  = acc ++ List.map (fun line => TrimSuffix (TrimPrefix line "!! ") "/")
             (List.filter (fun line => HasPrefix line "!! ") lines).
Proof.
  revert acc. induction lines as [|line lines IH]; intros acc.
  - cbn. now rewrite List.app_nil_r.
  - cbn [fold_left List.filter]. rewrite IH. unfold ignoredLine.
    destruct (HasPrefix line "!! "); [|reflexivity].
    cbn [List.map]. now rewrite <- List.app_assoc.
Qed.

(** X6.  What [getGitIgnoredFiles] returns: one path for each line of
    git's output that starts with ["!! "], in order, and nothing for any
    other line; a path is the rest of its line, less one final
    separator. *)
Theorem getGitIgnoredFiles_lines w repoPath ignored :
  getGitIgnoredFiles w repoPath = Some ignored ->
  exists lines,
    Os.gitStatus w repoPath = Some lines
    /\ ignored
       = List.map (fun line => TrimSuffix (TrimPrefix line "!! ") "/")
           (List.filter (fun line => HasPrefix line "!! ") lines)
    /\ (forall path, In path ignored ->
          In ("!! " +:+ path) lines \/ In ("!! " +:+ path +:+ "/") lines).
Proof.
  unfold getGitIgnoredFiles. intros H.
  destruct (Os.gitStatus w repoPath) as [lines|]; [|discriminate].
  injection H as <-. exists lines. split; [reflexivity|].
  rewrite ignoredLines_map. cbn [List.app]. split; [reflexivity|].
  intros path Hin. apply List.in_map_iff in Hin as (line & <- & Hl).
  apply List.filter_In in Hl as [Hl Hp].
  apply HasPrefix_split in Hp. cbn [String.length] in Hp.
  set (rest := sliceFrom 3 line) in *.
  assert (Ht : TrimPrefix line "!! " = rest).
  { rewrite Hp. apply TrimPrefix_app. }
  rewrite Ht.
  destruct (TrimSuffix_cases rest "/") as [He | He].
  - left. rewrite He, <- Hp. exact Hl.
  - right. rewrite <- He, <- Hp. exact Hl.
Qed.

(** X7.  [categorizeFile] answers one of the seven categories. *)
Theorem categorizeFile_range (path : string) :
  In (categorizeFile path) categories.
Proof.
  unfold categorizeFile, categories.
  repeat match goal with
         | |- In (if ?c then _ else _) _ => destruct c
         end; cbn; tauto.
Qed.

End MoreScanner.

Section ByName.
Import Strings Filepath scanner Spec Notions.

Lemma strip_plain (n : string) :
  Contains n "/" = false -> stripTrailingSeparators n = n.
Proof.
  induction n as [|c n IH]; intros H; [reflexivity|].
  cbn [Contains HasPrefix] in H. apply orb_false_iff in H as [Hc Hn].
  rewrite andb_true_r in Hc.
  cbn [stripTrailingSeparators]. unfold IsPathSeparator.
  rewrite Ascii.eqb_sym, Hc. cbn [andb]. now rewrite IH.
Qed.

Lemma strip_append (s n : string) :
  n <> "" -> Contains n "/" = false ->
  stripTrailingSeparators (s +:+ n) = s +:+ n.
Proof.
  intros Hne Hn. induction s as [|c s IH].
  - now apply strip_plain.
  - rewrite append_cons. cbn [stripTrailingSeparators]. rewrite IH.
    destruct (s +:+ n) eqn:E.
    + destruct s; [|discriminate]. cbn in E. contradiction.
    + rewrite andb_false_r. reflexivity.
Qed.

(** The base name and the extension of a file in a directory are those
    of its name. *)
Lemma Base_in_directory (dir name : string) :
  name <> "" -> Contains name "/" = false ->
  Base (dir +:+ "/" +:+ name) = name /\ Base name = name
  /\ Ext (dir +:+ "/" +:+ name) = Ext name.
Proof.
  intros Hne Hn.
  assert (Hl : lastElement (dir +:+ "/" +:+ name) = name).
  { rewrite lastElement_app. unfold lastElement.
    now rewrite (elements_plain _ Hn). }
  repeat split.
  - unfold Base.
    rewrite <- append_assoc, (strip_append _ _ Hne Hn), append_assoc.
    destruct (dir +:+ "/" +:+ name) eqn:E.
    + destruct dir; discriminate.
    + exact Hl.
  - unfold Base. rewrite (strip_plain _ Hn).
    destruct name; [contradiction|].
    now rewrite (elements_plain _ Hn).
  - unfold Ext. fold (lastElement (dir +:+ "/" +:+ name)). rewrite Hl.
    now rewrite (elements_plain _ Hn).
Qed.

Lemma category_env_key (path : string) :
  String.eqb (categorizeFile path) "env"
  || String.eqb (categorizeFile path) "key"
  = envRule path || keyRule path.
Proof.
  unfold categorizeFile, envRule, keyRule, keyPatterns.
  set (name := ToLower (Base path)). set (ext := ToLower (Ext path)).
  destruct (HasPrefix name ".env" || HasPrefix name "env."); [reflexivity|].
  cbn [orb existsb]. rewrite !orb_false_r.
  match goal with
  | |- context [if ?c then "key" else _] => destruct c
  end; [reflexivity|].
  cbn [orb].
  destruct (String.eqb ext ".pem"), (String.eqb ext ".key"),
    (String.eqb ext ".p12"), (String.eqb ext ".pfx"); cbn [orb];
    try reflexivity.
  repeat match goal with
         | |- context [if ?c then _ else _] => destruct c
         end; reflexivity.
Qed.

(** The secret flag the scanner gives a path, from its base name and
    extension alone. *)
Lemma isSecret_formula (path : string) :
  isSecretFile path (categorizeFile path)
  = envRule path || keyRule path
    || existsb (Contains (ToLower (Base path))) secretPatterns.
Proof.
  rewrite <- category_env_key. unfold isSecretFile.
  now destruct (String.eqb (categorizeFile path) "env"
                || String.eqb (categorizeFile path) "key").
Qed.

(** X8.  The secret flag goes by the name of the file: a file has the
    flag in a directory exactly when a file of its name has it at the
    top of the repository. *)
Theorem isSecret_by_name (dir name : string) :
  name <> "" -> Contains name "/" = false ->
  isSecretFile (dir +:+ "/" +:+ name) (categorizeFile (dir +:+ "/" +:+ name))
  = isSecretFile name (categorizeFile name).
Proof.
  intros Hne Hn. rewrite !isSecret_formula.
  destruct (Base_in_directory dir name Hne Hn) as (Hb & Hb' & He).
  unfold envRule, keyRule. now rewrite Hb, Hb', He.
Qed.

End ByName.

(* ===================================================================== *)
(** ** Further properties of the export *)
(* ===================================================================== *)

Section MoreExport.
Import Strings Filepath Spec cli Notions.

Lemma addFileToZip_entryOf w zw repo filePath :
  fst (addFileToZip w zw (Filepath.Join [Path repo; filePath])
         (Filepath.Join ["files"; Name repo; filePath]))
  = zw ++ match entryOf w repo filePath with
          | Some e => [e]
          | None => []
          end.
Proof.
  unfold addFileToZip, entryOf.
  destruct (Os.resolve w _) as [p|]; [|cbn; now rewrite List.app_nil_r].
  destruct (Os.tree w !! p) as [[|m d]|]; cbn [fst];
    try reflexivity.
  now rewrite List.app_nil_r.
Qed.

Lemma exportFiles_entries w zw repos :
  exportFiles w zw repos
  = zw ++ flat_map (fun repo => omap (entryOf w repo) (Files repo)) repos.
Proof.
  unfold exportFiles. revert zw.
  induction repos as [|repo repos IH]; intros zw.
  - cbn. now rewrite List.app_nil_r.
  - cbn [fold_left flat_map]. rewrite IH.
    rewrite List.app_assoc. f_equal.
    generalize (Files repo). intros files. revert zw.
    induction files as [|f files IHf]; intros zw.
    + cbn. now rewrite List.app_nil_r.
    + cbn [fold_left omap list_omap].
      rewrite IHf, addFileToZip_entryOf, <- List.app_assoc. f_equal.
      now destruct (entryOf w repo f).
Qed.

Lemma createExportZip_entries yamlMarshal w outputPath repos w1 archive :
  createExportZip yamlMarshal w outputPath repos = Some (w1, archive) ->
  exists manifestData,
    Os.writeRegular false w outputPath modeCreate [] = Some w1
    /\ yamlMarshal (manifestFor w repos) = Some manifestData
    /\ archive
       = {| Zip.Name := "manifest.yaml"; Zip.Mode := modeCreate;
            Zip.Data := manifestData; Zip.Read := Zip.Full |}
         :: patternsEntry w1
         ++ flat_map (fun repo => omap (entryOf w1 repo) (Files repo))
              repos.
Proof.
  unfold createExportZip, manifestFor.
  destruct (Os.writeRegular false w outputPath modeCreate []) as [w0|] eqn:Hw;
    [|discriminate].
  destruct (writeRegular_inv _ _ _ _ _ _ Hw) as (k & n & _ & ->).
  cbn [Os.clock Os.hostname Os.withTree].
  destruct (yamlMarshal _) as [md|] eqn:Hm; [|discriminate].
  intros [= <- <-]. exists md.
  split; [reflexivity|]. split; [reflexivity|].
  rewrite exportFiles_entries. unfold patternsEntry.
  destruct (config.PatternsFilePath _) as [pp|]; [|reflexivity].
  destruct (Os.ReadFile _ pp); reflexivity.
Qed.

(** X9.  The layout of the archive [createExportZip] writes: the
    manifest of all the repositories and files it was given comes first,
    then the pattern file if the machine has one, then an entry for
    each listed file whose source could be opened, in the order of the
    manifest.  A file that cannot be added is left out and is no error:
    the export fails only when the output cannot be created or the
    manifest cannot be marshalled. *)
Theorem createExportZip_layout yamlMarshal w outputPath repos :
  (forall w1 archive,
      createExportZip yamlMarshal w outputPath repos = Some (w1, archive) ->
      exists manifestData,
        Os.writeRegular false w outputPath modeCreate [] = Some w1
        /\ yamlMarshal (manifestFor w repos) = Some manifestData
        /\ archive
           = {| Zip.Name := "manifest.yaml"; Zip.Mode := modeCreate;
                Zip.Data := manifestData; Zip.Read := Zip.Full |}
             :: patternsEntry w1
             ++ flat_map (fun repo => omap (entryOf w1 repo) (Files repo))
                  repos)
  /\ (createExportZip yamlMarshal w outputPath repos = None <->
      Os.writeRegular false w outputPath modeCreate [] = None
      \/ yamlMarshal (manifestFor w repos) = None).
Proof.
  split; [apply createExportZip_entries|].
  unfold createExportZip, manifestFor.
  destruct (Os.writeRegular false w outputPath modeCreate []) as [w1|] eqn:Hw.
  - destruct (writeRegular_inv _ _ _ _ _ _ Hw) as (k & n & _ & ->).
    cbn [Os.clock Os.hostname Os.withTree].
    destruct (yamlMarshal _) as [md|] eqn:Hm.
    + split; [discriminate|]. intros [H | H]; discriminate.
    + split; [now right|reflexivity].
  - split; [now left|reflexivity].
Qed.

End MoreExport.

Section MoreCollect.
Import Strings Filepath Spec cli Notions.

Lemma collectSingleRepo_nonempty s w path repos r :
  collectSingleRepo s w path = Some repos -> In r repos ->
  repos = [r] /\ Name r = Base path /\ Path r = path /\ Files r <> [].
Proof.
  unfold collectSingleRepo. intros H Hin.
  destruct (scanner.Scan s w path) as [result|]; [|discriminate].
  destruct (List.length (scanner.IgnoredFiles result) =? 0)%nat.
  { injection H as <-. destruct Hin. }
  match type of H with
  | context [if (List.length ?l =? 0)%nat then _ else _] =>
      destruct l as [|f fs] eqn:Hl
  end.
  { injection H as <-. destruct Hin. }
  cbn [List.length Nat.eqb] in H. injection H as <-.
  destruct Hin as [<- | []]. cbn. repeat split. discriminate.
Qed.

(** The walk adds to the repositories found only what [collectSingleRepo]
    gives for the parent of a directory named [.git]. *)
Lemma walkRepos_git (P : RepoExport -> Prop) s w :
  (forall gitDir repos r,
      Os.tree w !! gitDir = Some Os.Directory ->
      Base gitDir = ".git" ->
      collectSingleRepo s w (Dir gitDir) = Some repos -> In r repos ->
      P r) ->
  forall fuel path acc,
    List.Forall P acc -> List.Forall P (walkRepos fuel s w path acc).
Proof.
  intros HP.
  induction fuel as [|fuel IH]; intros path acc Hacc; cbn [walkRepos];
    destruct (Os.tree w !! path) as [[|m d]|] eqn:Ht; try assumption;
    destruct (String.eqb (Base path) ".git") eqn:Hb;
    try (apply String.eqb_eq in Hb;
         destruct (collectSingleRepo s w (Dir path)) as [[|r rs]|] eqn:Hc;
         try assumption;
         apply List.Forall_app; split; [assumption|];
         apply List.Forall_forall; intros r' Hr';
         now apply (HP path (r :: rs) r' Ht Hb Hc));
    destruct (existsb (String.eqb (Base path)) skipDirs); try assumption.
  generalize (children (Os.tree w) path). intros ks. revert acc Hacc.
  induction ks as [|k ks IHks]; intros acc Hacc; cbn [fold_left];
    [assumption|].
  apply IHks, IH, Hacc.
Qed.

(** X10.  What the export collects: a repository contributes one
    [RepoExport], named after its directory and with at least one file,
    or nothing at all; the recursive walk collects them for the parents
    of directories named [.git] only. *)
Theorem collected_repos s w path repos r :
  In r repos ->
  (collectSingleRepo s w path = Some repos ->
   repos = [r] /\ Name r = Base path /\ Path r = path /\ Files r <> [])
  /\ (collectReposRecursive s w path = Some repos ->
      Files r <> [] /\ Name r = Base (Path r)
      /\ exists gitDir,
          Os.tree w !! gitDir = Some Os.Directory
          /\ Base gitDir = ".git" /\ Path r = Dir gitDir).
Proof.
  intros Hin. split.
  - intros H. now apply (collectSingleRepo_nonempty _ _ _ _ _ H Hin).
  - unfold collectReposRecursive. intros [= <-].
    revert r Hin. apply List.Forall_forall.
    apply walkRepos_git; [|constructor].
    intros gitDir rs r Ht Hb Hc Hr.
    destruct (collectSingleRepo_nonempty _ _ _ _ _ Hc Hr)
      as (_ & Hn & Hp & Hf).
    split; [exact Hf|]. split; [now rewrite Hn, Hp|].
    now exists gitDir.
Qed.

(** X11.  The footprint of the export: when nothing is to be exported the
    machine is left as it was and no output file is made; otherwise the
    only node of the file tree that changes is the output file. *)
Theorem runExport_footprint yamlMarshal flags outputPath w w' result :
  runExport yamlMarshal flags outputPath w = Some (w', result) ->
  (result = None -> w' = w)
  /\ (forall archive, result = Some archive ->
        exists out node,
          Os.resolve w outputPath = Some out
          /\ w' = Os.withTree w (<[out := node]> (Os.tree w))
          /\ forall k, k <> out -> Os.tree w' !! k = Os.tree w !! k).
Proof.
  unfold runExport. intros H.
  destruct (Abs (Os.wd w) (exportPath flags)) as [absPath|]; [|discriminate].
  match type of H with
  | context [match ?c with Some _ => _ | None => _ end] =>
      destruct c as [repos|]; [|discriminate]
  end.
  destruct (List.length repos =? 0)%nat.
  { injection H as <- <-. split; [reflexivity|discriminate]. }
  destruct (createExportZip yamlMarshal w outputPath repos)
    as [[w1 zw]|] eqn:Hc; [|discriminate].
  injection H as <- <-. split; [discriminate|].
  intros archive _. unfold createExportZip in Hc.
  destruct (Os.writeRegular false w outputPath modeCreate []) as [w2|] eqn:Hw;
    [|discriminate].
  destruct (yamlMarshal _); [|discriminate]. injection Hc as <- _.
  destruct (writeRegular_inv _ _ _ _ _ _ Hw) as (out & node & Hr & ->).
  exists out, node. repeat split; [exact Hr|].
  intros k Hk. cbn [Os.tree Os.withTree]. now apply lookup_insert_ne.
Qed.

End MoreCollect.

(* ===================================================================== *)
(** ** The recursive walk finds every repository *)
(* ===================================================================== *)

Section WalkDepth.
Import Strings Filepath scanner Spec cli Notions.

Lemma weight_app l1 l2 : weight (l1 ++ l2) = (weight l1 + weight l2)%nat.
Proof. induction l1 as [|e l1 IH]; cbn; [reflexivity|]. rewrite IH. lia. Qed.

Lemma weight_rev l : weight (rev l) = weight l.
Proof.
  induction l as [|e l IH]; [reflexivity|].
  cbn [rev]. rewrite weight_app, IH. cbn. lia.
Qed.

Lemma weight_elements s : weight (elements s) = S (String.length s).
Proof.
  induction s as [|c s IH]; [reflexivity|]. cbn [elements String.length].
  destruct (IsPathSeparator c).
  - cbn [weight] in *. cbn [String.length]. rewrite IH. lia.
  - destruct (elements s) as [|e es] eqn:E;
      [now destruct (elements_nonempty s)|].
    cbn [weight String.length] in *. lia.
Qed.

Lemma length_Join l :
  String.length (Strings.Join l "/") = (weight l - 1)%nat.
Proof.
  induction l as [|e l IH]; [reflexivity|].
  destruct l as [|e' l].
  - cbn. lia.
  - change (Strings.Join (e :: e' :: l) "/")
      with (e +:+ "/" +:+ Strings.Join (e' :: l) "/").
    rewrite !length_append, IH. cbn [weight String.length]. lia.
Qed.

Lemma weight_cleanStep rooted out e :
  (weight (cleanStep rooted out e)
   <= weight out
      + (if String.eqb e "" then 0 else String.length e + 1))%nat.
Proof.
  unfold cleanStep.
  destruct (String.eqb e "") eqn:He; cbn [orb]; [lia|].
  destruct (String.eqb e "."); [lia|].
  destruct (String.eqb e "..").
  - destruct out as [|top rest].
    + destruct rooted; cbn [weight]; lia.
    + destruct (String.eqb top ".."); cbn [weight]; lia.
  - cbn [weight]. lia.
Qed.

Lemma weight_fold rooted l out :
  (weight (fold_left (cleanStep rooted) l out) <= weight out + solid l)%nat.
Proof.
  revert out. induction l as [|e l IH]; intros out; [cbn; lia|].
  cbn [fold_left]. etransitivity; [apply IH|].
  pose proof (weight_cleanStep rooted out e) as H.
  unfold solid in *. cbn [List.filter].
  destruct (String.eqb e ""); cbn [negb weight] in *; lia.
Qed.


Lemma solid_le l : (solid l <= weight l)%nat.
Proof.
  unfold solid. induction l as [|e l IH]; [reflexivity|].
  cbn [List.filter]. destruct (String.eqb e ""); cbn [negb weight]; lia.
Qed.

Lemma solid_app l1 l2 : solid (l1 ++ l2) = (solid l1 + solid l2)%nat.
Proof. unfold solid. now rewrite List.filter_app, weight_app. Qed.

Lemma elements_slash v : elements (v +:+ "/") = elements v ++ [""].
Proof.
  induction v as [|c v IH]; [reflexivity|].
  change (String c v +:+ "/") with (String c (v +:+ "/")).
  cbn [elements]. rewrite IH.
  destruct (IsPathSeparator c); [reflexivity|].
  destruct (elements v) as [|e es] eqn:E;
    [now destruct (elements_nonempty v)|reflexivity].
Qed.

(** Cleaning a path that ends in a separator, the root apart, makes it
    shorter. *)
Lemma Clean_slash_shorter v :
  v <> "" ->
  (String.length (Clean (v +:+ "/")) <= String.length v)%nat.
Proof.
  destruct v as [|c v]; [contradiction|]. intros _.
  change (String c v +:+ "/") with (String c (v +:+ "/")).
  unfold Clean.
  change (String c (v +:+ "/")) with (String c v +:+ "/").
  rewrite elements_slash.
  set (out := fold_left (cleanStep (IsPathSeparator c))
                (elements (String c v) ++ [""]) []).
  assert (Hout : (weight out <= solid (elements (String c v)))%nat).
  { subst out. etransitivity; [apply weight_fold|].
    rewrite solid_app. cbn. lia. }
  pose proof (length_Join (rev out)) as Hj. rewrite weight_rev in Hj.
  destruct (IsPathSeparator c) eqn:Hc.
  - cbn [elements] in Hout. rewrite Hc in Hout.
    change (solid ("" :: elements v)) with (solid (elements v)) in Hout.
    pose proof (solid_le (elements v)) as Hs.
    rewrite weight_elements in Hs.
    cbn [String.length]. rewrite Hj. lia.
  - pose proof (solid_le (elements (String c v))) as Hs.
    rewrite weight_elements in Hs. cbn [String.length] in *.
    destruct (String.eqb (Strings.Join (rev out) "/") "");
      [cbn; lia|]. rewrite Hj. lia.
Qed.

Lemma uptoLastSeparator_cases k :
  uptoLastSeparator k = ""
  \/ exists v, uptoLastSeparator k = v +:+ "/"
               /\ (String.length v < String.length k)%nat.
Proof.
  induction k as [|c k IH]; [now left|]. cbn [uptoLastSeparator].
  destruct IH as [-> | (v & -> & Hv)].
  - destruct (IsPathSeparator c) eqn:Hc; [|now left].
    right. exists "". apply Ascii.eqb_eq in Hc. subst c.
    split; [reflexivity|]. cbn. lia.
  - right. exists (String c v).
    destruct (v +:+ "/") eqn:E.
    + destruct v; discriminate.
    + rewrite <- E. split; [reflexivity|]. cbn. lia.
Qed.

(** An entry of a directory is farther than the directory. *)
Lemma rank_Dir k p : Dir k = p -> k <> p -> (rank p < rank k)%nat.
Proof.
  unfold Dir. intros Hd Hne.
  destruct (uptoLastSeparator_cases k) as [Hu | (v & Hu & Hv)];
    rewrite Hu in Hd.
  - cbn in Hd. subst p. unfold rank at 1. cbn.
    unfold rank. destruct (String.eqb k ".") eqn:E; [|lia].
    now apply String.eqb_eq in E.
  - assert (Hk : String.eqb k "." = false).
    { apply String.eqb_neq. intros ->.
      cbn in Hu. destruct v; discriminate. }
    unfold rank at 2. rewrite Hk.
    destruct v as [|c v].
    + change ("" +:+ "/") with "/" in Hd, Hu.
      change (Clean "/") with "/" in Hd. subst p.
      change (rank "/") with 2%nat.
      destruct k as [|c [|d k]]; cbn [String.length]; try lia.
      cbn in Hu. destruct (IsPathSeparator c) eqn:Hc; [|discriminate].
      apply Ascii.eqb_eq in Hc. subst c. now destruct Hne.
    + pose proof (Clean_slash_shorter (String c v)) as Hs.
      rewrite Hd in Hs. specialize (Hs ltac:(discriminate)).
      unfold rank. destruct (String.eqb p "."); lia.
Qed.

Lemma sorted_In (l : list string) k :
  In k (fold_right insertSorted [] l) <-> In k l.
Proof.
  assert (Hi : forall x l', In k (insertSorted x l') <-> k = x \/ In k l').
  { intros x l'. induction l' as [|y l' IH]; cbn [insertSorted In].
    - intuition congruence.
    - destruct (String.leb x y); cbn [In]; [intuition congruence|].
      rewrite IH. intuition congruence. }
  induction l as [|x l IH]; [reflexivity|].
  cbn [fold_right In]. rewrite Hi, IH. intuition congruence.
Qed.

Lemma children_In (t : gmap string Os.node) p k :
  In k (children t p) <-> is_Some (t !! k) /\ Dir k = p /\ k <> p.
Proof.
  unfold children. rewrite sorted_In, List.filter_In, List.in_map_iff.
  split.
  - intros ((kv & <- & Hin) & Hb). apply andb_true_iff in Hb as [Hd Hn].
    apply String.eqb_eq in Hd. apply negb_true_iff, String.eqb_neq in Hn.
    destruct kv as [k' v]. apply list_elem_of_In, elem_of_map_to_list in Hin.
    cbn [fst] in *. now rewrite Hin.
  - intros ((v & Hv) & Hd & Hn). split.
    + exists (k, v). split; [reflexivity|].
      now apply list_elem_of_In, elem_of_map_to_list.
    + apply andb_true_iff. split; [now apply String.eqb_eq|].
      now apply negb_true_iff, String.eqb_neq.
Qed.

Lemma filter_length_lt {A} (P Q : A -> bool) l x :
  (forall y, P y = true -> Q y = true) ->
  In x l -> Q x = true -> P x = false ->
  (List.length (List.filter P l) < List.length (List.filter Q l))%nat.
Proof.
  intros HPQ. 
  assert (Hle : forall l', (List.length (List.filter P l')
                            <= List.length (List.filter Q l'))%nat).
  { induction l' as [|y l' IH]; [reflexivity|]. cbn [List.filter].
    destruct (P y) eqn:Hp.
    - rewrite (HPQ _ Hp). cbn. lia.
    - destruct (Q y); cbn; lia. }
  induction l as [|y l IH]; intros Hin Hq Hp; [destruct Hin|].
  cbn [List.filter]. destruct Hin as [-> | Hin].
  - rewrite Hq, Hp. cbn. specialize (Hle l). lia.
  - specialize (IH Hin Hq Hp). destruct (P y) eqn:Hpy.
    + rewrite (HPQ _ Hpy). cbn. lia.
    + destruct (Q y); cbn; lia.
Qed.

Lemma atLeast_child (t : gmap string Os.node) p k :
  is_Some (t !! p) -> In k (children t p) ->
  (atLeast t k < atLeast t p)%nat.
Proof.
  intros [v Hp] Hk. apply children_In in Hk as (_ & Hd & Hn).
  pose proof (rank_Dir _ _ Hd Hn) as Hr.
  unfold atLeast. apply (filter_length_lt _ _ _ p).
  - intros y Hy. apply Nat.leb_le in Hy. apply Nat.leb_le. lia.
  - apply List.in_map_iff. exists (p, v). split; [reflexivity|].
    now apply list_elem_of_In, elem_of_map_to_list.
  - apply Nat.leb_le. lia.
  - apply Nat.leb_gt. lia.
Qed.

Lemma atLeast_size (t : gmap string Os.node) p : (atLeast t p <= size t)%nat.
Proof.
  unfold atLeast. etransitivity; [apply List.filter_length_le|].
  rewrite List.length_map. now rewrite length_map_to_list.
Qed.

(** The walk only adds to the repositories found so far. *)
Lemma walkRepos_prefix fuel s w path acc :
  exists more, walkRepos fuel s w path acc = acc ++ more.
Proof.
  revert path acc.
  assert (Hsame : forall acc : list RepoExport, exists more, acc = acc ++ more)
    by (intros acc; exists []; now rewrite List.app_nil_r).
  induction fuel as [|fuel IH]; intros path acc; cbn [walkRepos];
    destruct (Os.tree w !! path) as [[|m d]|]; try apply Hsame;
    (destruct (String.eqb (Base path) ".git");
     [destruct (collectSingleRepo s w (Dir path)) as [[|r rs]|];
      try apply Hsame; now eexists|]);
    destruct (existsb (String.eqb (Base path)) skipDirs); try apply Hsame.
  generalize (children (Os.tree w) path). intros ks. revert acc.
  induction ks as [|k ks IHks]; intros acc; cbn [fold_left];
    [apply Hsame|].
  destruct (IH k acc) as (m1 & ->).
  destruct (IHks (acc ++ m1)) as (m2 & ->).
  exists (m1 ++ m2). now rewrite List.app_assoc.
Qed.

Lemma walkLoop_prefix fuel s w ks acc :
  exists more,
    fold_left (fun acc k => walkRepos fuel s w k acc) ks acc = acc ++ more.
Proof.
  revert acc. induction ks as [|k ks IH]; intros acc; cbn [fold_left].
  - exists []. now rewrite List.app_nil_r.
  - destruct (walkRepos_prefix fuel s w k acc) as (m1 & ->).
    destruct (IH (acc ++ m1)) as (m2 & ->).
    exists (m1 ++ m2). now rewrite List.app_assoc.
Qed.

(** What the walk comes to, it collects: the fuel of
    [collectReposRecursive] is enough for every directory of the tree. *)
Lemma walkRepos_finds s w p g repos r :
  finds w p g ->
  Os.tree w !! g = Some Os.Directory -> Base g = ".git" ->
  collectSingleRepo s w (Dir g) = Some repos -> In r repos ->
  forall fuel acc,
    (atLeast (Os.tree w) p <= fuel)%nat ->
    In r (walkRepos fuel s w p acc).
Proof.
  intros Hf Hg Hb Hc Hr. induction Hf as [p | p k g Hent Hk Hf IH];
    intros fuel acc Hfuel.
  - assert (Hw : walkRepos fuel s w p acc
                 = match collectSingleRepo s w (Dir p) with
                   | Some (r :: rs) => acc ++ r :: rs
                   | _ => acc
                   end).
    { apply String.eqb_eq in Hb.
      destruct fuel; cbn [walkRepos]; now rewrite Hg, Hb. }
    rewrite Hw, Hc. destruct repos as [|r0 rs]; [destruct Hr|].
    apply List.in_or_app. now right.
  - unfold enters in Hent.
    destruct (Os.tree w !! p) as [[|m d]|] eqn:Hp; try discriminate.
    apply andb_true_iff in Hent as [Hgit Hskip].
    apply negb_true_iff in Hgit, Hskip.
    pose proof (atLeast_child (Os.tree w) p k ltac:(now rewrite Hp) Hk)
      as Hlt.
    destruct fuel as [|fuel]; [lia|].
    cbn [walkRepos]. rewrite Hp, Hgit, Hskip.
    apply List.in_split in Hk as (l1 & l2 & ->).
    rewrite List.fold_left_app. cbn [fold_left].
    set (acc1 := fold_left _ l1 acc).
    specialize (IH Hg Hb Hc fuel acc1 ltac:(lia)).
    destruct (walkLoop_prefix fuel s w l2 (walkRepos fuel s w k acc1))
      as (more & ->).
    apply List.in_or_app. now left.
Qed.


(** A repository with a secret among its scanned files is exported, with
    the secret files of the scan. *)
Lemma collectSingleRepo_secret s w path result f :
  Scan s w path = Some result ->
  In f (IgnoredFiles result) -> IsSecret f = true ->
  collectSingleRepo s w path
  = Some [ {| Name := Base path; cli.Path := path;
              Files := List.map scanner.Path
                         (List.filter IsSecret (IgnoredFiles result)) |} ].
Proof.
  intros Hscan Hin Hsec. unfold collectSingleRepo. rewrite Hscan.
  destruct (IgnoredFiles result) as [|f0 fs] eqn:Hfs; [destruct Hin|].
  cbn [List.length Nat.eqb]. rewrite collectLoop_filter. cbn [List.app].
  assert (Hf : In (scanner.Path f)
                 (List.map scanner.Path (List.filter IsSecret (f0 :: fs)))).
  { apply List.in_map, List.filter_In. now split. }
  destruct (List.map scanner.Path (List.filter IsSecret (f0 :: fs)));
    [destruct Hf|reflexivity].
Qed.

(** C4.  Export restricts to secrets.  Every [RepoExport] the export
    pipeline makes, for one repository or by the recursive walk, and
    whatever the show-all flag of the scanner, lists exactly the paths of
    the scanned ignored files whose secret flag is set, in scan order:
    a listed path is classified secret, every scanned secret file is
    listed, and with the default scanner the list is the whole scan
    result.  And the exports are made: a repository whose scan has a
    secret file is exported with the secret files of the scan, that file
    among them, when it is exported alone, and when the recursive walk
    comes to its [.git] directory, which it does for every such
    directory below the root that lies in no directory named [.git] or
    as one of [skipDirs]. *)
Theorem export_restricts_to_secrets s w path :
  (forall repos r,
      collectSingleRepo s w path = Some repos
      \/ collectReposRecursive s w path = Some repos ->
      In r repos ->
      exportsSecrets s w r
      /\ (forall p, In p (Files r) ->
           isSecretFile p (categorizeFile p) = true)
      /\ (forall absPath ignoredPaths f,
            Abs (Os.wd w) (cli.Path r) = Some absPath ->
            getGitIgnoredFiles w absPath = Some ignoredPaths ->
            In f (scannedFiles s w absPath ignoredPaths) ->
            (In (scanner.Path f) (Files r) <-> IsSecret f = true))
      /\ (ShowAll s = false ->
          forall result,
            Scan s w (cli.Path r) = Some result ->
            Files r = List.map scanner.Path (IgnoredFiles result)))
  /\ (forall result f,
        Scan s w path = Some result ->
        In f (IgnoredFiles result) -> IsSecret f = true ->
        let files :=
          List.map scanner.Path
            (List.filter IsSecret (IgnoredFiles result)) in
        collectSingleRepo s w path
        = Some [ {| Name := Base path; cli.Path := path;
                    Files := files |} ]
        /\ In (scanner.Path f) files)
  /\ (forall gitDir result f,
        finds w path gitDir ->
        Os.tree w !! gitDir = Some Os.Directory ->
        Base gitDir = ".git" ->
        Scan s w (Dir gitDir) = Some result ->
        In f (IgnoredFiles result) -> IsSecret f = true ->
        let files :=
          List.map scanner.Path
            (List.filter IsSecret (IgnoredFiles result)) in
        exists repos,
          collectReposRecursive s w path = Some repos
          /\ In {| Name := Base (Dir gitDir); cli.Path := Dir gitDir;
                   Files := files |} repos
          /\ In (scanner.Path f) files).
Proof.
  split; [|split].
  - intros repos r H Hin.
    assert (He : exportsSecrets s w r).
    { destruct H as [H | H].
      - now apply (collectSingleRepo_exports _ _ _ _ _ H Hin).
      - unfold collectReposRecursive in H. injection H as <-.
        revert r Hin. apply List.Forall_forall.
        apply walkRepos_Forall; [|constructor].
        intros p rs r' Hc Hr'.
        now apply (collectSingleRepo_exports _ _ _ _ _ Hc Hr'). }
    split; [exact He|].
    destruct He as (absPath & ignoredPaths & Habs & Hrepo & Hgit & Hfiles).
    assert (Hsec : forall f, In f (scannedFiles s w absPath ignoredPaths) ->
                     IsSecret f = isSecretFile (scanner.Path f)
                                    (categorizeFile (scanner.Path f))).
    { intros f Hf. unfold scannedFiles in Hf.
      apply list_elem_of_In, list_elem_of_omap in Hf as (p & _ & Hs).
      apply scanned_classified in Hs as (-> & _ & ->). reflexivity. }
    split; [|split].
    + intros p Hp. rewrite Hfiles in Hp.
      apply List.in_map_iff in Hp as (f & <- & Hf).
      apply List.filter_In in Hf as [Hf Hs]. now rewrite <- Hsec.
    + intros absPath' ignoredPaths' f Habs' Hgit' Hf.
      rewrite Habs in Habs'. injection Habs' as <-.
      rewrite Hgit in Hgit'. injection Hgit' as <-.
      rewrite Hfiles. split.
      * intros Hp. apply List.in_map_iff in Hp as (f' & Hpath & Hf').
        apply List.filter_In in Hf' as [Hf' Hs'].
        rewrite Hsec by assumption. rewrite <- Hpath.
        now rewrite <- Hsec.
      * intros Hs. apply List.in_map. apply List.filter_In. now split.
    + intros Hall result Hscan.
      apply Scan_Some in Hscan as (absPath' & Habs' & Hcases).
      rewrite Habs in Habs'. injection Habs' as <-.
      destruct Hcases as [[Hno _] | [_ (ips & Hgit' & ->)]].
      * congruence.
      * rewrite Hgit in Hgit'. injection Hgit' as <-.
        rewrite scanLoop_files, Hfiles. cbn [IgnoredFiles List.app].
        f_equal. apply List.filter_ext. intros f. unfold included.
        now rewrite Hall.
  - intros result f Hscan Hin Hsec files.
    split; [now apply (collectSingleRepo_secret _ _ _ _ _ Hscan Hin Hsec)|].
    apply List.in_map, List.filter_In. now split.
  - intros gitDir result f Hfinds Hdir Hbase Hscan Hin Hsec files.
    eexists. split; [reflexivity|]. split.
    + apply (walkRepos_finds s w path gitDir _ _ Hfinds Hdir Hbase
               (collectSingleRepo_secret _ _ _ _ _ Hscan Hin Hsec)
               (or_introl eq_refl)).
      apply atLeast_size.
    + apply List.in_map, List.filter_In. now split.
Qed.

End WalkDepth.

(* ===================================================================== *)
(** ** Further properties of the import *)
(* ===================================================================== *)

Section MoreImport.
Import Strings Filepath Spec cli Notions.

Lemma withTree_tree' w : Os.withTree w (Os.tree w) = w.
Proof. now destruct w. Qed.

Lemma grows_refl t : grows t t.
Proof. intros k. tauto. Qed.

Lemma grows_trans t1 t2 t3 : grows t1 t2 -> grows t2 t3 -> grows t1 t3.
Proof.
  intros H12 H23 k. destruct (H12 k) as [Hd Hr], (H23 k) as [Hd' Hr'].
  split; auto.
Qed.

Lemma mkdirs_grows ds (t t' : gmap string Os.node) :
  Os.mkdirs ds t = Some t' -> grows t t'.
Proof.
  intros H k. split.
  - intros Hk. now apply (mkdirs_preserves _ _ _ _ _ H Hk).
  - intros (m & d & Hk). exists m, d.
    now apply (mkdirs_preserves _ _ _ _ _ H Hk).
Qed.

Lemma MkdirAll_grows w path w' :
  Os.MkdirAll w path = Some w' ->
  exists t', w' = Os.withTree w t' /\ grows (Os.tree w) t'.
Proof.
  unfold Os.MkdirAll. intros H.
  destruct (Os.resolve w path) as [p|]; [|discriminate].
  destruct (Os.mkdirs (Os.chain p) (Os.tree w)) as [t'|] eqn:Hm;
    [|discriminate].
  injection H as <-. exists t'. split; [reflexivity|].
  now apply (mkdirs_grows _ _ _ Hm).
Qed.

(** Writing a regular file: the node at its key becomes a regular file
    with the content, and nothing else changes; a directory is never
    replaced. *)
Lemma writeRegular_grows c w path m d w' :
  Os.writeRegular c w path m d = Some w' ->
  exists p m',
    Os.resolve w path = Some p
    /\ w' = Os.withTree w (<[p := Os.Regular m' d]> (Os.tree w))
    /\ Os.tree w !! p <> Some Os.Directory
    /\ grows (Os.tree w) (<[p := Os.Regular m' d]> (Os.tree w)).
Proof.
  unfold Os.writeRegular. intros H.
  destruct (Os.resolve w path) as [p|]; [|discriminate].
  destruct (Os.tree w !! Dir p) as [[|? ?]|]; try discriminate.
  assert (Hg : forall m', Os.tree w !! p <> Some Os.Directory ->
                 grows (Os.tree w) (<[p := Os.Regular m' d]> (Os.tree w))).
  { intros m' Hp k. destruct (decide (p = k)) as [<- | Hne].
    - split; [contradiction|]. intros _. exists m', d.
      apply lookup_insert_eq.
    - rewrite (lookup_insert_ne _ _ _ _ Hne). unfold isRegular.
      rewrite (lookup_insert_ne _ _ _ _ Hne). tauto. }
  destruct (Os.tree w !! p) as [[|m0 d0]|] eqn:Hp; try discriminate;
    injection H as <-; eexists p, _;
    (split; [reflexivity|]); (split; [reflexivity|]);
    (split; [rewrite Hp; discriminate|]); apply Hg; discriminate.
Qed.

(** One round of the loop of [importFiles]: the file tree grows, the
    rest of the machine stays, and a success that is printed is a
    regular file afterwards. *)
Lemma importFile_grows flags repoMap w out file :
  exists t' new,
    importFile flags repoMap (w, out) file = (Os.withTree w t', out ++ new)
    /\ grows (Os.tree w) t'
    /\ forall destPath, In (Extracted destPath) new ->
         exists key, Os.resolve w destPath = Some key /\ isRegular t' key.
Proof.
  unfold importFile.
  assert (Hsame : exists t' new,
             (w, out) = (Os.withTree w t', out ++ new)
             /\ grows (Os.tree w) t'
             /\ forall destPath, In (Extracted destPath) new ->
                  exists key, Os.resolve w destPath = Some key
                              /\ isRegular t' key).
  { exists (Os.tree w), []. rewrite List.app_nil_r, withTree_tree'.
    split; [reflexivity|]. split; [apply grows_refl|]. intros ? []. }
  destruct (negb _); [exact Hsame|].
  destruct (SplitN _ "/" 2) as [|repoName [|filePath rest]]; try exact Hsame.
  destruct (repoMap !! repoName) as [repo|]; [|exact Hsame].
  set (destPath := resolveDestPath flags w repo filePath).
  destruct (Os.MkdirAll w (Dir destPath)) as [w1|] eqn:Hmk.
  - destruct (MkdirAll_grows _ _ _ Hmk) as (t1 & -> & Hg1).
    destruct (extractFile _ file destPath) as [w2 ok] eqn:Hex.
    apply extractFile_inv in Hex as [(-> & -> & _) | (Hex & Hok)].
    + exists t1, [Failed filePath]. split; [reflexivity|].
      split; [exact Hg1|]. intros d [H | []]. discriminate.
    + apply writeRegular_grows in Hex as (p & m' & Hp & -> & _ & Hg2).
      cbn [Os.tree Os.withTree] in *.
      destruct Hok as [(_ & ->) | (_ & ->)].
      * eexists _, [Extracted destPath]. split; [reflexivity|].
        split; [now apply (grows_trans _ _ _ Hg1 Hg2)|].
        intros d [[= <-] | []]. exists p. split; [exact Hp|].
        eexists _, _. apply lookup_insert_eq.
      * eexists _, [Failed filePath]. split; [reflexivity|].
        split; [now apply (grows_trans _ _ _ Hg1 Hg2)|].
        intros d [H | []]. discriminate.
  - exists (Os.tree w), [Failed filePath]. rewrite withTree_tree'.
    split; [reflexivity|]. split; [apply grows_refl|].
    intros d [H | []]. discriminate.
Qed.

Lemma importLoop_grows flags repoMap zipReader w out :
  exists t' new,
    fold_left (importFile flags repoMap) zipReader (w, out)
    = (Os.withTree w t', out ++ new)
    /\ grows (Os.tree w) t'
    /\ forall destPath, In (Extracted destPath) new ->
         exists key, Os.resolve w destPath = Some key /\ isRegular t' key.
Proof.
  revert w out. induction zipReader as [|file rest IH]; intros w out.
  - exists (Os.tree w), []. rewrite List.app_nil_r, withTree_tree'.
    split; [reflexivity|]. split; [apply grows_refl|]. intros ? [].
  - cbn [fold_left].
    destruct (importFile_grows flags repoMap w out file)
      as (t1 & new1 & -> & Hg1 & Hx1).
    destruct (IH (Os.withTree w t1) (out ++ new1))
      as (t2 & new2 & -> & Hg2 & Hx2).
    cbn [Os.tree Os.withTree] in Hg2.
    exists t2, (new1 ++ new2). rewrite List.app_assoc.
    split; [reflexivity|]. split; [now apply (grows_trans _ _ _ Hg1 Hg2)|].
    intros d Hd. apply List.in_app_or in Hd as [Hd | Hd].
    + destruct (Hx1 d Hd) as (key & Hk & Hr). exists key.
      split; [exact Hk|]. now apply (proj2 (Hg2 key)).
    + exact (Hx2 d Hd).
Qed.

Lemma importPatterns_grows w reader :
  exists t',
    fst (importPatterns w reader) = Os.withTree w t'
    /\ grows (Os.tree w) t'.
Proof.
  assert (Hsame : exists t', w = Os.withTree w t' /\ grows (Os.tree w) t').
  { exists (Os.tree w). rewrite withTree_tree'. split; [reflexivity|].
    apply grows_refl. }
  induction reader as [|file reader IH]; [exact Hsame|].
  cbn [importPatterns].
  destruct (String.eqb (Zip.Name file) "patterns.yaml"); [|exact IH].
  destruct (Zip.Read file); [|exact Hsame|exact Hsame].
  destruct (config.DefaultConfigDir w) as [configDir|]; [|exact Hsame].
  destruct (Os.MkdirAll w configDir) as [w1|] eqn:Hmk; [|exact Hsame].
  destruct (MkdirAll_grows _ _ _ Hmk) as (t1 & -> & Hg1).
  change (config.PatternsFilePath (Os.withTree w t1))
    with (config.PatternsFilePath w).
  destruct (config.PatternsFilePath w) as [pp|];
    [|exists t1; split; [reflexivity | exact Hg1]].
  destruct (Os.WriteFile _ pp _ 420) as [w2|] eqn:Hw;
    [|exists t1; split; [reflexivity | exact Hg1]].
  apply writeRegular_grows in Hw as (p & m' & _ & -> & _ & Hg2).
  cbn [Os.tree Os.withTree] in Hg2. eexists. split; [reflexivity|].
  now apply (grows_trans _ _ _ Hg1 Hg2).
Qed.

Lemma grows_Stat w t' path info :
  grows (Os.tree w) t' ->
  Os.Stat w path = Some info ->
  exists info',
    Os.Stat (Os.withTree w t') path = Some info'
    /\ Os.IsDir info' = Os.IsDir info.
Proof.
  unfold Os.Stat. rewrite resolve_withTree. intros Hg H.
  destruct (Os.resolve w path) as [p|]; [|discriminate].
  cbn [Os.tree Os.withTree].
  destruct (Os.tree w !! p) as [[|m d]|] eqn:Hp; [| |discriminate];
    injection H as <-.
  - rewrite (proj1 (Hg p) Hp). now eexists.
  - destruct (proj2 (Hg p)) as (m' & d' & ->); [now exists m, d|].
    now eexists.
Qed.

Section RunImport.
Import Strings Filepath Spec cli Notions.

Variable yamlUnmarshal : list Byte.byte -> option Manifest.

(** X12.  A restore never removes anything and never turns a directory
    into a file or a file into a directory: whatever [os.Stat] found
    before the run it finds afterwards, of the same kind.  Every
    destination that is printed as extracted is a regular file when the
    run ends. *)
Theorem runImport_keeps_nodes flags archivePath w w' out :
  runImport yamlUnmarshal flags archivePath w = Some (w', out) ->
  (forall path info,
     Os.Stat w path = Some info ->
     exists info',
       Os.Stat w' path = Some info' /\ Os.IsDir info' = Os.IsDir info)
  /\ (forall destPath,
        In (Extracted destPath) out ->
        fileExists w' destPath = true /\ dirExists w' destPath = false).
Proof.
  unfold runImport. intros H.
  destruct (Os.zipOpen w archivePath) as [reader|]; [|discriminate].
  destruct (readManifest yamlUnmarshal reader) as [manifest|];
    [|discriminate].
  assert (Hsame : Some (w, []) = Some (w', out) ->
            (forall path info,
               Os.Stat w path = Some info ->
               exists info',
                 Os.Stat w' path = Some info'
                 /\ Os.IsDir info' = Os.IsDir info)
            /\ (forall destPath,
                  In (Extracted destPath) out ->
                  fileExists w' destPath = true
                  /\ dirExists w' destPath = false)).
  { intros [= <- <-]. split; [|intros ? []]. intros path info Hs.
    now exists info. }
  destruct (importDryRun flags); [now apply Hsame|].
  destruct (_ && _); [now apply Hsame|]. clear Hsame.
  unfold importFiles in H.
  destruct (importLoop_grows flags (repoMapOf manifest) reader w [])
    as (t1 & new & Heq & Hg1 & Hx).
  rewrite Heq in H. cbn [List.app] in H.
  destruct (importPatterns_grows (Os.withTree w t1) reader)
    as (t2 & Hp & Hg2).
  rewrite Hp in H. injection H as <- <-. cbn [Os.tree Os.withTree] in Hg2.
  split.
  - intros path info Hs.
    apply (grows_Stat w t2 path info); [|exact Hs].
    now apply (grows_trans _ _ _ Hg1 Hg2).
  - intros d Hd. destruct (Hx d Hd) as (key & Hk & Hr).
    destruct (proj2 (Hg2 key) Hr) as (m & data & Hl).
    unfold fileExists, dirExists, Os.Stat.
    rewrite !resolve_withTree, Hk. cbn [Os.tree Os.withTree].
    rewrite Hl. split; reflexivity.
Qed.

(** X13.  The manifest is the first entry named [manifest.yaml], which
    has to open and to be read in full for its bytes to be parsed: what
    comes after it is never looked at, also when it cannot be read or
    parsed.  An archive with no such entry is refused and nothing is
    done. *)
Theorem readManifest_first :
  (forall before file after,
      Forall (fun f => Zip.Name f <> "manifest.yaml") before ->
      Zip.Name file = "manifest.yaml" ->
      readManifest yamlUnmarshal (before ++ file :: after)
      = match Zip.Read file with
        | Zip.Full => yamlUnmarshal (Zip.Data file)
        | _ => None
        end)
  /\ (forall flags archivePath w reader,
        Os.zipOpen w archivePath = Some reader ->
        Forall (fun f => Zip.Name f <> "manifest.yaml") reader ->
        runImport yamlUnmarshal flags archivePath w = None).
Proof.
  assert (Hnone : forall reader,
            Forall (fun f => Zip.Name f <> "manifest.yaml") reader ->
            forall rest,
              readManifest yamlUnmarshal (reader ++ rest)
              = readManifest yamlUnmarshal rest).
  { intros reader H rest. induction H as [|f fs Hf _ IH]; [reflexivity|].
    cbn [List.app readManifest].
    apply String.eqb_neq in Hf. now rewrite Hf. }
  split.
  - intros before file after Hb Hn. rewrite (Hnone _ Hb).
    cbn [readManifest]. apply String.eqb_eq in Hn. now rewrite Hn.
  - intros flags archivePath w reader Ho Hr. unfold runImport.
    rewrite Ho. rewrite <- (List.app_nil_r reader), (Hnone _ Hr).
    reflexivity.
Qed.

(** X14.  A restore that is a dry run, or one without [--yes] whose
    answer is neither [y] nor [yes] once lowered and trimmed, leaves the
    machine as it was and extracts nothing; [--dry-run] wins over
    [--yes].  Conversely a run that changed the machine or printed an
    outcome was no dry run and was confirmed. *)
Theorem runImport_declined flags archivePath w w' out :
  runImport yamlUnmarshal flags archivePath w = Some (w', out) ->
  let response := TrimSpace (ToLower (Os.stdin w)) in
  (importDryRun flags = true
   \/ (importYes flags = false /\ response <> "y" /\ response <> "yes") ->
   w' = w /\ out = [])
  /\ (w' <> w \/ out <> [] ->
      importDryRun flags = false
      /\ (importYes flags = true \/ response = "y" \/ response = "yes")).
Proof.
  intros H response. unfold runImport in H.
  destruct (Os.zipOpen w archivePath) as [reader|]; [|discriminate].
  destruct (readManifest yamlUnmarshal reader) as [manifest|];
    [|discriminate].
  cbv zeta in H. fold response in H.
  destruct (importDryRun flags).
  { injection H as <- <-. split; [now split|].
    intros [Hc | Hc]; now destruct Hc. }
  destruct (importYes flags).
  { cbn [negb andb] in H. split.
    - intros [Hc | (Hc & _)]; discriminate.
    - intros _. split; [reflexivity | now left]. }
  cbn [negb andb] in H.
  destruct (String.eqb response "y") eqn:Hy.
  { apply String.eqb_eq in Hy. cbn [negb andb] in H. split.
    - intros [Hc | (_ & Hc & _)]; [discriminate | contradiction].
    - intros _. split; [reflexivity | right; now left]. }
  destruct (String.eqb response "yes") eqn:Hyes.
  { apply String.eqb_eq in Hyes. cbn [negb andb] in H. split.
    - intros [Hc | (_ & _ & Hc)]; [discriminate | contradiction].
    - intros _. split; [reflexivity | right; now right]. }
  cbn [negb andb] in H. injection H as <- <-. split; [now split|].
  intros [Hc | Hc]; now destruct Hc.
Qed.

End RunImport.

Lemma repoMapOf_last manifest before repo after :
  Repos manifest = before ++ repo :: after ->
  Forall (fun r => Name r <> Name repo) after ->
  repoMapOf manifest !! Name repo = Some repo.
Proof.
  intros Hr Ha. unfold repoMapOf. rewrite repoMap_lookup, Hr.
  rewrite List.rev_app_distr. cbn [rev]. rewrite <- List.app_assoc.
  rewrite find_app.
  assert (Hn : List.find (fun r => String.eqb (Name r) (Name repo))
                 (rev after) = None).
  { destruct (List.find _ (rev after)) as [r|] eqn:Hf; [|reflexivity].
    apply List.find_some in Hf as [Hin Hn]. apply List.in_rev in Hin.
    rewrite List.Forall_forall in Ha. apply String.eqb_eq in Hn.
    now destruct (Ha r Hin). }
  rewrite Hn. cbn [List.app List.find]. now rewrite String.eqb_refl.
Qed.

(** X15.  Repositories are told apart by their directory name only.
    When the manifest lists several repositories of one name (a
    recursive export of [a/app] and [b/app]), every entry under that
    name is restored against the last of them, whichever repository it
    came from. *)
Theorem same_name_last_wins flags manifest before repo after w out file
    filePath :
  Repos manifest = before ++ repo :: after ->
  Forall (fun r => Name r <> Name repo) after ->
  Contains (Name repo) "/" = false ->
  Zip.Name file = entryName (Name repo) filePath ->
  importFile flags (repoMapOf manifest) (w, out) file
  = let destPath := resolveDestPath flags w repo filePath in
    match Os.MkdirAll w (Dir destPath) with
    | None => (w, out ++ [Failed filePath])
    | Some w1 =>
        let (w2, ok) := extractFile w1 file destPath in
        if ok then (w2, out ++ [Extracted destPath])
        else (w2, out ++ [Failed filePath])
    end.
Proof.
  intros Hr Ha Hsep Hname.
  apply (importFile_entry _ _ _ _ _ _ _ _ Hname Hsep).
  now apply (repoMapOf_last _ _ _ _ Hr Ha).
Qed.

Lemma importPatterns_skip w before rest :
  Forall (fun f => Zip.Name f <> "patterns.yaml") before ->
  importPatterns w (before ++ rest) = importPatterns w rest.
Proof.
  intros H. induction H as [|f fs Hf _ IH]; [reflexivity|].
  cbn [List.app importPatterns].
  apply String.eqb_neq in Hf. now rewrite Hf.
Qed.

Lemma ReadFile_mkdirs ds (t t' : gmap string Os.node) k :
  Os.mkdirs ds t = Some t' ->
  match t' !! k with Some (Os.Regular _ d) => Some d | _ => None end
  = match t !! k with Some (Os.Regular _ d) => Some d | _ => None end.
Proof.
  revert t. induction ds as [|d ds IH]; intros t H; cbn [Os.mkdirs] in H.
  - now injection H as <-.
  - destruct (t !! d) as [[|? ?]|] eqn:Hd; try discriminate.
    + now apply IH.
    + rewrite (IH _ H). destruct (decide (d = k)) as [<- | Hne].
      * now rewrite lookup_insert_eq, Hd.
      * now rewrite lookup_insert_ne.
Qed.

Lemma ReadFile_MkdirAll w path w' p :
  Os.MkdirAll w path = Some w' -> Os.ReadFile w' p = Os.ReadFile w p.
Proof.
  unfold Os.MkdirAll. intros H.
  destruct (Os.resolve w path) as [q|]; [|discriminate].
  destruct (Os.mkdirs (Os.chain q) (Os.tree w)) as [t'|] eqn:Hm;
    [|discriminate].
  injection H as <-. unfold Os.ReadFile. rewrite resolve_withTree.
  destruct (Os.resolve w p) as [k|]; [|reflexivity].
  cbn [Os.tree Os.withTree]. now apply (ReadFile_mkdirs _ _ _ _ Hm).
Qed.

Lemma importPatterns_found w before file after w' :
  Forall (fun f => Zip.Name f <> "patterns.yaml") before ->
  Zip.Name file = "patterns.yaml" ->
  importPatterns w (before ++ file :: after) = (w', true) ->
  exists patternsPath,
    config.PatternsFilePath w = Some patternsPath
    /\ Os.ReadFile w' patternsPath = Some (Zip.Data file).
Proof.
  intros Hb Hn. rewrite (importPatterns_skip _ _ _ Hb).
  cbn [importPatterns]. apply String.eqb_eq in Hn. rewrite Hn.
  destruct (Zip.Read file); [|discriminate|discriminate].
  unfold config.PatternsFilePath.
  destruct (config.DefaultConfigDir w) as [configDir|] eqn:Hc;
    [|discriminate].
  destruct (Os.MkdirAll w configDir) as [w1|] eqn:Hmk; [|discriminate].
  destruct (MkdirAll_frame _ _ _ Hmk) as (t1 & ->).
  change (config.DefaultConfigDir (Os.withTree w t1))
    with (config.DefaultConfigDir w). rewrite Hc.
  destruct (Os.WriteFile _ _ _ 420) as [w2|] eqn:Hw; [|discriminate].
  intros [= <-]. eexists. split; [reflexivity|].
  unfold Os.WriteFile in Hw.
  apply writeRegular_grows in Hw as (p & m' & Hp & -> & _).
  unfold Os.ReadFile. rewrite resolve_withTree, Hp.
  cbn [Os.tree Os.withTree]. now rewrite lookup_insert_eq.
Qed.

(** X16.  [importPatterns] takes the first entry named [patterns.yaml]:
    when it returns without error the pattern file of the machine holds
    the content of that entry, and when it returns an error the pattern
    file reads as before.  An archive with no such entry is no error and
    changes nothing. *)
Theorem importPatterns_first w :
  (forall before file after w' ok,
      Forall (fun f => Zip.Name f <> "patterns.yaml") before ->
      Zip.Name file = "patterns.yaml" ->
      importPatterns w (before ++ file :: after) = (w', ok) ->
      if ok
      then exists patternsPath,
             config.PatternsFilePath w = Some patternsPath
             /\ Os.ReadFile w' patternsPath = Some (Zip.Data file)
      else forall patternsPath,
             config.PatternsFilePath w = Some patternsPath ->
             Os.ReadFile w' patternsPath = Os.ReadFile w patternsPath)
  /\ (forall reader,
        Forall (fun f => Zip.Name f <> "patterns.yaml") reader ->
        importPatterns w reader = (w, true)).
Proof.
  split.
  - intros before file after w' [|] Hb Hn;
      [now apply importPatterns_found|].
    rewrite (importPatterns_skip _ _ _ Hb).
    cbn [importPatterns]. apply String.eqb_eq in Hn. rewrite Hn.
    destruct (Zip.Read file).
    2,3: intros [= <-]; reflexivity.
    unfold config.PatternsFilePath.
    destruct (config.DefaultConfigDir w) as [configDir|] eqn:Hc.
    2:{ intros [= <-]. intros pp Hpp. discriminate. }
    destruct (Os.MkdirAll w configDir) as [w1|] eqn:Hmk.
    2:{ intros [= <-]. reflexivity. }
    pose proof (fun p => ReadFile_MkdirAll _ _ _ p Hmk) as Hread.
    destruct (MkdirAll_frame _ _ _ Hmk) as (t1 & ->).
    change (config.DefaultConfigDir (Os.withTree w t1))
      with (config.DefaultConfigDir w). rewrite Hc.
    destruct (Os.WriteFile _ _ _ 420) as [w2|] eqn:Hw; [discriminate|].
    intros [= <-]. intros pp [= <-]. apply Hread.
  - intros reader Hr. rewrite <- (List.app_nil_r reader).
    now rewrite (importPatterns_skip _ _ _ Hr).
Qed.

End MoreImport.

(* ===================================================================== *)
(** ** The loop of the restore, entry by entry *)
(* ===================================================================== *)

Section Restore.
Import Strings Filepath Spec cli Notions.

(** One round of the loop on an entry of a repository of the manifest,
    by what making the directories, opening and reading the entry and
    creating the file give. *)
Lemma importFile_cases flags manifest w out file repoName filePath repo :
  Zip.Name file = entryName repoName filePath ->
  Contains repoName "/" = false ->
  repoMapOf manifest !! repoName = Some repo ->
  let destPath := resolveDestPath flags w repo filePath in
  importFile flags (repoMapOf manifest) (w, out) file
  = match Os.MkdirAll w (Dir destPath) with
    | None => (w, out ++ [Failed filePath])
    | Some w1 =>
        match Zip.Read file,
              Os.writeRegular true w1 destPath (chmodBits (Zip.Mode file))
                (Zip.Data file) with
        | Zip.Full, Some w2 => (w2, out ++ [Extracted destPath])
        | Zip.ReadError, Some w2 => (w2, out ++ [Failed filePath])
        | _, _ => (w1, out ++ [Failed filePath])
        end
    end.
Proof.
  intros Hname Hsep Hrepo destPath.
  rewrite (importFile_entry _ _ _ _ _ _ _ _ Hname Hsep Hrepo).
  cbv zeta. fold destPath.
  destruct (Os.MkdirAll w (Dir destPath)) as [w1|]; [|reflexivity].
  unfold extractFile.
  destruct (Zip.Read file); [| reflexivity |];
    now destruct (Os.writeRegular _ _ _ _ _).
Qed.

(** A file that the loop has written is a regular file of the machine
    that [runImport] returns. *)
Lemma written_stays flags repoMap w1 destPath m d w2 out after reader :
  Os.writeRegular true w1 destPath m d = Some w2 ->
  let final := fold_left (importFile flags repoMap) after (w2, out) in
  let w' := fst (importPatterns (fst final) reader) in
  (exists new, snd final = out ++ new)
  /\ fileExists w' destPath = true
  /\ dirExists w' destPath = false.
Proof.
  intros Hw final w'.
  apply writeRegular_grows in Hw as (p & m' & Hp & -> & _ & _).
  destruct (importLoop_grows flags repoMap after
              (Os.withTree w1 (<[p := Os.Regular m' d]> (Os.tree w1))) out)
    as (t1 & new & Hl & Hg1 & _).
  destruct (importPatterns_grows (fst final) reader) as (t2 & Hip & Hg2).
  subst w'. rewrite Hip. subst final. rewrite Hl in *.
  cbn [fst snd Os.tree Os.withTree] in *.
  split; [now exists new|].
  destruct (proj2 (Hg2 p)) as (m2 & d2 & Hl2).
  { apply (proj2 (Hg1 p)). exists m', d. apply lookup_insert_eq. }
  unfold fileExists, dirExists, Os.Stat.
  rewrite !resolve_withTree, Hp. cbn [Os.tree Os.withTree].
  rewrite Hl2. split; reflexivity.
Qed.

(** C10.  Extraction is archive-driven: in a restore that is confirmed
    and no dry run, what [runImport] returns is what the loop over the
    archive entries leaves, entry by entry, the pattern file then being
    put in place.  An entry [files/<repoName>/<filePath>] whose
    [repoName] is the name of a repository of the manifest is extracted
    to the resolved destination whether or not the manifest lists
    [filePath] (its [Files] are never consulted): when the directories
    can be made, the entry is read in full and the file can be created,
    the loop leaves the content of the entry at the destination and
    prints the success, the success is among the outcomes of the run and
    the destination is a regular file of the machine the run returns.
    An entry under [files/] without a second element, and an entry of a
    repository the manifest does not have, change nothing and print
    nothing. *)
Theorem extraction_is_archive_driven
    yamlUnmarshal flags archivePath w manifest before file after :
  Os.zipOpen w archivePath = Some (before ++ file :: after) ->
  readManifest yamlUnmarshal (before ++ file :: after) = Some manifest ->
  confirmed flags w = true ->
  let loop := fold_left (importFile flags (repoMapOf manifest)) in
  let st := importFiles flags w before manifest in
  let final := loop after (loop [file] st) in
  let w' := fst (importPatterns (fst final) (before ++ file :: after)) in
  runImport yamlUnmarshal flags archivePath w = Some (w', snd final)
  /\ (forall repoName filePath,
         Zip.Name file = entryName repoName filePath ->
         Contains repoName "/" = false ->
         In repoName (List.map Name (Repos manifest)) ->
         exists repo,
           In repo (Repos manifest) /\ Name repo = repoName
           /\ let destPath := resolveDestPath flags (fst st) repo filePath in
              forall w1 w2,
                Os.MkdirAll (fst st) (Dir destPath) = Some w1 ->
                Zip.Read file = Zip.Full ->
                Os.writeRegular true w1 destPath
                  (chmodBits (Zip.Mode file)) (Zip.Data file) = Some w2 ->
                loop [file] st = (w2, snd st ++ [Extracted destPath])
                /\ Os.ReadFile w2 destPath = Some (Zip.Data file)
                /\ In (Extracted destPath) (snd final)
                /\ fileExists w' destPath = true
                /\ dirExists w' destPath = false)
  /\ ((exists s, Zip.Name file = "files/" +:+ s /\ Contains s "/" = false)
      \/ (exists repoName filePath,
             Zip.Name file = entryName repoName filePath
             /\ Contains repoName "/" = false
             /\ ~ In repoName (List.map Name (Repos manifest))) ->
      loop [file] st = st).
Proof.
  intros Hzip Hman Hc loop st final w'. split; [|split].
  - rewrite (runImport_confirmed _ _ _ _ _ _ Hzip Hman Hc).
    subst w' final loop st. now rewrite importFiles_cons.
  - intros repoName filePath Hname Hsep Hin.
    destruct (repoMapOf_Some _ _ Hin) as (repo & Hrepo & Hin' & Hn).
    exists repo. split; [assumption|]. split; [assumption|].
    intros destPath w1 w2 Hmk Hfull Hcreate.
    assert (Hstep : loop [file] st = (w2, snd st ++ [Extracted destPath])).
    { subst loop destPath. cbn [fold_left]. destruct st as [w0 out0].
      rewrite (importFile_cases _ _ _ _ _ _ _ _ Hname Hsep Hrepo).
      cbn [fst snd] in *. cbv zeta. now rewrite Hmk, Hfull, Hcreate. }
    split; [exact Hstep|].
    split; [now apply (writeRegular_read _ _ _ _ _ _ Hcreate)|].
    subst w' final. rewrite Hstep.
    destruct (written_stays flags (repoMapOf manifest) w1 destPath _ _ w2
                (snd st ++ [Extracted destPath]) after
                (before ++ file :: after) Hcreate)
      as ((new & Hout) & Hfile & Hdir).
    split; [|split; assumption].
    fold loop in Hout. rewrite Hout.
    apply List.in_or_app. left. apply List.in_or_app. right. now left.
  - intros H. subst loop. cbn [fold_left].
    apply importFile_skip. tauto.
Qed.

(** C3 (as the code has it).  The restore does not look whether a
    destination lies under the directory of its repository.  An entry
    [files/<repo>/<path>] whose destination, the lexically cleaned join,
    lies outside of it is handled as any other.  When the directories
    can be made, the entry is read in full and the file can be created,
    it is extracted there, printed as a success and can be read back.
    It is printed as a failure when the directories cannot be made; when
    the entry does not open or the file cannot be created, nothing but
    the directories being written; and when reading the entry fails on
    the way, the file outside of the repository then being created or
    truncated and holding what was read.  In every case the entries
    after it are handled. *)
Theorem traversal_is_not_rejected
    flags w manifest before file after repoName filePath repo :
  Zip.Name file = entryName repoName filePath ->
  Contains repoName "/" = false ->
  repoMapOf manifest !! repoName = Some repo ->
  let loop := fold_left (importFile flags (repoMapOf manifest)) in
  let st := importFiles flags w before manifest in
  let destPath := resolveDestPath flags (fst st) repo filePath in
  let create w1 :=
    Os.writeRegular true w1 destPath (chmodBits (Zip.Mode file))
      (Zip.Data file) in
  escapes flags (fst st) repo filePath = true ->
  (forall w1 w2,
      Os.MkdirAll (fst st) (Dir destPath) = Some w1 ->
      Zip.Read file = Zip.Full ->
      create w1 = Some w2 ->
      importFiles flags w (before ++ file :: after) manifest
      = loop after (w2, snd st ++ [Extracted destPath])
      /\ Os.ReadFile w2 destPath = Some (Zip.Data file))
  /\ (Os.MkdirAll (fst st) (Dir destPath) = None ->
      importFiles flags w (before ++ file :: after) manifest
      = loop after (fst st, snd st ++ [Failed filePath]))
  /\ (forall w1,
         Os.MkdirAll (fst st) (Dir destPath) = Some w1 ->
         Zip.Read file = Zip.OpenError \/ create w1 = None ->
         importFiles flags w (before ++ file :: after) manifest
         = loop after (w1, snd st ++ [Failed filePath]))
  /\ (forall w1 w2,
         Os.MkdirAll (fst st) (Dir destPath) = Some w1 ->
         Zip.Read file = Zip.ReadError ->
         create w1 = Some w2 ->
         importFiles flags w (before ++ file :: after) manifest
         = loop after (w2, snd st ++ [Failed filePath])
         /\ Os.ReadFile w2 destPath = Some (Zip.Data file)).
Proof.
  intros Hname Hsep Hrepo loop st destPath create _.
  assert (Hstep : importFiles flags w (before ++ file :: after) manifest
                  = loop after
                      match Os.MkdirAll (fst st) (Dir destPath) with
                      | None => (fst st, snd st ++ [Failed filePath])
                      | Some w1 =>
                          match Zip.Read file, create w1 with
                          | Zip.Full, Some w2 =>
                              (w2, snd st ++ [Extracted destPath])
                          | Zip.ReadError, Some w2 =>
                              (w2, snd st ++ [Failed filePath])
                          | _, _ => (w1, snd st ++ [Failed filePath])
                          end
                      end).
  { rewrite importFiles_cons. fold st. subst loop create destPath.
    destruct st as [w0 out0].
    now rewrite (importFile_cases _ _ _ _ _ _ _ _ Hname Hsep Hrepo). }
  split; [|split; [|split]].
  - intros w1 w2 Hmk Hfull Hcreate. rewrite Hstep, Hmk, Hfull, Hcreate.
    split; [reflexivity|].
    now apply (writeRegular_read _ _ _ _ _ _ Hcreate).
  - intros Hmk. now rewrite Hstep, Hmk.
  - intros w1 Hmk [Hopen | Hcreate]; rewrite Hstep, Hmk.
    + now rewrite Hopen.
    + rewrite Hcreate. now destruct (Zip.Read file).
  - intros w1 w2 Hmk Hcut Hcreate. rewrite Hstep, Hmk, Hcut, Hcreate.
    split; [reflexivity|].
    now apply (writeRegular_read _ _ _ _ _ _ Hcreate).
Qed.

End Restore.

Section PatternsTrip.
Import Strings Filepath Spec cli Notions.

Variable yamlMarshal : Manifest -> option (list Byte.byte).

(** X17.  The pattern file travels with the archive: when the exporting
    machine has one (and it is not the output file), an import of the
    archive that reports no error leaves the importing machine with a
    pattern file of the same content. *)
Theorem patterns_round_trip src outputPath repos src' archive
    patternsPath patternsData tgt tgt' :
  config.PatternsFilePath src = Some patternsPath ->
  Os.ReadFile src patternsPath = Some patternsData ->
  Os.resolve src outputPath <> Os.resolve src patternsPath ->
  createExportZip yamlMarshal src outputPath repos = Some (src', archive) ->
  importPatterns tgt archive = (tgt', true) ->
  exists path,
    config.PatternsFilePath tgt = Some path
    /\ Os.ReadFile tgt' path = Some patternsData.
Proof.
  intros Hpp Hread Hne Hex Him.
  apply createExportZip_entries in Hex as (md & Hw & _ & ->).
  apply writeRegular_inv in Hw as (k & n & Hk & ->).
  unfold patternsEntry in Him.
  change (config.PatternsFilePath (Os.withTree src _))
    with (config.PatternsFilePath src) in Him.
  rewrite Hpp in Him.
  assert (Hr : Os.ReadFile (Os.withTree src (<[k:=n]> (Os.tree src)))
                 patternsPath = Some patternsData).
  { unfold Os.ReadFile in *. rewrite resolve_withTree.
    destruct (Os.resolve src patternsPath) as [p|]; [|discriminate].
    cbn [Os.tree Os.withTree]. rewrite lookup_insert_ne; [exact Hread|].
    intros ->. now apply Hne. }
  rewrite Hr in Him. cbn [List.app] in Him.
  apply (importPatterns_found tgt
           [{| Zip.Name := "manifest.yaml"; Zip.Mode := modeCreate;
               Zip.Data := md; Zip.Read := Zip.Full |}]) in Him
    as (path & Hp & Hd).
  - now exists path.
  - constructor; [discriminate | constructor].
  - reflexivity.
Qed.

End PatternsTrip.

(* ===================================================================== *)
(** ** Archive names and destinations *)
(* ===================================================================== *)

Section CleanFacts.
Import Strings Filepath Spec cli Notions.

Lemma plain_step rooted out e :
  plain e = true -> cleanStep rooted out e = e :: out.
Proof.
  unfold plain, cleanStep. intros H.
  apply andb_true_iff in H as [H _]. apply negb_true_iff in H.
  apply orb_false_iff in H as [H Hdd]. now rewrite H, Hdd.
Qed.

Lemma fold_cleanStep_plain rooted l out :
  forallb plain l = true ->
  fold_left (cleanStep rooted) l out = rev l ++ out.
Proof.
  revert out. induction l as [|e l IH]; intros out H; [reflexivity|].
  cbn [forallb] in H. apply andb_true_iff in H as [He Hl].
  cbn [fold_left rev]. rewrite (plain_step _ _ _ He), (IH _ Hl).
  now rewrite <- List.app_assoc.
Qed.

Lemma plainPath_relative c s :
  plainPath (String c s) = true -> IsPathSeparator c = false.
Proof.
  unfold plainPath. cbn [elements].
  destruct (IsPathSeparator c); [discriminate|reflexivity].
Qed.

(** A plain path is clean. *)
Lemma Clean_plain p : plainPath p = true -> Clean p = p.
Proof.
  intros H. destruct p as [|c s] eqn:Ep; [discriminate|].
  unfold Clean. rewrite (plainPath_relative _ _ H).
  unfold plainPath in H. rewrite (fold_cleanStep_plain _ _ _ H).
  rewrite List.app_nil_r, List.rev_involutive, Join_elements.
  reflexivity.
Qed.

Lemma Join_last_nonempty l e : e <> "" -> Strings.Join (l ++ [e]) "/" <> "".
Proof.
  intros He. induction l as [|x l IH]; [exact He|].
  cbn [List.app]. rewrite Join_cons by (now destruct l).
  destruct x; [|discriminate]. discriminate.
Qed.

(** Below a path whose last element is a real name, a plain path is
    appended as it is. *)
Lemma Clean_under r f :
  plain (lastElement r) = true -> plainPath f = true ->
  Clean (r +:+ "/" +:+ f) = Clean r +:+ "/" +:+ f.
Proof.
  intros Hp Hf.
  destruct (elements_last r) as (init & Hel).
  set (e := lastElement r) in *.
  assert (He : e <> "") by (intros E; rewrite E in Hp; discriminate).
  destruct r as [|c r'] eqn:Er.
  { cbn in e. subst e. contradiction. }
  rewrite append_cons. unfold Clean. rewrite <- append_cons.
  rewrite <- Er in *. clearbody e.
  rewrite elements_app, Hel, !List.fold_left_app. cbn [fold_left].
  set (out := fold_left (cleanStep (IsPathSeparator c)) init []).
  rewrite (plain_step _ _ _ Hp).
  unfold plainPath in Hf. rewrite (fold_cleanStep_plain _ _ _ Hf).
  rewrite List.rev_app_distr, List.rev_involutive. cbn [rev].
  rewrite Join_app;
    [|intros E; apply List.app_eq_nil in E as [_ E]; discriminate
     |apply elements_nonempty].
  rewrite Join_elements.
  destruct (IsPathSeparator c); [now rewrite append_cons|].
  pose proof (Join_last_nonempty (rev out) e He) as Hne.
  destruct (Strings.Join (rev out ++ [e]) "/") as [|x body];
    [contradiction|].
  reflexivity.
Qed.

Lemma Clean_slash r :
  plain (lastElement r) = true -> Clean (r +:+ "/") = Clean r.
Proof.
  intros Hp.
  destruct r as [|c r'] eqn:Er; [discriminate|].
  rewrite append_cons. unfold Clean. rewrite <- append_cons.
  rewrite <- Er. change (r +:+ "/") with (r +:+ "/" +:+ "").
  rewrite elements_app, List.fold_left_app. reflexivity.
Qed.

End CleanFacts.

Section ArchiveNames.
Import Strings Filepath Spec cli Notions.

Lemma plain_sep_free e : plain e = true -> Contains e "/" = false.
Proof.
  unfold plain. intros H. apply andb_true_iff in H as [_ H].
  now apply negb_true_iff in H.
Qed.

Lemma lastElement_plain e : plain e = true -> lastElement e = e.
Proof.
  intros H. unfold lastElement.
  now rewrite (elements_plain _ (plain_sep_free _ H)).
Qed.

Lemma Join3 (a b c : string) :
  a <> "" ->
  Filepath.Join [a; b; c] = Clean ((a +:+ "/" +:+ b) +:+ "/" +:+ c).
Proof.
  intros Ha. cbn [Filepath.Join]. apply String.eqb_neq in Ha. rewrite Ha.
  cbn [Strings.Join]. now rewrite append_assoc.
Qed.

Lemma Join2 (a c : string) :
  a <> "" -> Filepath.Join [a; c] = Clean (a +:+ "/" +:+ c).
Proof.
  intros Ha. cbn [Filepath.Join]. apply String.eqb_neq in Ha. now rewrite Ha.
Qed.

(** X18.  The name of an archive entry is read back as it was written:
    for a repository whose name is a real directory name and a relative
    path of real names, the entry [createExportZip] writes is
    [files/<name>/<path>], and [importFiles] splits it into this name
    and this path again. *)
Theorem zipPath_round_trip name filePath :
  plain name = true -> plainPath filePath = true ->
  let zipPath := Filepath.Join ["files"; name; filePath] in
  zipPath = entryName name filePath
  /\ HasPrefix zipPath "files/" = true
  /\ SplitN (TrimPrefix zipPath "files/") "/" 2 = [name; filePath].
Proof.
  intros Hn Hf zipPath.
  assert (Hz : zipPath = entryName name filePath).
  { unfold zipPath. rewrite Join3 by discriminate.
    rewrite Clean_under; [|now rewrite lastElement_app, lastElement_plain
                          |exact Hf].
    rewrite Clean_plain; [reflexivity|].
    unfold plainPath. rewrite elements_app.
    rewrite (elements_plain _ (plain_sep_free _ Hn)).
    cbn. now rewrite Hn. }
  rewrite Hz. split; [reflexivity|]. split.
  - unfold entryName. apply HasPrefix_app.
  - apply SplitN_entry, plain_sep_free, Hn.
Qed.

(** X19.  A well-formed entry stays inside its repository: for a
    repository whose name and directory end in a real name and a
    relative path of real names, the destination is the root of the
    repository (the destination of the empty path) followed by the path
    as it is, whichever of the three rules gives the root. *)
Theorem resolveDestPath_under_root flags w repo filePath :
  plain (Name repo) = true ->
  plain (lastElement (Path repo)) = true ->
  plainPath filePath = true ->
  resolveDestPath flags w repo filePath
  = resolveDestPath flags w repo "" +:+ "/" +:+ filePath
  /\ escapes flags w repo filePath = false.
Proof.
  intros Hn Hp Hf.
  assert (Heq : resolveDestPath flags w repo filePath
                = resolveDestPath flags w repo "" +:+ "/" +:+ filePath).
  { assert (H3 : forall base, base <> "" ->
              Filepath.Join [base; Name repo; filePath]
              = Filepath.Join [base; Name repo; ""] +:+ "/" +:+ filePath).
    { intros base Hb. rewrite !Join3 by assumption.
      assert (Hl : plain (lastElement (base +:+ "/" +:+ Name repo)) = true)
        by now rewrite lastElement_app, lastElement_plain.
      rewrite (Clean_under _ _ Hl Hf).
      change ("/" +:+ "") with "/". now rewrite (Clean_slash _ Hl). }
    unfold resolveDestPath.
    destruct (negb (String.eqb (importBaseDir flags) "")) eqn:Hb.
    - apply H3. apply negb_true_iff in Hb. now apply String.eqb_neq.
    - destruct (dirExists w (Path repo)).
      + assert (Hne : Path repo <> "")
          by (intros E; rewrite E in Hp; discriminate).
        rewrite !Join2 by assumption.
        rewrite (Clean_under _ _ Hp Hf).
        change ("/" +:+ "") with "/". now rewrite (Clean_slash _ Hp).
      + apply H3. discriminate. }
  split; [exact Heq|].
  unfold escapes, repoRoot. rewrite Heq, <- append_assoc, HasPrefix_app.
  reflexivity.
Qed.

End ArchiveNames.

(* ===================================================================== *)
(** ** The pattern file and the [sync] command *)
(* ===================================================================== *)

Section Unseen.
Import Strings Filepath patterns sync.

Lemma tracks_empty : tracks (∅, []).
Proof.
  split; [constructor|]. intros x. cbn. rewrite lookup_empty. cbn.
  split; [discriminate | intros []].
Qed.

Lemma appendUnseen_tracks st x :
  tracks st ->
  tracks (appendUnseen st x)
  /\ forall y, In y (snd (appendUnseen st x)) <-> In y (snd st) \/ y = x.
Proof.
  destruct st as [seen result]. intros [Hnd Hseen]. cbn [fst snd] in *.
  unfold appendUnseen.
  destruct (default false (seen !! x)) eqn:Hx; cbn [negb fst snd].
  - split; [now split|]. intros y. split; [now left|].
    intros [H | ->]; [exact H | now apply Hseen].
  - assert (Hnot : ~ In x result).
    { intros Hin. apply Hseen in Hin. congruence. }
    split; [split|].
    + apply NoDup_app. split; [exact Hnd|].
      split; [|apply NoDup_singleton].
      intros y Hy Hy'. apply list_elem_of_In in Hy.
      apply list_elem_of_singleton in Hy'. subst y. contradiction.
    + intros y. cbn [fst snd]. rewrite List.in_app_iff.
      destruct (decide (x = y)) as [<- | Hne].
      * rewrite lookup_insert_eq. cbn. split; [intros _|reflexivity].
        right. now left.
      * rewrite lookup_insert_ne by assumption. rewrite Hseen.
        split; [now left|]. intros [H | [H | []]]; [exact H|].
        contradiction.
    + intros y. rewrite List.in_app_iff. cbn [In]. intuition congruence.
Qed.

Lemma appendLoop_tracks xs st :
  tracks st ->
  tracks (fold_left appendUnseen xs st)
  /\ forall y, In y (snd (fold_left appendUnseen xs st))
               <-> In y (snd st) \/ In y xs.
Proof.
  revert st. induction xs as [|x xs IH]; intros st Ht.
  - split; [exact Ht|]. intros y. cbn. tauto.
  - cbn [fold_left].
    destruct (appendUnseen_tracks st x Ht) as [Ht1 Hin1].
    destruct (IH _ Ht1) as [Ht2 Hin2]. split; [exact Ht2|].
    intros y. rewrite Hin2, Hin1. cbn [In]. intuition congruence.
Qed.

End Unseen.

Section DepsDirsOfConfig.
Import Strings Filepath patterns sync.

Variable languages : gmap string (option Language).

Lemma addLanguage_None order :
  fold_left (addLanguage languages) order None = None.
Proof. induction order as [|l order IH]; [reflexivity | exact IH]. Qed.

Lemma languageLoop_nil order st name :
  In name order -> languages !! name = Some None ->
  fold_left (addLanguage languages) order st = None.
Proof.
  intros Hin Hl. revert st Hin.
  induction order as [|k order IH]; intros st []; cbn [fold_left].
  - subst k. destruct st; unfold addLanguage; rewrite ?Hl;
      apply addLanguage_None.
  - now apply IH.
Qed.

Lemma languageLoop_tracks order st :
  tracks st ->
  (forall name, In name order -> languages !! name <> Some None) ->
  exists st',
    fold_left (addLanguage languages) order (Some st) = Some st'
    /\ tracks st'
    /\ forall y, In y (snd st')
                 <-> In y (snd st)
                     \/ exists name l,
                          In name order
                          /\ languages !! name = Some (Some l)
                          /\ In y (Deps l).
Proof.
  revert st. induction order as [|k order IH]; intros st Ht Hnil.
  - exists st. split; [reflexivity|]. split; [exact Ht|].
    intros y. split; [now left|]. now intros [H | (n & l & [] & _)].
  - cbn [fold_left]. unfold addLanguage at 2.
    assert (Hrest : forall name, In name order ->
                      languages !! name <> Some None)
      by (intros name Hn; apply Hnil; now right).
    destruct (languages !! k) as [[l|]|] eqn:Hk.
    + destruct (appendLoop_tracks (Deps l) st Ht) as [Ht1 Hin1].
      destruct (IH _ Ht1 Hrest) as (st' & Hf & Ht' & Hin').
      exists st'. split; [exact Hf|]. split; [exact Ht'|].
      intros y. rewrite Hin', Hin1. split.
      * intros [[H | H] | (n & l' & Hn & Hl' & Hy)]; [now left | |].
        -- right. exists k, l. split; [now left|]. now split.
        -- right. exists n, l'. split; [now right|]. now split.
      * intros [H | (n & l' & [<- | Hn] & Hl' & Hy)]; [now left; left | |].
        -- left. right. rewrite Hk in Hl'. now injection Hl' as <-.
        -- right. now exists n, l'.
    + exfalso. apply (Hnil k); [now left | exact Hk].
    + destruct (IH _ Ht Hrest) as (st' & Hf & Ht' & Hin').
      exists st'. split; [exact Hf|]. split; [exact Ht'|].
      intros y. rewrite Hin'. split.
      * intros [H | (n & l' & Hn & Hl' & Hy)]; [now left|].
        right. exists n, l'. split; [now right|]. now split.
      * intros [H | (n & l' & [<- | Hn] & Hl' & Hy)]; [now left | |].
        -- rewrite Hk in Hl'. discriminate.
        -- right. now exists n, l'.
Qed.

End DepsDirsOfConfig.

Section DepsDirsOfMap.
Import Strings Filepath patterns sync.

(** X20.  [GetAllDepsDirs] gives every dependency directory of every
    language once: in whatever order the keys of the map are visited,
    the result has no duplicates and holds exactly the directories some
    language lists, so two orders give the same directories up to their
    order.  A nil configuration gives none, and a language that is nil
    makes the call panic. *)
Theorem GetAllDepsDirs_set c order :
  order ≡ₚ (map_to_list (Languages c)).*1 ->
  GetAllDepsDirs None order = Some []
  /\ ((exists name, Languages c !! name = Some None) ->
      GetAllDepsDirs (Some c) order = None)
  /\ ((forall name, Languages c !! name <> Some None) ->
      exists result,
        GetAllDepsDirs (Some c) order = Some result
        /\ NoDup result
        /\ (forall dep,
              In dep result
              <-> exists name l,
                    Languages c !! name = Some (Some l) /\ In dep (Deps l))
        /\ forall order' result',
             order' ≡ₚ order ->
             GetAllDepsDirs (Some c) order' = Some result' ->
             result' ≡ₚ result).
Proof.
  intros Hperm.
  assert (Hmem : forall order' name,
            order' ≡ₚ order ->
            In name order' <-> is_Some (Languages c !! name)).
  { intros order' name Hp. rewrite <- list_elem_of_In, Hp, Hperm.
    rewrite list_elem_of_fmap. split.
    - intros ([k v] & -> & Hin). exists v.
      now apply elem_of_map_to_list in Hin.
    - intros (v & Hl). exists (name, v). split; [reflexivity|].
      now apply elem_of_map_to_list. }
  assert (Hrun : (forall name, Languages c !! name <> Some None) ->
            forall order', order' ≡ₚ order ->
            exists result,
              GetAllDepsDirs (Some c) order' = Some result
              /\ NoDup result
              /\ forall dep,
                   In dep result
                   <-> exists name l,
                         Languages c !! name = Some (Some l)
                         /\ In dep (Deps l)).
  { intros Hnil order' Hp.
    destruct (languageLoop_tracks (Languages c) order' (∅, []) tracks_empty)
      as (st' & Hf & [Hnd _] & Hin).
    { intros name _. apply Hnil. }
    exists (snd st'). unfold GetAllDepsDirs. rewrite Hf.
    split; [reflexivity|]. split; [exact Hnd|].
    intros dep. rewrite Hin. cbn [snd In]. split.
    - intros [[] | (name & l & _ & Hl & Hd)]. now exists name, l.
    - intros (name & l & Hl & Hd). right. exists name, l.
      split; [|now split]. apply (Hmem _ _ Hp). rewrite Hl. now eexists. }
  split; [reflexivity|]. split.
  - intros (name & Hl). unfold GetAllDepsDirs.
    rewrite (languageLoop_nil _ _ _ name); [reflexivity | | exact Hl].
    apply (Hmem order name); [reflexivity | rewrite Hl; now eexists].
  - intros Hnil.
    destruct (Hrun Hnil order) as (result & Hr & Hnd & Hin); [reflexivity|].
    exists result. split; [exact Hr|]. split; [exact Hnd|].
    split; [exact Hin|].
    intros order' result' Hp Hr'.
    destruct (Hrun Hnil order' Hp) as (r' & Hr2 & Hnd' & Hin').
    rewrite Hr' in Hr2. injection Hr2 as <-.
    apply NoDup_Permutation; [exact Hnd' | exact Hnd|].
    intros x. rewrite !list_elem_of_In, Hin, Hin'. reflexivity.
Qed.

End DepsDirsOfMap.

Section PatternFile.
Import Strings Filepath patterns sync.

Variable yamlMarshal : PatternsConfig -> option (list Byte.byte).
Variable yamlUnmarshal : list Byte.byte -> option PatternsConfig.

(** X21.  What [SavePatterns] writes, [LoadPatterns] reads: after a
    save that reports no error the configuration was marshalled and the
    load gives what unmarshalling these bytes gives.  After a save that
    reports an error the pattern file reads as it did before. *)
Theorem SavePatterns_LoadPatterns w c w' ok :
  SavePatterns yamlMarshal w c = (w', ok) ->
  if ok
  then exists data,
         yamlMarshal c = Some data
         /\ LoadPatterns yamlUnmarshal w'
            = match yamlUnmarshal data with
              | Some c' => Loaded c'
              | None => LoadError
              end
  else forall path,
         config.PatternsFilePath w = Some path ->
         Os.ReadFile w' path = Os.ReadFile w path.
Proof.
  unfold SavePatterns, LoadPatterns, config.PatternsFilePath.
  destruct (config.DefaultConfigDir w) as [dir|] eqn:Hd.
  2:{ intros [= <- <-]. discriminate. }
  destruct (Os.MkdirAll w dir) as [w1|] eqn:Hmk.
  2:{ intros [= <- <-]. reflexivity. }
  pose proof (fun p => ReadFile_MkdirAll _ _ _ p Hmk) as Hread.
  destruct (MkdirAll_frame _ _ _ Hmk) as (t1 & ->).
  change (config.DefaultConfigDir (Os.withTree w t1))
    with (config.DefaultConfigDir w). rewrite Hd.
  destruct (yamlMarshal c) as [data|].
  2:{ intros [= <- <-]. intros path [= <-]. apply Hread. }
  destruct (Os.WriteFile _ _ data 420) as [w2|] eqn:Hw.
  2:{ intros [= <- <-]. intros path [= <-]. apply Hread. }
  intros [= <- <-]. exists data. split; [reflexivity|].
  unfold Os.WriteFile in Hw.
  apply writeRegular_grows in Hw as (p & m' & Hp & -> & _).
  change (config.DefaultConfigDir (Os.withTree _ _))
    with (config.DefaultConfigDir w). rewrite Hd.
  unfold Os.ReadFile. rewrite !resolve_withTree.
  rewrite resolve_withTree in Hp. rewrite Hp.
  cbn [Os.tree Os.withTree]. now rewrite lookup_insert_eq.
Qed.

End PatternFile.

Section Gitignore.
Import Strings Filepath patterns sync.

Lemma HasSuffix_app (s x : string) : HasSuffix (s +:+ x) x = true.
Proof.
  unfold HasSuffix. rewrite length_append.
  replace (String.length s + String.length x - String.length x)%nat
    with (String.length s) by lia.
  rewrite sliceFrom_app, String.eqb_refl, andb_true_r.
  apply Nat.leb_le. lia.
Qed.

Lemma keywordLoop_Some line lineLower keywords pattern :
  keywordLoop line lineLower keywords = Some pattern ->
  (HasSuffix line "/" = true /\ pattern = line)
  \/ (HasSuffix line "/" = false /\ Contains line "*" = false
      /\ Contains line "." = false /\ pattern = line +:+ "/").
Proof.
  induction keywords as [|k ks IH]; cbn [keywordLoop]; [discriminate|].
  destruct (Contains lineLower (ToLower k)); [|exact IH].
  destruct (HasSuffix line "/") eqn:Hs; cbn [negb].
  - intros [= <-]. now left.
  - destruct (Contains line "*"); cbn [negb andb]; [exact IH|].
    destruct (Contains line "."); cbn [negb]; [exact IH|].
    intros [= <-]. right. repeat split.
Qed.

Lemma keywordLoop_None line lineLower keywords :
  HasSuffix line "/" = false ->
  Contains line "*" || Contains line "." = true ->
  keywordLoop line lineLower keywords = None.
Proof.
  intros Hs Hc. induction keywords as [|k ks IH]; [reflexivity|].
  cbn [keywordLoop]. rewrite Hs. cbn [negb].
  destruct (Contains lineLower (ToLower k)); [|exact IH].
  destruct (Contains line "*"); cbn [negb andb]; [exact IH|].
  cbn [orb] in Hc. rewrite Hc. cbn [negb]. exact IH.
Qed.

Lemma extractDepsPattern_cases line0 :
  extractDepsPattern line0 = ""
  \/ (HasPrefix line0 "!" = false
      /\ HasSuffix (extractDepsPattern line0) "/" = true
      /\ (extractDepsPattern line0 = TrimPrefix line0 "/"
          \/ (HasSuffix (TrimPrefix line0 "/") "/" = false
              /\ extractDepsPattern line0 = TrimPrefix line0 "/" +:+ "/"))).
Proof.
  unfold extractDepsPattern.
  destruct (HasPrefix line0 "!"); [now left|].
  set (line := TrimPrefix line0 "/").
  destruct (keywordLoop line (ToLower line) depsKeywords) as [p|] eqn:Hk.
  - right. split; [reflexivity|].
    apply keywordLoop_Some in Hk as [(Hs & ->) | (Hs & _ & _ & ->)].
    + split; [exact Hs | now left].
    + split; [apply HasSuffix_app | right; now split].
  - destruct (HasSuffix line "/") eqn:Hs; [|now left].
    destruct (Contains _ "*"); [now left|].
    right. split; [reflexivity|]. split; [exact Hs | now left].
Qed.

(** X22.  [extractDepsPattern] gives directory patterns only: the
    result is empty (the line is passed over) or ends in a slash, and it
    is the line without its leading slash, with a slash added if it had
    none.  A negated line is passed over, and so is a line without a
    closing slash that has a [*] or a [.] in it, keyword or not. *)
Theorem extractDepsPattern_directory line :
  let pattern := extractDepsPattern line in
  let relative := TrimPrefix line "/" in
  (pattern <> "" ->
   HasPrefix line "!" = false
   /\ HasSuffix pattern "/" = true
   /\ (pattern = relative
       \/ (HasSuffix relative "/" = false
           /\ pattern = relative +:+ "/")))
  /\ (HasPrefix line "!" = true -> pattern = "")
  /\ (HasSuffix relative "/" = false ->
      Contains relative "*" || Contains relative "." = true ->
      pattern = "").
Proof.
  intros pattern relative. split; [|split].
  - intros Hne. destruct (extractDepsPattern_cases line) as [H | H];
      [contradiction | exact H].
  - intros H. unfold pattern, extractDepsPattern. now rewrite H.
  - intros Hs Hc. unfold pattern, extractDepsPattern.
    destruct (HasPrefix line "!"); [reflexivity|].
    fold relative. rewrite (keywordLoop_None _ _ _ Hs Hc), Hs.
    reflexivity.
Qed.

Lemma parseLine_tracks st text :
  tracks st ->
  tracks (parseLine st text)
  /\ forall p,
       In p (snd (parseLine st text))
       <-> In p (snd st)
           \/ (p <> "" /\ TrimSpace text <> ""
               /\ HasPrefix (TrimSpace text) "#" = false
               /\ extractDepsPattern (TrimSpace text) = p).
Proof.
  intros Ht. unfold parseLine.
  destruct (String.eqb (TrimSpace text) "") eqn:He.
  { cbn [orb]. split; [exact Ht|]. intros p. split; [now left|].
    intros [H | (_ & Hne & _)]; [exact H|].
    apply String.eqb_eq in He. contradiction. }
  apply String.eqb_neq in He.
  destruct (HasPrefix (TrimSpace text) "#") eqn:Hc; cbn [orb].
  { split; [exact Ht|]. intros p. split; [now left|].
    intros [H | (_ & _ & Hn & _)]; [exact H | discriminate]. }
  destruct (String.eqb (extractDepsPattern (TrimSpace text)) "") eqn:Hp;
    cbn [negb].
  { apply String.eqb_eq in Hp. split; [exact Ht|].
    intros p. split; [now left|].
    intros [H | (Hne & _ & _ & Hx)]; [exact H|]. congruence. }
  apply String.eqb_neq in Hp.
  destruct (appendUnseen_tracks st (extractDepsPattern (TrimSpace text)) Ht)
    as [Ht' Hin].
  split; [exact Ht'|]. intros p. rewrite Hin. split.
  - intros [H | ->]; [now left|]. right. repeat split; assumption.
  - intros [H | (_ & _ & _ & Hx)]; [now left | now right].
Qed.

Lemma parseLoop_tracks lines st :
  tracks st ->
  tracks (fold_left parseLine lines st)
  /\ forall p,
       In p (snd (fold_left parseLine lines st))
       <-> In p (snd st)
           \/ (p <> ""
               /\ exists text,
                    In text lines /\ TrimSpace text <> ""
                    /\ HasPrefix (TrimSpace text) "#" = false
                    /\ extractDepsPattern (TrimSpace text) = p).
Proof.
  revert st. induction lines as [|text lines IH]; intros st Ht.
  - split; [exact Ht|]. intros p. split; [now left|].
    now intros [H | (_ & text & [] & _)].
  - cbn [fold_left]. destruct (parseLine_tracks st text Ht) as [Ht1 Hin1].
    destruct (IH _ Ht1) as [Ht2 Hin2]. split; [exact Ht2|].
    intros p. rewrite Hin2, Hin1. split.
    + intros [[H | (Hne & H)] | (Hne & t & Hin & H)].
      * now left.
      * right. split; [exact Hne|]. exists text. split; [now left|exact H].
      * right. split; [exact Hne|]. exists t. split; [now right|exact H].
    + intros [H | (Hne & t & [<- | Hin] & H)].
      * now left; left.
      * left. right. now split.
      * right. split; [exact Hne|]. now exists t.
Qed.

Lemma parseGitignoreForDeps_slash r :
  Forall (fun p => HasSuffix p "/" = true) (fst (parseGitignoreForDeps r)).
Proof.
  unfold parseGitignoreForDeps. cbn [fst].
  destruct (parseLoop_tracks (Lines r) (∅, []) tracks_empty) as [_ Hin].
  apply List.Forall_forall. intros p Hp.
  apply Hin in Hp as [[] | (Hne & text & _ & _ & _ & <-)].
  destruct (extractDepsPattern_cases (TrimSpace text)) as [H | (_ & H & _)];
    [contradiction | exact H].
Qed.

(** X23.  [parseGitignoreForDeps] gives each directory pattern of the
    template once: the result has no duplicates, and a pattern is in it
    exactly when it is what [extractDepsPattern] makes of some line that,
    once trimmed, is neither empty nor a comment.  Every pattern it gives
    ends in a slash. *)
Theorem parseGitignoreForDeps_patterns r :
  let pats := fst (parseGitignoreForDeps r) in
  NoDup pats
  /\ (forall p,
        In p pats
        <-> p <> ""
            /\ exists text,
                 In text (Lines r) /\ TrimSpace text <> ""
                 /\ HasPrefix (TrimSpace text) "#" = false
                 /\ extractDepsPattern (TrimSpace text) = p)
  /\ Forall (fun p => HasSuffix p "/" = true) pats.
Proof.
  intros pats. split; [|split; [|apply parseGitignoreForDeps_slash]].
  - unfold pats, parseGitignoreForDeps. cbn [fst].
    now destruct (parseLoop_tracks (Lines r) (∅, []) tracks_empty)
      as [[Hnd _] _].
  - intros p. unfold pats, parseGitignoreForDeps. cbn [fst].
    destruct (parseLoop_tracks (Lines r) (∅, []) tracks_empty) as [_ Hin].
    rewrite Hin. cbn [snd In]. tauto.
Qed.

End Gitignore.

Section Sync.
Import Strings Filepath patterns sync.

Variable httpGet : string -> option Response.

(** What the loop of [runSync] stores for a language. *)
Lemma fetchLanguage_Languages cfg lang :
  Languages (fetchLanguage httpGet cfg lang)
  = match fetchGitignorePatterns httpGet lang with
    | (pats, false) =>
        match pats with
        | [] => Languages cfg
        | _ :: _ => <[ToLower lang := Some {| Deps := pats |}]> (Languages cfg)
        end
    | (_, true) => Languages cfg
    end.
Proof.
  unfold fetchLanguage.
  destruct (fetchGitignorePatterns httpGet lang) as [pats [|]];
    [reflexivity|].
  now destruct pats.
Qed.

Lemma fetchLoop_other langs cfg name :
  ~ In name (List.map ToLower langs) ->
  Languages (fold_left (fetchLanguage httpGet) langs cfg) !! name
  = Languages cfg !! name.
Proof.
  revert cfg. induction langs as [|lang langs IH]; intros cfg Hn;
    [reflexivity|].
  cbn [fold_left]. rewrite IH by (intros H; apply Hn; now right).
  rewrite fetchLanguage_Languages.
  destruct (fetchGitignorePatterns httpGet lang) as [pats [|]];
    [reflexivity|].
  destruct pats; [reflexivity|].
  apply lookup_insert_ne. intros E. apply Hn. now left.
Qed.

Lemma fetchLoop_lang langs cfg lang :
  NoDup (List.map ToLower langs) ->
  In lang langs ->
  Languages (fold_left (fetchLanguage httpGet) langs cfg) !! ToLower lang
  = match fetchGitignorePatterns httpGet lang with
    | (pats, false) =>
        match pats with
        | [] => Languages cfg !! ToLower lang
        | _ :: _ => Some (Some {| Deps := pats |})
        end
    | (_, true) => Languages cfg !! ToLower lang
    end.
Proof.
  revert cfg. induction langs as [|l langs IH]; intros cfg Hnd Hin;
    [destruct Hin|].
  cbn [List.map] in Hnd. apply NoDup_cons in Hnd as [Hl Hnd].
  rewrite list_elem_of_In in Hl. cbn [fold_left].
  destruct (in_dec string_dec (ToLower lang) (List.map ToLower langs))
    as [Hi | Hni].
  - destruct Hin as [-> | Hin]; [contradiction|].
    rewrite (IH _ Hnd Hin).
    assert (Hne : ToLower l <> ToLower lang) by (intros E; congruence).
    rewrite fetchLanguage_Languages.
    destruct (fetchGitignorePatterns httpGet l) as [pl [|]];
      [reflexivity|].
    destruct pl; [reflexivity|].
    rewrite lookup_insert_ne by assumption. reflexivity.
  - destruct Hin as [-> | Hin].
    2:{ exfalso. apply Hni. now apply List.in_map. }
    rewrite (fetchLoop_other _ _ _ Hni), fetchLanguage_Languages.
    destruct (fetchGitignorePatterns httpGet lang) as [pats [|]];
      [reflexivity|].
    destruct pats; [reflexivity|]. apply lookup_insert_eq.
Qed.

Lemma fetchGitignorePatterns_slash lang :
  Forall (fun p => HasSuffix p "/" = true)
    (fst (fetchGitignorePatterns httpGet lang)).
Proof.
  unfold fetchGitignorePatterns.
  destruct (httpGet _) as [resp|]; [|constructor].
  destruct (negb _); [constructor|].
  apply parseGitignoreForDeps_slash.
Qed.

(** X24.  The configuration [runSync] saves: [common] is always there
    with its ten patterns; a language of the list is there, under its
    lowered name, exactly when its template was fetched without error and
    gave a pattern, and then holds the patterns parsed; there is no other
    entry.  No entry is nil or empty, and every pattern in it ends in a
    slash. *)
Theorem fetched_languages w :
  let cfg := fetched httpGet w in
  Languages cfg !! "common" = Some (Some {| Deps := commonDeps |})
  /\ (forall lang,
        In lang defaultLanguages ->
        Languages cfg !! ToLower lang
        = match fetchGitignorePatterns httpGet lang with
          | (pats, false) =>
              match pats with
              | [] => None
              | _ :: _ => Some (Some {| Deps := pats |})
              end
          | (_, true) => None
          end)
  /\ (forall name entry,
        Languages cfg !! name = Some entry ->
        (name = "common" \/ In name (List.map ToLower defaultLanguages))
        /\ exists language,
             entry = Some language /\ Deps language <> []
             /\ Forall (fun p => HasSuffix p "/" = true) (Deps language)).
Proof.
  intros cfg. unfold cfg, fetched, addCommonPatterns.
  cbn [Languages withLanguages].
  set (start := {| Version := 1; UpdatedAt := Os.clock w; Languages := ∅ |}).
  assert (Hnd : NoDup (List.map ToLower defaultLanguages)).
  { apply NoDup_ListNoDup. vm_compute.
    repeat (constructor; [vm_compute; intuition discriminate|]).
    constructor. }
  assert (Hlang : forall lang,
            In lang defaultLanguages ->
            Languages (fold_left (fetchLanguage httpGet) defaultLanguages
                         start) !! ToLower lang
            = match fetchGitignorePatterns httpGet lang with
              | (pats, false) =>
                  match pats with
                  | [] => None
                  | _ :: _ => Some (Some {| Deps := pats |})
                  end
              | (_, true) => None
              end).
  { intros lang Hin. rewrite (fetchLoop_lang _ _ _ Hnd Hin).
    cbn [Languages start]. rewrite lookup_empty. reflexivity. }
  split; [apply lookup_insert_eq|]. split.
  - intros lang Hin. rewrite lookup_insert_ne; [now apply Hlang|].
    intros E. revert Hin. unfold defaultLanguages. cbn [In].
    intros Hin.
    repeat (destruct Hin as [<- | Hin]; [discriminate E|]).
    destruct Hin.
  - intros name entry.
    destruct (decide ("common" = name)) as [<- | Hne].
    + rewrite lookup_insert_eq. intros [= <-]. split; [now left|].
      eexists. split; [reflexivity|]. split; [discriminate|].
      cbn [Deps]. unfold commonDeps.
      repeat (constructor; [reflexivity|]). constructor.
    + rewrite lookup_insert_ne by assumption. intros Hl.
      destruct (in_dec string_dec name (List.map ToLower defaultLanguages))
        as [Hi | Hni].
      2:{ rewrite (fetchLoop_other _ _ _ Hni) in Hl. cbn in Hl.
          rewrite lookup_empty in Hl. discriminate. }
      split; [now right|].
      apply List.in_map_iff in Hi as (lang & <- & Hin).
      rewrite (Hlang lang Hin) in Hl.
      pose proof (fetchGitignorePatterns_slash lang) as Hs.
      destruct (fetchGitignorePatterns httpGet lang) as [pats [|]];
        [discriminate|].
      destruct pats as [|p pats]; [discriminate|].
      injection Hl as <-. eexists. split; [reflexivity|].
      split; [discriminate | exact Hs].
Qed.

End Sync.

Section SyncRun.
Import Strings Filepath patterns sync.

Variable yamlMarshal : PatternsConfig -> option (list Byte.byte).

Lemma WriteFile_any w path d d' perm :
  is_Some (Os.WriteFile w path d perm)
  -> is_Some (Os.WriteFile w path d' perm).
Proof.
  unfold Os.WriteFile, Os.writeRegular.
  destruct (Os.resolve w path) as [p|]; [|exact id].
  destruct (Os.tree w !! Dir p) as [[|? ?]|]; try exact id.
  destruct (Os.tree w !! p) as [[|? ?]|]; intros H;
    try (now eexists); exact H.
Qed.

(** X25.  The network never makes [runSync] fail: with a marshaller
    that does not fail, whether the run reports an error depends on the
    machine only, not on what the requests give.  With [--list] nothing
    is fetched or written. *)
Theorem runSync_offline listOnly httpGet httpGet' w :
  (forall c, is_Some (yamlMarshal c)) ->
  snd (runSync yamlMarshal listOnly httpGet w)
  = snd (runSync yamlMarshal listOnly httpGet' w)
  /\ runSync yamlMarshal true httpGet w = (w, true).
Proof.
  intros Hm. split; [|reflexivity].
  unfold runSync. destruct listOnly; [reflexivity|].
  unfold SavePatterns.
  destruct (config.DefaultConfigDir w) as [dir|]; [|reflexivity].
  destruct (Os.MkdirAll w dir) as [w1|]; [|reflexivity].
  destruct (config.PatternsFilePath w1) as [path|]; [|reflexivity].
  destruct (Hm (fetched httpGet w)) as (d & ->).
  destruct (Hm (fetched httpGet' w)) as (d' & ->).
  pose proof (WriteFile_any w1 path d d' 420) as H1.
  pose proof (WriteFile_any w1 path d' d 420) as H2.
  destruct (Os.WriteFile w1 path d 420), (Os.WriteFile w1 path d' 420);
    try reflexivity.
  - destruct H1 as (? & [=]). now eexists.
  - destruct H2 as (? & [=]). now eexists.
Qed.

End SyncRun.

(* ===================================================================== *)
(** ** The [scan] command *)
(* ===================================================================== *)

Section Sizes.
Import Strings Filepath scanner scan.

Local Open Scope Z_scope.

Lemma unitLoop_scale bytes fuel n div exp :
  0 < bytes < 2 ^ 63 ->
  div = 1024 ^ (Z.of_nat exp + 1) ->
  1 <= n -> div * n <= bytes < div * (n + 1) ->
  (6 <= fuel + exp)%nat ->
  exists exp',
    unitLoop fuel n div exp = Some (1024 ^ (Z.of_nat exp' + 1), exp')
    /\ (exp' <= 5)%nat
    /\ 1024 ^ (Z.of_nat exp' + 1) <= bytes < 1024 ^ (Z.of_nat exp' + 2).
Proof.
  intros Hb. revert n div exp.
  induction fuel as [|fuel IH]; intros n div exp Hdiv Hn Hbounds Hfuel.
  - assert (Hpow : 1024 ^ 7 <= 1024 ^ (Z.of_nat exp + 1)).
    { apply Z.pow_le_mono_r; lia. }
    exfalso. change (1024 ^ 7) with 1180591620717411303424 in Hpow.
    change (2 ^ 63) with 9223372036854775808 in Hb. nia.
  - cbn [unitLoop].
    destruct (n >=? 1024) eqn:Hge.
    + rewrite Z.geb_leb in Hge. apply Z.leb_le in Hge.
      assert (Hq : Z.quot n 1024 = n / 1024) by (apply Z.quot_div_nonneg; lia).
      rewrite Hq.
      assert (Hdpos : 0 < div) by (subst div; apply Z.pow_pos_nonneg; lia).
      pose proof (Z.div_mod n 1024 ltac:(lia)) as Hdm.
      pose proof (Z.mod_pos_bound n 1024 ltac:(lia)) as Hmod.
      assert (Hn' : 1 <= n / 1024).
      { apply Z.div_le_lower_bound; lia. }
      assert (Hsmall : div * 1024 < 2 ^ 63) by nia.
      assert (Hw : wrap64 (div * 1024) = div * 1024).
      { unfold wrap64.
        rewrite Z.mod_small; [lia|].
        change (2 ^ 64) with (2 * 2 ^ 63). lia. }
      rewrite Hw.
      apply IH.
      * subst div. rewrite Nat2Z.inj_succ.
        replace (Z.succ (Z.of_nat exp) + 1) with (Z.of_nat exp + 1 + 1) by lia.
        rewrite (Z.pow_add_r 1024 (Z.of_nat exp + 1) 1) by lia.
        reflexivity.
      * exact Hn'.
      * nia.
      * lia.
    + rewrite Z.geb_leb in Hge. apply Z.leb_gt in Hge. exists exp. subst div.
      split; [reflexivity|].
      assert (Hlt : bytes < 1024 ^ (Z.of_nat exp + 2)).
      { replace (Z.of_nat exp + 2) with (Z.of_nat exp + 1 + 1) by lia.
        rewrite (Z.pow_add_r 1024 (Z.of_nat exp + 1) 1) by lia.
        change (1024 ^ 1) with 1024.
        assert (0 < 1024 ^ (Z.of_nat exp + 1))
          by (apply Z.pow_pos_nonneg; lia).
        nia. }
      assert (Hle : 1024 ^ (Z.of_nat exp + 1) <= bytes).
      { assert (0 < 1024 ^ (Z.of_nat exp + 1))
          by (apply Z.pow_pos_nonneg; lia).
        nia. }
      split; [|split; assumption].
      destruct (le_lt_dec exp 5) as [Hok | Hbig]; [exact Hok|].
      exfalso.
      assert (Hpow : 1024 ^ 7 <= 1024 ^ (Z.of_nat exp + 1)).
      { apply Z.pow_le_mono_r; lia. }
      change (1024 ^ 7) with 1180591620717411303424 in Hpow.
      change (2 ^ 63) with 9223372036854775808 in Hb. lia.
Qed.

(** X26.  [formatSize] picks the unit for every [int64]: below 1024
    (negative sizes included) the bytes are printed as they are;
    otherwise the loop ends, the divisor is the largest power of 1024
    that is not above the size, it did not overflow, and the index into
    ["KMGTPE"] is in range, so that the call never panics. *)
Theorem formatSize_unit bytes :
  - 2 ^ 63 <= bytes < 2 ^ 63 ->
  (bytes < 1024 -> formatSize bytes = Some (Plain bytes))
  /\ (1024 <= bytes ->
      exists exp u,
        (exp <= 5)%nat
        /\ nth_error (list_ascii_of_string "KMGTPE") exp = Some u
        /\ formatSize bytes
           = Some (Scaled bytes (1024 ^ (Z.of_nat exp + 1)) u)
        /\ 1024 ^ (Z.of_nat exp + 1) <= bytes < 1024 ^ (Z.of_nat exp + 2)).
Proof.
  intros Hr. unfold formatSize. split.
  - intros Hlt. apply Z.ltb_lt in Hlt. now rewrite Hlt.
  - intros Hge.
    assert (Hlt : (bytes <? 1024) = false) by (apply Z.ltb_ge; lia).
    rewrite Hlt.
    assert (Hq : Z.quot bytes 1024 = bytes / 1024)
      by (apply Z.quot_div_nonneg; lia).
    rewrite Hq.
    pose proof (Z.div_mod bytes 1024 ltac:(lia)) as Hdm.
    pose proof (Z.mod_pos_bound bytes 1024 ltac:(lia)) as Hmod.
    destruct (unitLoop_scale bytes 64 (bytes / 1024) 1024 0)
      as (exp & Hloop & Hexp & Hbounds).
    + lia.
    + reflexivity.
    + apply Z.div_le_lower_bound; lia.
    + lia.
    + lia.
    + rewrite Hloop.
      assert (Hu : exists u,
                nth_error (list_ascii_of_string "KMGTPE") exp = Some u).
      { do 6 (destruct exp as [|exp]; [now eexists|]). lia. }
      destruct Hu as (u & Hu). rewrite Hu.
      exists exp, u. repeat split; try assumption; lia.
Qed.

End Sizes.

Section Printing.
Import Strings Filepath scanner scan.

Lemma insertSorted_perm k l : cli.insertSorted k l ≡ₚ k :: l.
Proof.
  induction l as [|x l IH]; [reflexivity|].
  cbn [cli.insertSorted]. destruct (String.leb k x); [reflexivity|].
  rewrite IH. apply perm_swap.
Qed.

Lemma sortStrings_perm l : sortStrings l ≡ₚ l.
Proof.
  induction l as [|k l IH]; [reflexivity|].
  cbn [sortStrings fold_right]. rewrite insertSorted_perm.
  now apply perm_skip.
Qed.

Lemma insertSorted_ascending k l :
  ascending l = true -> ascending (cli.insertSorted k l) = true.
Proof.
  induction l as [|x l IH]; intros Hs; [reflexivity|].
  cbn [cli.insertSorted]. destruct (String.leb k x) eqn:Hk.
  - change (ascending (k :: x :: l))
      with (String.leb k x && ascending (x :: l)).
    now rewrite Hk, Hs.
  - assert (Hxk : String.leb x k = true).
    { destruct (String.leb_total k x) as [H | H]; [congruence | exact H]. }
    assert (Hl : ascending l = true).
    { destruct l as [|y l]; [reflexivity|].
      change (ascending (x :: y :: l))
        with (String.leb x y && ascending (y :: l)) in Hs.
      now apply andb_true_iff in Hs as [_ Hs]. }
    specialize (IH Hl).
    destruct l as [|y l]; cbn [cli.insertSorted] in *.
    + cbn [ascending]. now rewrite Hxk.
    + change (ascending (x :: y :: l))
        with (String.leb x y && ascending (y :: l)) in Hs.
      apply andb_true_iff in Hs as [Hxy _].
      destruct (String.leb k y).
      * change (ascending (x :: k :: y :: l))
          with (String.leb x k && ascending (k :: y :: l)).
        now rewrite Hxk, IH.
      * change (ascending (x :: y :: cli.insertSorted k l))
          with (String.leb x y && ascending (y :: cli.insertSorted k l)).
        now rewrite Hxy, IH.
Qed.

Lemma sortStrings_ascending l : ascending (sortStrings l) = true.
Proof.
  induction l as [|k l IH]; [reflexivity|].
  cbn [sortStrings fold_right]. now apply insertSorted_ascending.
Qed.

Lemma groupLoop_lookup files (m : gmap string (list IgnoredFile)) cat :
  fold_left group files m !! cat
  = match List.filter (fun f => String.eqb (Category f) cat) files with
    | [] => m !! cat
    | f :: fs => Some (default [] (m !! cat) ++ f :: fs)
    end.
Proof.
  revert m. induction files as [|f files IH]; intros m; [reflexivity|].
  cbn [fold_left List.filter]. rewrite IH. unfold group.
  destruct (String.eqb (Category f) cat) eqn:Hc.
  - apply String.eqb_eq in Hc. subst cat. rewrite lookup_insert_eq.
    destruct (List.filter _ files) as [|g gs]; [reflexivity|].
    f_equal. destruct (m !! Category f); cbn;
      [now rewrite <- List.app_assoc | reflexivity].
  - apply String.eqb_neq in Hc. now rewrite lookup_insert_ne.
Qed.

(** The headings of a listing and the files under them. *)
Lemma printResult_Listing category result root groups total secrets :
  printResult category result = Listing root groups total secrets ->
  let files :=
    if negb (String.eqb category "")
    then List.filter (fun f => String.eqb (Category f) category)
           (IgnoredFiles result)
    else IgnoredFiles result in
  let byCategory := fold_left group files ∅ in
  groups
  = List.map (fun cat => (cat, default [] (byCategory !! cat)))
      (sortStrings (List.map fst (map_to_list byCategory)))
  /\ total = List.length files.
Proof.
  intros H files byCategory. unfold printResult in H.
  destruct (List.length (IgnoredFiles result) =? 0)%nat; [discriminate|].
  cbv zeta in H. fold files in H.
  destruct (List.length files =? 0)%nat; [discriminate|].
  injection H as _ <- <- _. split; reflexivity.
Qed.

Lemma byCategory_lookup files cat :
  fold_left group files ∅ !! cat
  = match List.filter (fun f => String.eqb (Category f) cat) files with
    | [] => None
    | f :: fs => Some (f :: fs)
    end.
Proof. rewrite groupLoop_lookup, lookup_empty. reflexivity. Qed.

Lemma byCategory_keys files cat :
  In cat (sortStrings (List.map fst (map_to_list (fold_left group files ∅))))
  <-> is_Some (fold_left group files ∅ !! cat).
Proof.
  rewrite <- list_elem_of_In, sortStrings_perm.
  change (List.map fst ?l) with (l.*1).
  rewrite list_elem_of_fmap. split.
  - intros ([k v] & -> & Hin). apply elem_of_map_to_list in Hin.
    now exists v.
  - intros (v & Hv). exists (cat, v). split; [reflexivity|].
    now apply elem_of_map_to_list.
Qed.

(** The files under a heading are the files of its category. *)
Lemma printResult_group category result root groups total secrets cat fs :
  printResult category result = Listing root groups total secrets ->
  In (cat, fs) groups ->
  fs <> []
  /\ fs = List.filter (fun f => String.eqb (Category f) cat)
            (if negb (String.eqb category "")
             then List.filter (fun f => String.eqb (Category f) category)
                    (IgnoredFiles result)
             else IgnoredFiles result).
Proof.
  intros H Hin. apply printResult_Listing in H as [-> _].
  apply List.in_map_iff in Hin as (c & [= <- <-] & Hc).
  apply byCategory_keys in Hc as (v & Hv). rewrite Hv. cbn [default].
  rewrite byCategory_lookup in Hv.
  match type of Hv with
  | context [List.filter ?p ?l] => destruct (List.filter p l) as [|f fs]
  end; [discriminate|].
  injection Hv as <-. split; [discriminate | reflexivity].
Qed.

(** X27.  [printResult] shows every file once, under its category: the
    categories come in ascending order without repetition, the files of
    a category are the files of the result that have it (of the category
    asked for, if one is), in the order of the scan, no category is
    empty, and the total is the number of files shown. *)
Theorem printResult_groups category result root groups total secrets :
  printResult category result = Listing root groups total secrets ->
  let files :=
    if negb (String.eqb category "")
    then List.filter (fun f => String.eqb (Category f) category)
           (IgnoredFiles result)
    else IgnoredFiles result in
  ascending (List.map fst groups) = true
  /\ NoDup (List.map fst groups)
  /\ (forall cat fs,
        In (cat, fs) groups ->
        fs <> []
        /\ fs = List.filter (fun f => String.eqb (Category f) cat) files)
  /\ (forall f, In f files -> In (Category f) (List.map fst groups))
  /\ total = List.length files.
Proof.
  intros H files.
  assert (Hgroup : forall cat fs,
            In (cat, fs) groups ->
            fs <> []
            /\ fs = List.filter (fun f => String.eqb (Category f) cat)
                      files).
  { intros cat fs Hin.
    exact (printResult_group _ _ _ _ _ _ cat fs H Hin). }
  destruct (printResult_Listing _ _ _ _ _ _ H) as [Hg Ht].
  fold files in Hg, Ht. cbv zeta in Hg.
  assert (Hcats : List.map fst groups
                  = sortStrings
                      (List.map fst
                         (map_to_list (fold_left group files ∅)))).
  { rewrite Hg, List.map_map. cbn [fst]. apply List.map_id. }
  rewrite Hcats.
  split; [apply sortStrings_ascending|]. split.
  { rewrite sortStrings_perm. apply NoDup_fst_map_to_list. }
  split; [exact Hgroup|]. split; [|exact Ht].
  intros f Hf. apply byCategory_keys. rewrite byCategory_lookup.
  assert (Hin : In f (List.filter
                        (fun g => String.eqb (Category g) (Category f))
                        files)).
  { apply List.filter_In. split; [exact Hf | apply String.eqb_refl]. }
  destruct (List.filter _ files) as [|g gs]; [destruct Hin | now eexists].
Qed.

End Printing.

Section RecursiveScan.
Import Strings Filepath scanner scan.

Lemma walkScans_inv (P : totals -> Prop) s w :
  (forall acc gitDir result,
      P acc ->
      Os.tree w !! gitDir = Some Os.Directory ->
      Base gitDir = ".git" ->
      Scan s w (Dir gitDir) = Some result ->
      IgnoredFiles result <> [] ->
      P (extend acc result)) ->
  forall fuel path acc, P acc -> P (walkScans fuel s w path acc).
Proof.
  intros HP.
  assert (Hgit : forall path acc,
            P acc -> Os.tree w !! path = Some Os.Directory ->
            Base path = ".git" ->
            P match Scan s w (Dir path) with
              | Some result =>
                  if (0 <? List.length (IgnoredFiles result))%nat
                  then extend acc result else acc
              | None => acc
              end).
  { intros path acc Hacc Ht Hb.
    destruct (Scan s w (Dir path)) as [result|] eqn:Hs; [|exact Hacc].
    destruct (0 <? List.length (IgnoredFiles result))%nat eqn:Hl;
      [|exact Hacc].
    apply (HP acc path result Hacc Ht Hb Hs).
    intros E. rewrite E in Hl. discriminate. }
  induction fuel as [|fuel IH]; intros path acc Hacc; cbn [walkScans];
    destruct (Os.tree w !! path) as [[|m d]|] eqn:Ht; try assumption;
    destruct (String.eqb (Base path) ".git") eqn:Hb;
    try (apply String.eqb_eq in Hb; now apply Hgit);
    destruct (existsb (String.eqb (Base path)) cli.skipDirs);
    try assumption.
  generalize (cli.children (Os.tree w) path). intros ks. revert acc Hacc.
  induction ks as [|k ks IHks]; intros acc Hacc; cbn [fold_left];
    [assumption|].
  apply IHks, IH, Hacc.
Qed.

(** X28.  The summary of a recursive scan adds up: the repositories
    reported are scans, with at least one file shown, of the parents of
    directories named [.git]; the number of repositories is their count,
    and the numbers of files and of secrets are the sums over them (in
    the arithmetic of [int]). *)
Theorem scanRecursive_totals flags s w rootPath reports repositories files
    secrets :
  scanRecursive flags s w rootPath
  = Found reports repositories files secrets ->
  exists results,
    reports = List.map (printResult (flagCategory flags)) results
    /\ repositories = List.length results
    /\ results <> []
    /\ List.Forall
         (fun result =>
            IgnoredFiles result <> []
            /\ exists gitDir,
                 Os.tree w !! gitDir = Some Os.Directory
                 /\ Base gitDir = ".git"
                 /\ Scan s w (Dir gitDir) = Some result)
         results
    /\ files
       = wrap64 (Spec.sumZ
                   (List.map
                      (fun r => Z.of_nat (List.length (IgnoredFiles r)))
                      results))
    /\ secrets = wrap64 (Spec.sumZ (List.map SecretCount results)).
Proof.
  unfold scanRecursive.
  set (start := {| allResults := []; totalSecrets := 0; totalFiles := 0 |}).
  set (t := walkScans _ s w rootPath start).
  destruct (List.length (allResults t) =? 0)%nat eqn:Hl; [discriminate|].
  intros [= <- <- <- <-]. exists (allResults t).
  split; [reflexivity|]. split; [reflexivity|]. split.
  { intros E. rewrite E in Hl. discriminate. }
  assert (Hinv :
    List.Forall
      (fun result =>
         IgnoredFiles result <> []
         /\ exists gitDir,
              Os.tree w !! gitDir = Some Os.Directory
              /\ Base gitDir = ".git"
              /\ Scan s w (Dir gitDir) = Some result)
      (allResults t)
    /\ totalFiles t
       = wrap64 (Spec.sumZ
                   (List.map
                      (fun r => Z.of_nat (List.length (IgnoredFiles r)))
                      (allResults t)))
    /\ totalSecrets t
       = wrap64 (Spec.sumZ (List.map SecretCount (allResults t)))).
  { unfold t. apply walkScans_inv.
    - intros acc gitDir result (Hall & Hf & Hs) Ht Hb Hscan Hne.
      cbn [extend allResults totalFiles totalSecrets]. split; [|split].
      + apply List.Forall_app. split; [exact Hall|].
        constructor; [|constructor]. split; [exact Hne|]. now exists gitDir.
      + rewrite List.map_app, sumZ_app, Hf. unfold add64.
        rewrite wrap64_add_l. cbn [List.map Spec.sumZ fold_right].
        f_equal. lia.
      + rewrite List.map_app, sumZ_app, Hs. unfold add64.
        rewrite wrap64_add_l. cbn [List.map Spec.sumZ fold_right].
        f_equal. lia.
    - cbn. repeat split. constructor. }
  exact Hinv.
Qed.

Lemma filter_nil_existsb {A} (P : A -> bool) (l : list A) :
  existsb P l = match List.filter P l with [] => false | _ :: _ => true end.
Proof.
  induction l as [|x l IH]; [reflexivity|].
  cbn [existsb List.filter]. destruct (P x); [reflexivity | exact IH].
Qed.

Lemma Scan_root s w path result :
  Scan s w path = Some result ->
  Abs (Os.wd w) path = Some (RootPath result).
Proof.
  unfold Scan. destruct (Abs (Os.wd w) path) as [absPath|]; [|discriminate].
  destruct (negb (isGitRepo w absPath)).
  { now intros [= <-]. }
  destruct (getGitIgnoredFiles w absPath) as [ps|]; [|discriminate].
  intros [= <-]. now rewrite scanLoop_root.
Qed.

(** What [collectSingleRepo] and the callback of [scanRecursive] make of
    one repository. *)
Lemma collect_scan_step s w path repos acc :
  List.Forall2 (exports w) repos
    (List.filter hasSecret (allResults acc)) ->
  List.Forall2 (exports w)
    match cli.collectSingleRepo s w path with
    | Some (r :: rs) => repos ++ r :: rs
    | _ => repos
    end
    (List.filter hasSecret
       (allResults
          match Scan s w path with
          | Some result =>
              if (0 <? List.length (IgnoredFiles result))%nat
              then extend acc result else acc
          | None => acc
          end)).
Proof.
  intros H. unfold cli.collectSingleRepo.
  destruct (Scan s w path) as [result|] eqn:Hs; [|exact H].
  destruct (IgnoredFiles result) as [|f fs] eqn:Hf; [exact H|].
  cbn [List.length Nat.eqb Nat.ltb Nat.leb]. rewrite <- Hf.
  rewrite collectLoop_filter. cbn [List.app extend allResults].
  rewrite List.filter_app.
  change (List.filter hasSecret [result])
    with (if hasSecret result then [result] else []).
  unfold hasSecret at 2. rewrite filter_nil_existsb.
  destruct (List.filter IsSecret (IgnoredFiles result)) as [|g gs] eqn:Hg.
  - cbn [List.map List.length Nat.eqb]. now rewrite List.app_nil_r.
  - cbn [List.map List.length Nat.eqb].
    apply List.Forall2_app; [exact H|]. constructor; [|constructor].
    unfold exports. cbn [cli.Files cli.Name cli.Path].
    rewrite Hg. split; [reflexivity|]. split; [reflexivity|].
    now apply (Scan_root s).
Qed.

Lemma walks_agree s w fuel :
  forall path repos acc,
    List.Forall2 (exports w) repos
      (List.filter hasSecret (allResults acc)) ->
    List.Forall2 (exports w) (cli.walkRepos fuel s w path repos)
      (List.filter hasSecret (allResults (walkScans fuel s w path acc))).
Proof.
  induction fuel as [|fuel IH]; intros path repos acc H;
    cbn [cli.walkRepos walkScans];
    destruct (Os.tree w !! path) as [[|m d]|]; try assumption;
    destruct (String.eqb (Base path) ".git");
    try (now apply collect_scan_step);
    destruct (existsb (String.eqb (Base path)) cli.skipDirs);
    try assumption.
  generalize (cli.children (Os.tree w) path). intros ks. revert repos acc H.
  induction ks as [|k ks IHks]; intros repos acc H; cbn [fold_left];
    [assumption|].
  apply IHks, IH, H.
Qed.

(** X29.  The recursive export and the recursive scan agree: with the
    same scanner, the repositories exported are those of the scan that
    show a secret file, in the same order, each with the paths of the
    secret files of its scan, named after its directory. *)
Theorem export_follows_scan s w rootPath repos :
  cli.collectReposRecursive s w rootPath = Some repos ->
  List.Forall2 (exports w) repos
    (List.filter hasSecret
       (allResults
          (walkScans (size (Os.tree w)) s w rootPath
             {| allResults := []; totalSecrets := 0; totalFiles := 0 |}))).
Proof.
  unfold cli.collectReposRecursive. intros [= <-].
  apply walks_agree. constructor.
Qed.

End RecursiveScan.

Section ScanCommand.
Import Strings Filepath scanner scan.

(** X30.  What the scan command lists for one repository: every file
    stands under its own category, which is the category of its path;
    with [--category] only that category is shown; without [--all] every
    file listed is a secret; and without [--include-deps] none lies in a
    dependency directory. *)
Theorem runScan_listing flags args w root groups total secrets cat fs f :
  runScan flags args w = Some (OneRepo (Listing root groups total secrets)) ->
  In (cat, fs) groups -> In f fs ->
  Category f = cat
  /\ Category f = categorizeFile (Path f)
  /\ (flagCategory flags <> "" -> cat = flagCategory flags)
  /\ (flagAll flags = false -> IsSecret f = true)
  /\ (flagIncludeDeps flags = false -> isInDepsDir (Path f) = false).
Proof.
  unfold runScan. intros H Hg Hf.
  destruct (Abs (Os.wd w) _) as [absPath|]; [|discriminate].
  destruct (patterns.IsNotExist w absPath); [discriminate|].
  destruct (flagRecursive flags); [discriminate|].
  unfold scanSingle in H.
  match type of H with
  | context [Scan ?s0 w absPath] =>
      set (s := s0) in *; destruct (Scan s w absPath) as [result|] eqn:Hs
  end; [|discriminate].
  cbn [option_map] in H. injection H as H.
  destruct (printResult_group _ _ _ _ _ _ cat fs H Hg) as (_ & Hfs).
  rewrite Hfs in Hf. apply List.filter_In in Hf as [Hin Hc].
  apply String.eqb_eq in Hc.
  assert (Hres : In f (IgnoredFiles result)
                 /\ (flagCategory flags <> "" -> cat = flagCategory flags)).
  { destruct (String.eqb (flagCategory flags) "") eqn:He; cbn [negb] in Hin.
    - apply String.eqb_eq in He. split; [exact Hin | congruence].
    - apply List.filter_In in Hin as [Hin Hc'].
      apply String.eqb_eq in Hc'. split; [exact Hin | congruence]. }
  destruct Hres as [Hres Hcat].
  destruct (Scan_files _ _ _ _ _ Hs Hres) as (a & path & Hscanned & Hinc).
  destruct (scanned_classified _ _ _ _ _ Hscanned) as (Hp & Hca & _).
  destruct (scanned_regular _ _ _ _ _ Hscanned) as (Hx & _).
  split; [exact Hc|]. split; [now rewrite Hp|]. split; [exact Hcat|].
  split.
  - intros Hall. unfold Spec.included in Hinc. subst s.
    cbn [ShowAll] in Hinc. now rewrite Hall in Hinc.
  - intros Hd. rewrite Hp. apply Hx. subst s. cbn [ExcludeDeps].
    now rewrite Hd.
Qed.

End ScanCommand.

(* ===================================================================== *)
(** ** Further examples *)
(* ===================================================================== *)

Section MoreExamples.
Import Strings Filepath scanner Spec cli Example Cases Notions.

Lemma Scan_excludes_deps_witness :
  Scan NewScanner laptop "." = Some laptopScan
  /\ ExcludeDeps NewScanner = true
  /\ ~ In "node_modules" (directories ".env").
Proof.
  assert (H : Scan NewScanner laptop "." = Some laptopScan)
    by (vm_compute; reflexivity).
  split; [exact H|]. split; [reflexivity|].
  exact (Scan_excludes_deps NewScanner laptop "." laptopScan
           {| scanner.Path := ".env"; Size := 3; IsSecret := true;
              Category := "env" |} "node_modules"
           H eq_refl (or_introl eq_refl) (or_introl eq_refl)).
Defined.

Lemma Scan_lists_regular_files_witness :
  Scan NewScanner laptop "." = Some laptopScan
  /\ sublist [".env"; "config/.env.local"]
       [".env"; "build"; "build/output.log"; "config/.env.local"].
Proof.
  assert (H : Scan NewScanner laptop "." = Some laptopScan)
    by (vm_compute; reflexivity).
  split; [exact H|].
  destruct (Scan_lists_regular_files NewScanner laptop "." laptopScan H)
    as [_ Hs].
  apply (Hs [".env"; "build"; "build/output.log"; "config/.env.local"]).
  vm_compute. reflexivity.
Defined.

Lemma Scan_showAll_secrets_witness :
  exists resultAll result,
    Scan (withShowAll NewScanner true) laptop "." = Some resultAll
    /\ Scan (withShowAll NewScanner false) laptop "." = Some result
    /\ IgnoredFiles result = List.filter IsSecret (IgnoredFiles resultAll)
    /\ List.length (IgnoredFiles resultAll) = 3%nat
    /\ List.length (IgnoredFiles result) = 2%nat.
Proof.
  assert (H : exists resultAll,
            Scan (withShowAll NewScanner true) laptop "." = Some resultAll
            /\ List.length (IgnoredFiles resultAll) = 3%nat
            /\ List.length (List.filter IsSecret (IgnoredFiles resultAll))
               = 2%nat)
    by (vm_compute; eexists; repeat split).
  destruct H as (resultAll & H & Hall & Hsec).
  destruct (Scan_showAll_secrets NewScanner laptop "." resultAll H)
    as (result & Hr & Hf & _).
  exists resultAll, result. split; [exact H|]. split; [exact Hr|].
  split; [exact Hf|]. split; [exact Hall|]. now rewrite Hf.
Defined.

Lemma isSecret_by_name_witness :
  ".env.local" <> ""
  /\ Contains ".env.local" "/" = false
  /\ isSecretFile "config/.env.local" (categorizeFile "config/.env.local")
     = isSecretFile ".env.local" (categorizeFile ".env.local").
Proof.
  split; [discriminate|]. split; [reflexivity|].
  apply (isSecret_by_name "config" ".env.local");
    [discriminate | reflexivity].
Defined.

Lemma collected_repos_witness :
  let r := {| Name := "my-app"; cli.Path := "/home/dev/my-app";
              Files := [".env"; "config/.env.local"] |} in
  collectSingleRepo NewScanner laptop "/home/dev/my-app" = Some [r]
  /\ Name r = Base "/home/dev/my-app"
  /\ Files r <> [].
Proof.
  intros r.
  assert (H : collectSingleRepo NewScanner laptop "/home/dev/my-app"
              = Some [r]) by (vm_compute; reflexivity).
  destruct (collected_repos NewScanner laptop "/home/dev/my-app" [r] r
              (or_introl eq_refl)) as [Hone _].
  destruct (Hone H) as (_ & Hn & _ & Hf).
  split; [exact H|]. split; [exact Hn | exact Hf].
Defined.

Lemma runExport_footprint_witness :
  exists w' archive out,
    runExport ManifestText.marshal exportHere "backup.zip" laptop
    = Some (w', Some archive)
    /\ Os.resolve laptop "backup.zip" = Some out
    /\ forall k, k <> out -> Os.tree w' !! k = Os.tree laptop !! k.
Proof.
  assert (H : exists w' archive,
            runExport ManifestText.marshal exportHere "backup.zip" laptop
            = Some (w', Some archive))
    by (vm_compute; eexists; eexists; reflexivity).
  destruct H as (w' & archive & H).
  destruct (runExport_footprint _ _ _ _ _ _ H) as [_ Hf].
  destruct (Hf archive eq_refl) as (out & node & Hr & _ & Hk).
  exists w', archive, out. split; [exact H|]. split; [exact Hr | exact Hk].
Defined.

Lemma runImport_keeps_nodes_witness :
  exists w' out,
    runImport ManifestText.unmarshal restoreFlags "backup.zip"
      (targetMachine archiveUnlisted) = Some (w', out)
    /\ In (Extracted "/tmp/restore/my-app/extra.txt") out
    /\ fileExists w' "/tmp/restore/my-app/extra.txt" = true
    /\ dirExists w' "/" = true.
Proof.
  assert (H : exists w' out,
            runImport ManifestText.unmarshal restoreFlags "backup.zip"
              (targetMachine archiveUnlisted) = Some (w', out)
            /\ In (Extracted "/tmp/restore/my-app/extra.txt") out)
    by (vm_compute; eexists; eexists; split; [reflexivity | now left]).
  destruct H as (w' & out & H & Hin).
  destruct (runImport_keeps_nodes _ _ _ _ _ _ H) as [Hkeep Hext].
  exists w', out. split; [exact H|]. split; [exact Hin|].
  split; [exact (proj1 (Hext _ Hin))|].
  destruct (Hkeep "/" {| Os.IsDir := true; Os.Size := 0; Os.Perm := 493 |})
    as (info & Hs & Hd); [vm_compute; reflexivity|].
  unfold dirExists. rewrite Hs. exact Hd.
Defined.

Lemma runImport_declined_witness :
  (exists w' out,
      runImport ManifestText.unmarshal dryRun "backup.zip"
        (targetMachine archiveUnlisted) = Some (w', out)
      /\ importDryRun dryRun = true
      /\ w' = targetMachine archiveUnlisted /\ out = [])
  /\ (let w := answering ("No" +:+ ManifestText.nl) archiveUnlisted in
      exists w' out,
        runImport ManifestText.unmarshal asking "backup.zip" w
        = Some (w', out)
        /\ TrimSpace (ToLower (Os.stdin w)) = "no"
        /\ w' = w /\ out = [])
  /\ (let w :=
        answering (" Y" +:+ nbsp +:+ ManifestText.nl) archiveUnlisted in
      exists w',
        runImport ManifestText.unmarshal asking "backup.zip" w
        = Some (w', [Extracted "/tmp/restore/my-app/extra.txt"])
        /\ TrimSpace (ToLower (Os.stdin w)) = "y").
Proof.
  split; [|split].
  - assert (H : exists w' out,
              runImport ManifestText.unmarshal dryRun "backup.zip"
                (targetMachine archiveUnlisted) = Some (w', out))
      by (vm_compute; eexists; eexists; reflexivity).
    destruct H as (w' & out & H).
    destruct (runImport_declined _ _ _ _ _ _ H) as [Hd _].
    exists w', out. split; [exact H|]. split; [reflexivity|].
    apply Hd. left. reflexivity.
  - intros w.
    assert (H : exists w' out,
              runImport ManifestText.unmarshal asking "backup.zip" w
              = Some (w', out))
      by (vm_compute; eexists; eexists; reflexivity).
    destruct H as (w' & out & H).
    destruct (runImport_declined _ _ _ _ _ _ H) as [Hd _].
    assert (Hr : TrimSpace (ToLower (Os.stdin w)) = "no")
      by (vm_compute; reflexivity).
    exists w', out. split; [exact H|]. split; [exact Hr|].
    apply Hd. right. split; [reflexivity|]. rewrite Hr.
    split; discriminate.
  - intros w.
    assert (H : exists w',
              runImport ManifestText.unmarshal asking "backup.zip" w
              = Some (w', [Extracted "/tmp/restore/my-app/extra.txt"]))
      by (eexists; vm_compute; reflexivity).
    destruct H as (w' & H).
    destruct (runImport_declined _ _ _ _ _ _ H) as [_ Hc].
    exists w'. split; [exact H|].
    destruct Hc as (_ & [Hy | [Hy | Hy]]);
      [right; discriminate | discriminate Hy | exact Hy |].
    vm_compute in Hy. discriminate Hy.
Defined.

Lemma same_name_last_wins_witness :
  Repos twoApis = [oldApi] ++ newApi :: []
  /\ Zip.Name keyEntry = entryName (Name newApi) "id_rsa"
  /\ snd (importFile noBase (repoMapOf twoApis) (workstation, []) keyEntry)
     = [Extracted "/home/dev/src/api/id_rsa"].
Proof.
  split; [reflexivity|]. split; [reflexivity|].
  rewrite (same_name_last_wins noBase twoApis [oldApi] newApi []
             workstation [] keyEntry "id_rsa"
             eq_refl (List.Forall_nil _) eq_refl eq_refl).
  vm_compute. reflexivity.
Defined.

Lemma patterns_round_trip_witness :
  exists src' archive tgt',
    createExportZip ManifestText.marshal office "backup.zip" []
    = Some (src', archive)
    /\ importPatterns (targetMachine []) archive = (tgt', true)
    /\ Os.ReadFile office "/home/dev/.config/igloc/patterns.yaml"
       = Some (Cases.bytesOf "version: 1")
    /\ Os.ReadFile tgt' "/root/.config/igloc/patterns.yaml"
       = Some (Cases.bytesOf "version: 1").
Proof.
  assert (H : exists src' archive tgt',
            createExportZip ManifestText.marshal office "backup.zip" []
            = Some (src', archive)
            /\ importPatterns (targetMachine []) archive = (tgt', true))
    by (do 3 eexists; split; vm_compute; reflexivity).
  destruct H as (src' & archive & tgt' & Hex & Him).
  assert (Hread : Os.ReadFile office
                    "/home/dev/.config/igloc/patterns.yaml"
                  = Some (Cases.bytesOf "version: 1"))
    by (vm_compute; reflexivity).
  destruct (patterns_round_trip ManifestText.marshal office
              "backup.zip" [] src' archive
              "/home/dev/.config/igloc/patterns.yaml"
              (Cases.bytesOf "version: 1") (targetMachine []) tgt'
              eq_refl Hread)
    as (path & Hp & Hd); [vm_compute; discriminate | exact Hex | exact Him |].
  exists src', archive, tgt'. split; [exact Hex|]. split; [exact Him|].
  split; [exact Hread|].
  vm_compute in Hp. injection Hp as <-. exact Hd.
Defined.

Lemma zipPath_round_trip_witness :
  plain "my-app" = true
  /\ plainPath "config/.env.local" = true
  /\ Filepath.Join ["files"; "my-app"; "config/.env.local"]
     = "files/my-app/config/.env.local"
  /\ SplitN (TrimPrefix
               (Filepath.Join ["files"; "my-app"; "config/.env.local"])
               "files/") "/" 2
     = ["my-app"; "config/.env.local"].
Proof.
  split; [reflexivity|]. split; [reflexivity|].
  destruct (zipPath_round_trip "my-app" "config/.env.local"
              eq_refl eq_refl) as (Hz & _ & Hs).
  split; [exact Hz | exact Hs].
Defined.

Lemma resolveDestPath_under_root_witness :
  plain (Name (myApp [])) = true
  /\ plain (lastElement (cli.Path (myApp []))) = true
  /\ plainPath "config/.env.local" = true
  /\ resolveDestPath restoreFlags (targetMachine []) (myApp [])
       "config/.env.local"
     = "/tmp/restore/my-app" +:+ "/" +:+ "config/.env.local"
  /\ escapes restoreFlags (targetMachine []) (myApp []) "config/.env.local"
     = false.
Proof.
  split; [reflexivity|]. split; [reflexivity|]. split; [reflexivity|].
  destruct (resolveDestPath_under_root restoreFlags (targetMachine [])
              (myApp []) "config/.env.local" eq_refl eq_refl eq_refl)
    as (Hd & He).
  split; [|exact He]. rewrite Hd. reflexivity.
Defined.

Lemma getGitIgnoredFiles_lines_witness :
  getGitIgnoredFiles laptop "/home/dev/my-app"
  = Some [".env"; "build"; "build/output.log"; "config/.env.local"]
  /\ (In "!! build" gitLines \/ In "!! build/" gitLines).
Proof.
  assert (H : getGitIgnoredFiles laptop "/home/dev/my-app"
              = Some [".env"; "build"; "build/output.log";
                      "config/.env.local"]) by (vm_compute; reflexivity).
  split; [exact H|].
  destruct (getGitIgnoredFiles_lines laptop "/home/dev/my-app" _ H)
    as (lines & Hl & _ & Hin).
  injection Hl as <-. apply (Hin "build"). right. left. reflexivity.
Defined.

Lemma GetAllDepsDirs_set_witness :
  let order := (map_to_list (patterns.Languages twoLanguages)).*1 in
  exists result,
    patterns.GetAllDepsDirs (Some twoLanguages) order = Some result
    /\ NoDup result
    /\ (In "bin/" result /\ In "vendor/" result /\ In "node_modules/" result).
Proof.
  intros order.
  destruct (GetAllDepsDirs_set twoLanguages order (reflexivity _))
    as (_ & _ & Hrun).
  destruct Hrun as (result & Hr & Hnd & Hin & _).
  { intros name H. unfold twoLanguages in H. cbn [patterns.Languages] in H.
    apply lookup_insert_Some in H as [[_ H] | [_ H]]; [discriminate|].
    apply lookup_insert_Some in H as [[_ H] | [_ H]]; [discriminate|].
    rewrite lookup_empty in H. discriminate. }
  exists result. split; [exact Hr|]. split; [exact Hnd|].
  repeat split; apply Hin.
  - exists "go". eexists. split; [reflexivity|]. right. now left.
  - exists "go". eexists. split; [reflexivity|]. now left.
  - exists "node". eexists. split; [reflexivity|]. now left.
Defined.

Lemma SavePatterns_LoadPatterns_witness :
  exists w',
    patterns.SavePatterns marshalVersion (targetMachine []) twoLanguages
    = (w', true)
    /\ patterns.LoadPatterns unmarshalVersion w' = patterns.Loaded noLanguages.
Proof.
  assert (H : exists w',
            patterns.SavePatterns marshalVersion (targetMachine [])
              twoLanguages = (w', true))
    by (eexists; vm_compute; reflexivity).
  destruct H as (w' & H).
  pose proof (SavePatterns_LoadPatterns marshalVersion unmarshalVersion
                _ _ _ _ H) as Hl.
  cbv iota in Hl. destruct Hl as (data & _ & Hl).
  exists w'. split; [exact H | exact Hl].
Defined.

Lemma runSync_offline_witness :
  (forall c, is_Some (marshalVersion c))
  /\ snd (sync.runSync marshalVersion false offline (targetMachine []))
     = snd (sync.runSync marshalVersion false onlyGo (targetMachine [])).
Proof.
  assert (H : forall c, is_Some (marshalVersion c))
    by (intros c; eexists; reflexivity).
  split; [exact H|].
  exact (proj1 (runSync_offline marshalVersion false offline onlyGo
                  (targetMachine []) H)).
Defined.

Lemma formatSize_unit_witness :
  (- 2 ^ 63 <= 1536 < 2 ^ 63)%Z
  /\ exists exp u,
       (exp <= 5)%nat
       /\ scan.formatSize 1536
          = Some (scan.Scaled 1536 (1024 ^ (Z.of_nat exp + 1)) u)
       /\ (1024 ^ (Z.of_nat exp + 1) <= 1536 < 1024 ^ (Z.of_nat exp + 2))%Z.
Proof.
  assert (H : (- 2 ^ 63 <= 1536 < 2 ^ 63)%Z)
    by (vm_compute; split; [discriminate | reflexivity]).
  split; [exact H|].
  destruct (proj2 (formatSize_unit 1536 H)) as (exp & u & He & _ & Hf & Hb).
  { vm_compute. discriminate. }
  exists exp, u. split; [exact He|]. split; [exact Hf | exact Hb].
Defined.

Lemma printResult_groups_witness :
  exists resultAll groups total secrets,
    Scan (withShowAll NewScanner true) laptop "." = Some resultAll
    /\ scan.printResult "" resultAll
       = scan.Listing "/home/dev/my-app" groups total secrets
    /\ List.map fst groups = ["build"; "env"]
    /\ scan.ascending (List.map fst groups) = true
    /\ total = 3%nat.
Proof.
  assert (H : exists resultAll groups total secrets,
            Scan (withShowAll NewScanner true) laptop "." = Some resultAll
            /\ scan.printResult "" resultAll
               = scan.Listing "/home/dev/my-app" groups total secrets
            /\ List.map fst groups = ["build"; "env"]
            /\ List.length (IgnoredFiles resultAll) = 3%nat)
    by (do 4 eexists; split; [vm_compute; reflexivity|];
        split; [vm_compute; reflexivity|]; split; reflexivity).
  destruct H as (resultAll & groups & total & secrets & Hs & Hp & Hg & Hl).
  destruct (printResult_groups "" resultAll _ _ _ _ Hp)
    as (Ha & _ & _ & _ & Ht).
  exists resultAll, groups, total, secrets.
  split; [exact Hs|]. split; [exact Hp|]. split; [exact Hg|].
  split; [exact Ha|]. rewrite Ht. exact Hl.
Defined.

Lemma scanRecursive_totals_witness :
  exists reports results,
    scan.scanRecursive scanHere NewScanner workstation "/home/dev"
    = scan.Found reports 2 2 2
    /\ reports = List.map (scan.printResult "") results
    /\ List.length results = 2%nat.
Proof.
  assert (H : exists reports,
            scan.scanRecursive scanHere NewScanner workstation "/home/dev"
            = scan.Found reports 2 2 2)
    by (eexists; vm_compute; reflexivity).
  destruct H as (reports & H).
  destruct (scanRecursive_totals _ _ _ _ _ _ _ _ H)
    as (results & Hr & Hn & _).
  exists reports, results. split; [exact H|]. split; [exact Hr|].
  now rewrite <- Hn.
Defined.

Lemma export_follows_scan_witness :
  exists repos,
    collectReposRecursive (withShowAll NewScanner true) workstation "/home/dev"
    = Some repos
    /\ List.map Name repos = ["api"; "api"]
    /\ List.Forall2 (scan.exports workstation) repos
         (List.filter scan.hasSecret
            (scan.allResults
               (scan.walkScans (size (Os.tree workstation))
                  (withShowAll NewScanner true) workstation "/home/dev"
                  {| scan.allResults := []; scan.totalSecrets := 0;
                     scan.totalFiles := 0 |}))).
Proof.
  assert (H : exists repos,
            collectReposRecursive (withShowAll NewScanner true) workstation
              "/home/dev" = Some repos
            /\ List.map Name repos = ["api"; "api"])
    by (eexists; split; vm_compute; reflexivity).
  destruct H as (repos & H & Hn).
  exists repos. split; [exact H|]. split; [exact Hn|].
  exact (export_follows_scan _ _ _ _ H).
Defined.

Lemma runScan_listing_witness :
  let f := {| scanner.Path := ".env"; Size := 3; IsSecret := true;
              Category := "env" |} in
  let g := {| scanner.Path := "config/.env.local"; Size := 3;
              IsSecret := true; Category := "env" |} in
  scan.runScan scanHere ["."] laptop
  = Some (scan.OneRepo
            (scan.Listing "/home/dev/my-app" [("env", [f; g])] 2 2))
  /\ Category g = categorizeFile "config/.env.local"
  /\ isInDepsDir "config/.env.local" = false.
Proof.
  intros f g.
  assert (H : scan.runScan scanHere ["."] laptop
              = Some (scan.OneRepo
                        (scan.Listing "/home/dev/my-app"
                           [("env", [f; g])] 2 2)))
    by (vm_compute; reflexivity).
  destruct (runScan_listing scanHere ["."] laptop _ _ _ _ "env" [f; g] g H
              (or_introl eq_refl) (or_intror (or_introl eq_refl)))
    as (_ & Hc & _ & _ & Hd).
  split; [exact H|]. split; [exact Hc|]. apply Hd. reflexivity.
Defined.

(** The archive with the entry [files/my-app/extra.txt], which the
    manifest does not list. *)
Lemma extraction_is_archive_driven_witness :
  let w := targetMachine archiveUnlisted in
  ~ In "extra.txt" (Files (myApp [".env"]))
  /\ exists w',
      runImport ManifestText.unmarshal restoreFlags "backup.zip" w
      = Some (w', [Extracted "/tmp/restore/my-app/extra.txt"])
      /\ fileExists w' "/tmp/restore/my-app/extra.txt" = true
      /\ dirExists w' "/tmp/restore/my-app/extra.txt" = false.
Proof.
  intros w.
  set (file := fileEntry "extra.txt" "more").
  set (dest := "/tmp/restore/my-app/extra.txt").
  set (w1 := match Os.MkdirAll w (Dir dest) with Some x => x | None => w end).
  set (w2 := match Os.writeRegular true w1 dest (chmodBits (Zip.Mode file))
                     (Zip.Data file) with
             | Some x => x
             | None => w1
             end).
  destruct (extraction_is_archive_driven ManifestText.unmarshal
              restoreFlags "backup.zip" w (manifestOf [".env"])
              [manifestEntry [".env"]] file []
              eq_refl eq_refl eq_refl)
    as (Hrun & Hext & _).
  destruct (Hext "my-app" "extra.txt" eq_refl eq_refl (or_introl eq_refl))
    as (repo & [<- | []] & _ & H).
  destruct (H w1 w2) as (_ & _ & _ & Hfile & Hdir);
    [vm_compute; reflexivity | reflexivity | vm_compute; reflexivity |].
  split; [vm_compute; intuition discriminate|].
  eexists. split; [exact Hrun|]. split; [exact Hfile | exact Hdir].
Defined.

(** The archive with the entry [files/my-app/../../../etc/passwd], read
    in full, and the archive where the stream of that entry is cut. *)
Lemma traversal_is_not_rejected_witness :
  let w := targetMachine archiveTraversal in
  let file := fileEntry "../../../etc/passwd" "root::0:0:::" in
  let rest :=
    fold_left (importFile restoreFlags (repoMapOf (manifestOf [".env"])))
      [fileEntry ".env" "A=1"] in
  escapes restoreFlags w (myApp [".env"]) "../../../etc/passwd" = true
  /\ (exists w2,
        importFiles restoreFlags w archiveTraversal (manifestOf [".env"])
        = rest (w2, [Extracted "/etc/passwd"])
        /\ Os.ReadFile w2 "/etc/passwd" = Some (Zip.Data file))
  /\ (exists w2,
        importFiles restoreFlags (targetMachine archiveCut) archiveCut
          (manifestOf [".env"])
        = rest (w2, [Failed "../../../etc/passwd"])
        /\ Os.ReadFile w2 "/etc/passwd" = Some (bytesOf "root")).
Proof.
  intros w file rest.
  set (before := [manifestEntry [".env"]]).
  set (mk := fun w0 =>
         match Os.MkdirAll w0 "/etc" with Some x => x | None => w0 end).
  set (create := fun w0 f =>
         match Os.writeRegular true (mk w0) "/etc/passwd"
                 (chmodBits (Zip.Mode f)) (Zip.Data f) with
         | Some x => x
         | None => w0
         end).
  assert (Hesc : escapes restoreFlags w (myApp [".env"])
                   "../../../etc/passwd" = true) by reflexivity.
  destruct (traversal_is_not_rejected restoreFlags w (manifestOf [".env"])
              before file [fileEntry ".env" "A=1"] "my-app"
              "../../../etc/passwd" (myApp [".env"])
              eq_refl eq_refl eq_refl Hesc)
    as (Hok & _ & _ & _).
  assert (Hesc' : escapes restoreFlags (targetMachine archiveCut)
                    (myApp [".env"]) "../../../etc/passwd" = true)
    by reflexivity.
  destruct (traversal_is_not_rejected restoreFlags
              (targetMachine archiveCut) (manifestOf [".env"])
              before cutEntry [fileEntry ".env" "A=1"] "my-app"
              "../../../etc/passwd" (myApp [".env"])
              eq_refl eq_refl eq_refl Hesc')
    as (_ & _ & _ & Hcut).
  split; [exact Hesc|]. split.
  - exists (create w file).
    apply (Hok (mk w) (create w file)); vm_compute; reflexivity.
  - exists (create (targetMachine archiveCut) cutEntry).
    apply (Hcut (mk (targetMachine archiveCut))
             (create (targetMachine archiveCut) cutEntry));
      vm_compute; reflexivity.
Defined.

(** C3, the claim: the entry [files/my-app/../../../etc/passwd] of an
    archive restored under [/tmp/restore] has its destination outside
    [/tmp/restore/my-app]; it is not rejected but extracted to
    [/etc/passwd] and printed as a success, and no failure is printed. *)
Lemma traversal_counterexample :
  let w := targetMachine archiveTraversal in
  let result :=
    importFiles restoreFlags w archiveTraversal (manifestOf [".env"]) in
  repoRoot restoreFlags w (myApp [".env"]) = "/tmp/restore/my-app"
  /\ resolveDestPath restoreFlags w (myApp [".env"]) "../../../etc/passwd"
     = "/etc/passwd"
  /\ escapes restoreFlags w (myApp [".env"]) "../../../etc/passwd" = true
  /\ Os.ReadFile w "/etc/passwd" = None
  /\ runImport ManifestText.unmarshal restoreFlags "backup.zip" w
     = Some (fst (importPatterns (fst result) archiveTraversal), snd result)
  /\ snd result
     = [Extracted "/etc/passwd"; Extracted "/tmp/restore/my-app/.env"]
  /\ failures (snd result) = []
  /\ Os.ReadFile (fst result) "/etc/passwd"
     = Some (bytesOf "root::0:0:::").
Proof. repeat split; vm_compute; reflexivity. Qed.

(** The export of the repository on the laptop lists [.env] and
    [config/.env.local] and not [build/output.log]; the walk from
    [/home/dev/src] on the workstation comes to the repository [api] and
    exports its [.env]. *)
Lemma export_restricts_to_secrets_witness :
  let r := {| Name := "my-app"; cli.Path := "/home/dev/my-app";
              Files := [".env"; "config/.env.local"] |} in
  let env := {| scanner.Path := ".env"; Size := 3; IsSecret := true;
                Category := "env" |} in
  Scan NewScanner laptop "/home/dev/my-app" = Some laptopScan
  /\ In env (IgnoredFiles laptopScan)
  /\ collectSingleRepo NewScanner laptop "/home/dev/my-app" = Some [r]
  /\ In ".env" (Files r)
  /\ exportsSecrets NewScanner laptop r
  /\ isSecretFile "build/output.log" (categorizeFile "build/output.log")
     = false
  /\ ~ In "build/output.log" (Files r)
  /\ exists repos,
      collectReposRecursive NewScanner workstation "/home/dev/src"
      = Some repos
      /\ In {| Name := "api"; cli.Path := "/home/dev/src/api";
               Files := [".env"] |} repos.
Proof.
  intros r env.
  assert (Hscan : Scan NewScanner laptop "/home/dev/my-app"
                  = Some laptopScan) by (vm_compute; reflexivity).
  assert (Hin : In env (IgnoredFiles laptopScan)) by (left; reflexivity).
  destruct (export_restricts_to_secrets NewScanner laptop
              "/home/dev/my-app") as (Hsound & Hsingle & _).
  destruct (Hsingle laptopScan env Hscan Hin eq_refl) as (Hc & Hfile).
  destruct (Hsound [r] r (or_introl Hc) (or_introl eq_refl))
    as (He & Hs & _).
  split; [exact Hscan|]. split; [exact Hin|]. split; [exact Hc|].
  split; [exact Hfile|]. split; [exact He|]. split; [reflexivity|].
  split; [intros Hlog; apply Hs in Hlog; discriminate Hlog|].
  set (key := {| scanner.Path := ".env"; Size := 5; IsSecret := true;
                 Category := "env" |}).
  assert (Hapi : exists result,
             Scan NewScanner workstation (Dir "/home/dev/src/api/.git")
             = Some result
             /\ In key (IgnoredFiles result)
             /\ List.map scanner.Path
                  (List.filter IsSecret (IgnoredFiles result)) = [".env"])
    by (eexists; split; [vm_compute; reflexivity|];
        split; [left; reflexivity | reflexivity]).
  destruct Hapi as (result & Hres & Hkey & Hfiles).
  assert (Hfinds : finds workstation "/home/dev/src"
                     "/home/dev/src/api/.git").
  { apply (finds_below _ _ "/home/dev/src/api");
      [vm_compute; reflexivity | vm_compute; auto |].
    apply (finds_below _ _ "/home/dev/src/api/.git");
      [vm_compute; reflexivity | vm_compute; auto |].
    apply finds_here. }
  destruct (export_restricts_to_secrets NewScanner workstation
              "/home/dev/src") as (_ & _ & Hwalk).
  destruct (Hwalk "/home/dev/src/api/.git" result key Hfinds
              ltac:(vm_compute; reflexivity) eq_refl Hres Hkey eq_refl)
    as (repos & Hrepos & Hr & _).
  exists repos. split; [exact Hrepos|].
  rewrite Hfiles in Hr. exact Hr.
Defined.

(** A template whose lines start with a no-break space: the comment is
    passed over and the directory is found. *)
Lemma parseGitignoreForDeps_patterns_witness :
  let r := {| sync.Lines := [nbsp +:+ "# vendor/";
                             nbsp +:+ "node_modules/" +:+ nbsp];
              sync.Err := false |} in
  fst (sync.parseGitignoreForDeps r) = ["node_modules/"]
  /\ ~ In "vendor/" (fst (sync.parseGitignoreForDeps r)).
Proof.
  intros r.
  destruct (parseGitignoreForDeps_patterns r) as (_ & Hin & _).
  split; [vm_compute; reflexivity|].
  intros H. apply Hin in H as (_ & text & Hl & _ & Hc & He).
  destruct Hl as [<- | [<- | []]].
  - vm_compute in Hc. discriminate Hc.
  - vm_compute in He. discriminate He.
Defined.

End MoreExamples.
